(** * Collection-and-cache subsystem of the pain-point collector backend

    A shallow embedding of
    - [backend/app/services/collectors/cache_manager.py]  (CacheEntry, CacheManager),
    - [backend/app/services/collectors/base_collector.py] (PainPointData, BaseCollector),
    - [backend/app/services/data_collector.py]            (CollectionResult, DataCollectorService),
    followed by the properties of the specification that concern them.

    Conventions.
    - A Python [str] is the list of its code points ([pystr]); slicing [s[:n]]
      is [take n], [len] is [length].
    - A Python [int] is a [Z]; a Python [float] is the rational it denotes
      ([Q]).  Where the code compares a computed float with a threshold
      ([_should_include]) every operation is rounded to the nearest binary64
      ([binary64] below); elsewhere sums and quotients are taken exactly.
      Infinities and NaN are not modelled.
    - [datetime] values are microseconds since [datetime.min] ([Z]), the
      datetimes being the values from 0 to [DATETIME_MAX]; every call of
      [datetime.utcnow()] is an explicit argument of the operation that
      makes it.
    - Library functions ([hashlib.md5], [str.lower], the iteration order of a
      built-in [set], the [re]-based text cleaning) are parameters of the
      sections that use them. *)

From Stdlib Require Import ZArith QArith Qminmax Qround Qabs Lqa String Ascii.
From stdpp Require Import base list sorting gmap strings.

Local Open Scope Z_scope.

(** ** Python strings *)

Abbreviation pystr := (list N).

(** An ASCII literal of the source as a Python string. *)
Definition py (s : string) : pystr := N_of_ascii <$> list_ascii_of_string s.
Arguments py : simpl never.

(** [needle in haystack] on strings. *)
Fixpoint str_contains (needle haystack : pystr) : bool :=
  match haystack with
  | [] => bool_decide (needle = [])
  | _ :: rest =>
      bool_decide (take (length needle) haystack = needle) || str_contains needle rest
  end.

(** [seq[-n:]] for a positive literal [n]. *)
Definition slice_last {A} (n : Z) (l : list A) : list A :=
  drop (Z.to_nat (Z.of_nat (length l) - n)) l.

(** [range(n)] *)
Definition py_range (n : Z) : list Z := Z.of_nat <$> seq 0 (Z.to_nat n).

(** ** Floats

    The binary64 nearest to a rational, ties to the even significand: what
    a float literal denotes and what [/], [*] and [+] on floats return for
    the exact quotient, product and sum.  The quantum of a value is
    [2 ** (e - 52)] for its binary exponent [e], and [2 ** -1074] below the
    normal range. *)

Definition pow2 (e : Z) : Q :=
  if bool_decide (0 ≤ e) then inject_Z (2 ^ e) else (/ inject_Z (2 ^ (- e)))%Q.

Definition round_half_even (q : Q) : Z :=
  let f := Qfloor q in
  match (q - inject_Z f ?= 1 # 2)%Q with
  | Lt => f
  | Gt => f + 1
  | Eq => if Z.even f then f else f + 1
  end.

(** The binary exponent of a positive rational: [2 ** e <= a < 2 ** (e + 1)]. *)
Definition binade (a : Q) : Z :=
  let e := Z.log2 (Qnum a) - Z.log2 (Zpos (Qden a)) in
  if Qle_bool (pow2 e) a then e else e - 1.

Definition binary64 (q : Q) : Q :=
  if Qeq_bool q 0 then 0%Q
  else
    let a := Qabs q in
    let quantum := pow2 (Z.max (binade a) (-1022) - 52) in
    let r := Qred (inject_Z (round_half_even (a / quantum)) * quantum) in
    if Qle_bool 0 q then r else (- r)%Q.

(** [a / b], [a * b] and [a + b] on floats. *)
Definition float_div (a b : Q) : Q := binary64 (a / b).
Definition float_mul (a b : Q) : Q := binary64 (a * b).
Definition float_add (a b : Q) : Q := binary64 (a + b).

(** ** [collections.OrderedDict] with string keys

    The items in iteration order.  Keys are unique in every dictionary that
    the operations below build from the empty one. *)

Section ordered_dict.
Context {V : Type}.

Abbreviation odict := (list (pystr * V)).

(** [d[k]], [None] standing for [KeyError]; [k in d] is [is_Some]. *)
Fixpoint od_get (k : pystr) (d : odict) : option V :=
  match d with
  | [] => None
  | (k', v) :: d' => if decide (k' = k) then Some v else od_get k d'
  end.

Definition od_contains (k : pystr) (d : odict) : bool :=
  match od_get k d with Some _ => true | None => false end.

(** [d[k] = v]: an existing key keeps its position, a new key goes last. *)
Fixpoint od_setitem (k : pystr) (v : V) (d : odict) : odict :=
  match d with
  | [] => [(k, v)]
  | (k', v') :: d' =>
      if decide (k' = k) then (k, v) :: d' else (k', v') :: od_setitem k v d'
  end.

(** [d.pop(k)] for a key that is present. *)
Definition od_pop (k : pystr) (d : odict) : odict :=
  filter (λ kv, kv.1 ≠ k) d.

(** [d.move_to_end(k)] for a key that is present. *)
Definition od_move_to_end (k : pystr) (d : odict) : odict :=
  match od_get k d with
  | Some v => od_pop k d ++ [(k, v)]
  | None => d
  end.

Definition od_keys (d : odict) : list pystr := d.*1.
Definition od_values (d : odict) : list V := d.*2.

End ordered_dict.

(** ** cache_manager.py *)

Module CacheManager.

Definition HOUR : Z := 3600 * 1000000.

Section cache_manager.

(** The cached payload ([Any]), with what [CacheEntry.__post_init__] asks of
    it: [isinstance(data, (str, dict, list))] and
    [len(str(data).encode('utf-8'))]. *)
Context {Data : Type}.
Variable is_str_dict_list : Data → bool.
Variable utf8_len : Data → N.

(** [hashlib.md5(s.encode()).hexdigest()] *)
Variable md5_hexdigest : pystr → pystr.

(** [list(s)] for a built-in set of strings: one enumeration of its
    elements, in the order of the hash table. *)
Variable set_to_list : gset pystr → list pystr.
Hypothesis set_to_list_perm : ∀ s, set_to_list s ≡ₚ elements s.

Record CacheEntry := mkCacheEntry {
  data : Data;
  timestamp : Z;
  ttl_hours : Z;
  access_count : Z;
  last_accessed : Z;
  size_bytes : Z
}.

(** [CacheEntry(data=data, timestamp=now, ttl_hours=ttl)] including
    [__post_init__]. *)
Definition new_entry (d : Data) (now ttl : Z) : CacheEntry :=
  {| data := d; timestamp := now; ttl_hours := ttl;
     access_count := 0; last_accessed := now;
     size_bytes := if is_str_dict_list d then Z.of_N (utf8_len d) else 0 |}.

(** The values of the time line that are a [datetime]: from [datetime.min],
    the origin, to [datetime.max], the last microsecond of the year 9999
    (3652059 days). *)
Definition DATETIME_MAX : Z := 3652059 * 24 * HOUR - 1.

Definition is_datetime (t : Z) : Prop := 0 ≤ t ≤ DATETIME_MAX.

(** [timestamp + timedelta(hours=ttl_hours)] is a [datetime].  Where it is
    not, the addition raises [OverflowError] (a [timedelta] of that many
    hours is itself out of range only far beyond), and with it
    [is_expired] and the [get] or [cleanup_expired] that evaluates it. *)
Definition has_expiry_date (e : CacheEntry) : Prop :=
  is_datetime (timestamp e) ∧ is_datetime (timestamp e + ttl_hours e * HOUR).

(** [entry.is_expired], [now] being its [datetime.utcnow()], for an entry
    that has an expiry date. *)
Definition is_expired (now : Z) (e : CacheEntry) : bool :=
  bool_decide (timestamp e + ttl_hours e * HOUR < now).

(** [entry.touch()] *)
Definition touch (now : Z) (e : CacheEntry) : CacheEntry :=
  {| data := data e; timestamp := timestamp e; ttl_hours := ttl_hours e;
     access_count := access_count e + 1; last_accessed := now;
     size_bytes := size_bytes e |}.

Record Stats := mkStats {
  hits : Z;
  misses : Z;
  evictions : Z;
  memory_cleanups : Z;
  duplicate_blocks : Z
}.

Abbreviation store := (list (pystr * CacheEntry)).

Record manager := mkManager {
  max_memory_bytes : Z;
  cache : store;
  stats : Stats;
  pain_point_cache : store;
  api_response_cache : store;
  processed_content_hashes : gset pystr
}.

(** [CacheManager(max_memory_mb)] *)
Definition init (max_memory_mb : Z) : manager :=
  {| max_memory_bytes := max_memory_mb * 1024 * 1024;
     cache := [];
     stats := mkStats 0 0 0 0 0;
     pain_point_cache := [];
     api_response_cache := [];
     processed_content_hashes := ∅ |}.

Definition with_stats (f : Stats → Stats) (m : manager) : manager :=
  {| max_memory_bytes := max_memory_bytes m; cache := cache m;
     stats := f (stats m); pain_point_cache := pain_point_cache m;
     api_response_cache := api_response_cache m;
     processed_content_hashes := processed_content_hashes m |}.

Definition with_hashes (s : gset pystr) (m : manager) : manager :=
  {| max_memory_bytes := max_memory_bytes m; cache := cache m;
     stats := stats m; pain_point_cache := pain_point_cache m;
     api_response_cache := api_response_cache m;
     processed_content_hashes := s |}.

Definition add_hit (s : Stats) : Stats :=
  mkStats (hits s + 1) (misses s) (evictions s) (memory_cleanups s) (duplicate_blocks s).
Definition add_miss (s : Stats) : Stats :=
  mkStats (hits s) (misses s + 1) (evictions s) (memory_cleanups s) (duplicate_blocks s).
Definition add_evictions (n : Z) (s : Stats) : Stats :=
  mkStats (hits s) (misses s) (evictions s + n) (memory_cleanups s) (duplicate_blocks s).
Definition add_memory_cleanup (s : Stats) : Stats :=
  mkStats (hits s) (misses s) (evictions s) (memory_cleanups s + 1) (duplicate_blocks s).
Definition add_duplicate_block (s : Stats) : Stats :=
  mkStats (hits s) (misses s) (evictions s) (memory_cleanups s) (duplicate_blocks s + 1).

(** [_get_cache_store(cache_type)]: the partition named by [cache_type].
    The source returns a reference to it; [put_cache_store] writes the
    mutated partition back. *)
Definition _get_cache_store (cache_type : pystr) (m : manager) : store :=
  if decide (cache_type = py "pain_points") then pain_point_cache m
  else if decide (cache_type = py "api_response") then api_response_cache m
  else cache m.

Definition put_cache_store (cache_type : pystr) (st : store) (m : manager) : manager :=
  if decide (cache_type = py "pain_points") then
    {| max_memory_bytes := max_memory_bytes m; cache := cache m; stats := stats m;
       pain_point_cache := st; api_response_cache := api_response_cache m;
       processed_content_hashes := processed_content_hashes m |}
  else if decide (cache_type = py "api_response") then
    {| max_memory_bytes := max_memory_bytes m; cache := cache m; stats := stats m;
       pain_point_cache := pain_point_cache m; api_response_cache := st;
       processed_content_hashes := processed_content_hashes m |}
  else
    {| max_memory_bytes := max_memory_bytes m; cache := st; stats := stats m;
       pain_point_cache := pain_point_cache m;
       api_response_cache := api_response_cache m;
       processed_content_hashes := processed_content_hashes m |}.

(** [sum(entry.size_bytes for entry in cache_store.values())] *)
Definition store_bytes (st : store) : Z :=
  foldr (λ kv acc, size_bytes kv.2 + acc) 0 st.

(** The sub-budget of one partition: [self.max_memory_bytes // 3]. *)
Definition partition_budget (m : manager) : Z := max_memory_bytes m `div` 3.

(** The [while] loop of [_ensure_memory_capacity]: [lru_key] is the first
    key of the partition and [pop] removes that first item.  Returns the
    partition and the number of evictions made. *)
Fixpoint evict_loop (budget required current : Z) (st : store) : store * Z :=
  if bool_decide (budget < current + required) then
    match st with
    | [] => ([], 0)
    | (lru_key, lru_entry) :: rest =>
        let '(st', n) := evict_loop budget required (current - size_bytes lru_entry) rest in
        (st', n + 1)
    end
  else (st, 0).

Definition _ensure_memory_capacity (required_bytes : Z) (cache_type : pystr)
    (m : manager) : manager :=
  let cache_store := _get_cache_store cache_type m in
  let current_size := store_bytes cache_store in
  let '(st', n) := evict_loop (partition_budget m) required_bytes current_size cache_store in
  with_stats (add_evictions n) (put_cache_store cache_type st' m).

(** [delete(key, cache_type)] *)
Definition delete (key : pystr) (cache_type : pystr) (m : manager) : manager :=
  let cache_store := _get_cache_store cache_type m in
  if od_contains key cache_store
  then put_cache_store cache_type (od_pop key cache_store) m
  else m.

(** [get(key, cache_type)]; [now_check] is the clock read by [is_expired],
    [now_touch] the one read by [touch].  For a key that is cached the call
    returns when the entry has an expiry date. *)
Definition get (now_check now_touch : Z) (key : pystr) (cache_type : pystr)
    (m : manager) : option Data * manager :=
  let cache_store := _get_cache_store cache_type m in
  match od_get key cache_store with
  | None => (None, with_stats add_miss m)
  | Some entry =>
      if is_expired now_check entry then
        (None, with_stats add_miss (delete key cache_type m))
      else
        let entry' := touch now_touch entry in
        let cache_store' := od_move_to_end key (od_setitem key entry' cache_store) in
        (Some (data entry'), with_stats add_hit (put_cache_store cache_type cache_store' m))
  end.

(** [set(key, data, ttl_hours, cache_type)]; [now] is the clock read for the
    entry's [timestamp]. *)
Definition set (now : Z) (key : pystr) (d : Data) (ttl : Z) (cache_type : pystr)
    (m : manager) : manager :=
  let entry := new_entry d now ttl in
  let m1 := _ensure_memory_capacity (size_bytes entry) cache_type m in
  put_cache_store cache_type (od_setitem key entry (_get_cache_store cache_type m1)) m1.

(** [generate_content_hash(title, content, source_url)] *)
Definition content_string (title content source_url : pystr) : pystr :=
  take 100 title ++ take 200 content ++ source_url.

Definition generate_content_hash (title content source_url : pystr) : pystr :=
  md5_hexdigest (content_string title content source_url).

(** [is_duplicate_content(title, content, source_url)] *)
Definition is_duplicate_content (title content source_url : pystr) (m : manager)
    : bool * manager :=
  let content_hash := generate_content_hash title content source_url in
  if decide (content_hash ∈ processed_content_hashes m) then
    (true, with_stats add_duplicate_block m)
  else
    let hashes := {[content_hash]} ∪ processed_content_hashes m in
    let hashes' :=
      if bool_decide (10000 < Z.of_nat (size hashes)) then
        let hash_list := set_to_list hashes in
        (list_to_set (slice_last 7500 hash_list) : gset pystr)
      else hashes in
    (false, with_hashes hashes' m).

(** [cleanup_expired()]; one clock value for the sweep.  The call returns
    when every entry has an expiry date. *)
Definition expired_keys (now : Z) (st : store) : list pystr :=
  (filter (λ kv, is_expired now kv.2 = true) st).*1.

Definition sweep (now : Z) (st : store) : store :=
  foldl (λ acc key, od_pop key acc) st (expired_keys now st).

Definition cleanup_expired (now : Z) (m : manager) : manager :=
  let cleanup_count :=
    (length (expired_keys now (cache m)) + length (expired_keys now (pain_point_cache m))
     + length (expired_keys now (api_response_cache m)))%nat in
  let m' :=
    {| max_memory_bytes := max_memory_bytes m;
       cache := sweep now (cache m);
       stats := stats m;
       pain_point_cache := sweep now (pain_point_cache m);
       api_response_cache := sweep now (api_response_cache m);
       processed_content_hashes := processed_content_hashes m |} in
  if bool_decide (0 < cleanup_count)%nat then with_stats add_memory_cleanup m' else m'.

(** [clear_cache(cache_type)] *)
Definition clear_cache (cache_type : pystr) (m : manager) : manager :=
  if decide (cache_type = py "all") then
    {| max_memory_bytes := max_memory_bytes m; cache := []; stats := stats m;
       pain_point_cache := []; api_response_cache := [];
       processed_content_hashes := ∅ |}
  else put_cache_store cache_type [] m.

(** The request parameters of a cache key ([Dict[str, Any]]) with
    [json.dumps(params, sort_keys=True)], and the dictionary
    [{"type": "pain_points"}] that [cache_pain_points] passes. *)
Context {Params : Type}.
Variable json_dumps : Params → pystr.
Variable type_pain_points : Params.

(** [generate_cache_key(source, query, params)]; [params or {}] dumps to
    [{}] when no parameters are given. *)
Definition generate_cache_key (source query : pystr) (params : option Params) : pystr :=
  let params_str := match params with Some p => json_dumps p | None => py "{}" end in
  md5_hexdigest (source ++ py ":" ++ query ++ py ":" ++ params_str).

(** The pain points handed to [cache_pain_points] ([Dict[str, Any]]), with
    [point.get(field, default)] for the three fields it reads, the default
    being the empty string, and the list of them as a cached payload. *)
Context {Point : Type}.
Variable point_title point_content point_source_url : Point → pystr.
Variable of_points : list Point → Data.

(** The [for point in pain_points] loop of [cache_pain_points]. *)
Fixpoint unique_points (pain_points : list Point) (m : manager) : list Point * manager :=
  match pain_points with
  | [] => ([], m)
  | point :: rest =>
      let '(dup, m1) :=
        is_duplicate_content (point_title point) (point_content point)
          (point_source_url point) m in
      let '(unique, m2) := unique_points rest m1 in
      (if dup then unique else point :: unique, m2)
  end.

(** [cache_pain_points(source, query, pain_points, ttl_hours)] *)
Definition cache_pain_points (now : Z) (source query : pystr) (pain_points : list Point)
    (ttl : Z) (m : manager) : manager :=
  let cache_key := generate_cache_key source query (Some type_pain_points) in
  let '(unique, m1) := unique_points pain_points m in
  set now cache_key (of_points unique) ttl (py "pain_points") m1.

(** [get_cached_pain_points(source, query)] *)
Definition get_cached_pain_points (now_check now_touch : Z) (source query : pystr)
    (m : manager) : option Data * manager :=
  get now_check now_touch (generate_cache_key source query (Some type_pain_points))
    (py "pain_points") m.

(** [cache_api_response(source, endpoint, params, response_data, ttl_hours)] *)
Definition cache_api_response (now : Z) (source endpoint : pystr) (params : option Params)
    (response_data : Data) (ttl : Z) (m : manager) : manager :=
  set now (generate_cache_key source endpoint params) response_data ttl
    (py "api_response") m.

(** [get_cached_api_response(source, endpoint, params)] *)
Definition get_cached_api_response (now_check now_touch : Z) (source endpoint : pystr)
    (params : option Params) (m : manager) : option Data * manager :=
  get now_check now_touch (generate_cache_key source endpoint params)
    (py "api_response") m.

(** [get_memory_usage()["total_usage"]["bytes"]] *)
Definition total_usage_bytes (m : manager) : Z :=
  store_bytes (cache m) + store_bytes (pain_point_cache m)
  + store_bytes (api_response_cache m).

(** [get_cache_efficiency()]: [total_requests] and [hit_rate_percentage]. *)
Definition total_requests (m : manager) : Z := hits (stats m) + misses (stats m).

Definition hit_rate_percentage (m : manager) : Q :=
  if bool_decide (0 < total_requests m)
  then (inject_Z (hits (stats m)) / inject_Z (total_requests m) * 100)%Q
  else 0%Q.

End cache_manager.

End CacheManager.

(** ** base_collector.py *)

Module BaseCollector.

Record CollectorConfig := mkConfig {
  max_concurrent : Z;
  timeout_seconds : Z;
  retry_attempts : Z;
  cache_ttl_hours : Z;
  max_content_length : Z;
  min_quality_score : Q;
  rate_limit_delay : Q;
  vercel_memory_limit : bool
}.

(** [CollectorConfig()] *)
Definition default_config : CollectorConfig :=
  {| max_concurrent := 5; timeout_seconds := 30; retry_attempts := 3;
     cache_ttl_hours := 6; max_content_length := 5000;
     min_quality_score := 3 # 10; rate_limit_delay := 1;
     vercel_memory_limit := true |}.

Record PainPointData := mkPainPoint {
  title : pystr;
  content : pystr;
  source : pystr;
  source_url : pystr;
  sentiment_score : Q;
  trend_score : Q;
  keywords : list pystr;
  category : pystr;
  confidence : Q;
  timestamp : Z
}.

(** [len(x) / d] with Python's true division. *)
Definition len_over {A} (l : list A) (d : Z) : Q :=
  (inject_Z (Z.of_nat (length l)) / inject_Z d)%Q.

(** [PainPointData.quality_score] in exact arithmetic: the weighted sum
    that the float computation approximates. *)
Definition quality_score (p : PainPointData) : Q :=
  let title_score := Qmin (len_over (title p) 50) 1 in
  let content_score := Qmin (len_over (content p) 200) 1 in
  let keyword_score := Qmin (len_over (keywords p) 5) 1 in
  (title_score * (3 # 10) + content_score * (4 # 10)
   + keyword_score * (2 # 10) + confidence p * (1 # 10))%Q.

(** [PainPointData.quality_score] as the floats compute it: the quotients,
    the products and the sums, from left to right, are each rounded, and
    [0.3], [0.4], [0.2] and [0.1] are the floats nearest to them. *)
Definition quality_score_float (p : PainPointData) : Q :=
  let title_score := Qmin (float_div (inject_Z (Z.of_nat (length (title p)))) 50) 1 in
  let content_score := Qmin (float_div (inject_Z (Z.of_nat (length (content p)))) 200) 1 in
  let keyword_score := Qmin (float_div (inject_Z (Z.of_nat (length (keywords p)))) 5) 1 in
  float_add
    (float_add
       (float_add (float_mul title_score (binary64 (3 # 10)))
                  (float_mul content_score (binary64 (4 # 10))))
       (float_mul keyword_score (binary64 (2 # 10))))
    (float_mul (binary64 (confidence p)) (binary64 (1 # 10))).

(** The keyword tables of [_is_pain_point_content]; the Korean entries are
    given by their code points. *)
Definition pain_keywords : list pystr :=
  [ py "problem"; py "issue"; py "bug"; py "error"; py "fail"; py "broken";
    py "difficult"; py "hard"; py "struggle"; py "challenge";
    py "frustrating"; py "annoying"; py "pain"; py "inefficient"; py "slow";
    py "complex"; py "confusing"; py "needs improvement";
    py "could be better"; py "wish there was"; py "if only";
    py "why doesn't";
    [47928; 51228]%N; [48520; 54200]%N; [50612; 47140; 50880]%N;
    [55192; 46308]%N; [51676; 51613]%N; [48708; 54952; 50984]%N;
    [44060; 49440]%N; [54596; 50836]%N; [48520; 47564]%N;
    [44256; 48124]%N; [44145; 51221]%N; [49828; 53944; 47112; 49828]%N;
    [48373; 51105]%N; [45712; 47548]%N; [50612; 47157]%N ].

Definition exclude_keywords : list pystr :=
  [ py "solution"; py "solved"; py "fixed"; py "working"; py "success";
    py "great"; py "awesome";
    [54644; 44208]%N; [49457; 44277]%N; [51339; 51008]%N;
    [54988; 47469]%N; [50756; 48317]%N ].

(** One call of the source adapter [_collect_raw_data] under
    [asyncio.wait_for]: the raw items, [asyncio.TimeoutError], or any other
    exception with its [str(e)]. *)
Inductive fetch_outcome (RawItem : Type) :=
  | FetchOk (raw_data : list RawItem)
  | FetchTimeout
  | FetchError (msg : pystr).
Arguments FetchOk {RawItem} raw_data.
Arguments FetchTimeout {RawItem}.
Arguments FetchError {RawItem} msg.

(** What a collector does to the outside: adapter calls and sleeps. *)
Inductive event :=
  | EvFetch (query : pystr) (limit : Z)
  | EvSleep (seconds : Q).

Definition is_fetch (e : event) : bool :=
  match e with EvFetch _ _ => true | EvSleep _ => false end.

(** The number of attempts a trace holds. *)
Definition attempts_made (tr : list event) : nat := length (List.filter is_fetch tr).

Record Stats := mkStats {
  total_processed : Z;
  duplicates_filtered : Z;
  quality_filtered : Z;
  api_calls : Z;
  cache_hits : Z;
  errors : list pystr
}.

(** The mutable part of a collector, and the trace of its effects. *)
Record collector := mkCollector {
  config : CollectorConfig;
  _seen_hashes : gset pystr;
  _stats : Stats;
  trace : list event
}.

(** [BaseCollector(config)] *)
Definition init (cfg : CollectorConfig) : collector :=
  {| config := cfg; _seen_hashes := ∅;
     _stats := mkStats 0 0 0 0 0 []; trace := [] |}.

Definition with_stats (f : Stats → Stats) (c : collector) : collector :=
  {| config := config c; _seen_hashes := _seen_hashes c;
     _stats := f (_stats c); trace := trace c |}.

Definition with_seen (s : gset pystr) (c : collector) : collector :=
  {| config := config c; _seen_hashes := s; _stats := _stats c; trace := trace c |}.

Definition emit (e : event) (c : collector) : collector :=
  {| config := config c; _seen_hashes := _seen_hashes c;
     _stats := _stats c; trace := trace c ++ [e] |}.

Definition add_duplicate_filtered (s : Stats) : Stats :=
  mkStats (total_processed s) (duplicates_filtered s + 1) (quality_filtered s)
          (api_calls s) (cache_hits s) (errors s).
Definition add_quality_filtered (s : Stats) : Stats :=
  mkStats (total_processed s) (duplicates_filtered s) (quality_filtered s + 1)
          (api_calls s) (cache_hits s) (errors s).
Definition add_error (msg : pystr) (s : Stats) : Stats :=
  mkStats (total_processed s) (duplicates_filtered s) (quality_filtered s)
          (api_calls s) (cache_hits s) (errors s ++ [msg]).
Definition add_api_call (n_raw : Z) (s : Stats) : Stats :=
  mkStats (total_processed s + n_raw) (duplicates_filtered s) (quality_filtered s)
          (api_calls s + 1) (cache_hits s) (errors s).

Section base_collector.

(** [hashlib.md5(s.encode()).hexdigest()] *)
Variable md5_hexdigest : pystr → pystr.

(** [str.lower] *)
Variable str_lower : pystr → pystr.

(** The raw items of the adapter ([Dict[str, Any]]), the adapter itself
    (abstract in the source: its answer may depend on everything the
    collector did so far), and [_process_raw_item], whose text cleaning and
    keyword extraction are [re] searches. *)
Context {RawItem : Type}.
Variable _collect_raw_data : list event → pystr → Z → fetch_outcome RawItem.
Variable _process_raw_item : RawItem → option PainPointData.

(** [PainPointData.content_hash] *)
Definition content_hash (p : PainPointData) : pystr :=
  md5_hexdigest (take 100 (title p) ++ source p ++ source_url p).

(** [_is_pain_point_content(text)] *)
Definition _is_pain_point_content (text : pystr) : bool :=
  let text_lower := str_lower text in
  let pain_score :=
    Z.of_nat (length (filter (λ keyword, str_contains keyword text_lower = true) pain_keywords)) in
  let exclude_score :=
    Z.of_nat (length (filter (λ keyword, str_contains keyword text_lower = true) exclude_keywords)) in
  bool_decide (exclude_score < pain_score) && bool_decide (0 < pain_score).

(** [_should_include(pain_point)] *)
Definition _should_include (p : PainPointData) (c : collector) : bool * collector :=
  if decide (content_hash p ∈ _seen_hashes c) then
    (false, with_stats add_duplicate_filtered c)
  else if Qlt_le_dec (quality_score_float p) (binary64 (min_quality_score (config c))) then
    (false, with_stats add_quality_filtered c)
  else if negb (_is_pain_point_content (title p ++ py " " ++ content p)) then
    (false, with_stats add_quality_filtered c)
  else
    (true, with_seen ({[content_hash p]} ∪ _seen_hashes c) c).

(** The [for item in raw_data] loop of [_collect_single_query]. *)
Fixpoint process_items (raw_data : list RawItem) (c : collector)
    : list PainPointData * collector :=
  match raw_data with
  | [] => ([], c)
  | item :: rest =>
      match _process_raw_item item with
      | None => process_items rest c
      | Some pain_point =>
          let '(keep, c1) := _should_include pain_point c in
          let '(processed_results, c2) := process_items rest c1 in
          (if keep then pain_point :: processed_results else processed_results, c2)
      end
  end.

(** The exponential backoff [rate_limit_delay * (2 ** attempt)]. *)
Definition backoff (cfg : CollectorConfig) (attempt : Z) : Q :=
  (rate_limit_delay cfg * inject_Z (2 ^ attempt))%Q.

(** The [for attempt in range(retry_attempts)] loop of
    [_collect_single_query], over the values of [attempt] still to come;
    when they run out the function returns the empty list. *)
Fixpoint attempt_loop (attempts : list Z) (query : pystr) (limit : Z) (c : collector)
    : list PainPointData * collector :=
  match attempts with
  | [] => ([], c)
  | attempt :: rest =>
      let outcome := _collect_raw_data (trace c) query limit in
      let c := emit (EvFetch query limit) c in
      match outcome with
      | FetchOk raw_data =>
          let '(processed_results, c) := process_items raw_data c in
          (processed_results,
           with_stats (add_api_call (Z.of_nat (length raw_data))) c)
      | FetchTimeout =>
          let c :=
            if decide (attempt = retry_attempts (config c) - 1)
            then with_stats (add_error (py "Timeout for query: " ++ query)) c
            else c in
          attempt_loop rest query limit (emit (EvSleep (backoff (config c) attempt)) c)
      | FetchError msg =>
          let c :=
            if decide (attempt = retry_attempts (config c) - 1)
            then with_stats (add_error (py "Failed query " ++ query ++ py ": " ++ msg)) c
            else c in
          attempt_loop rest query limit (emit (EvSleep (backoff (config c) attempt)) c)
      end
  end.

(** [_collect_single_query(query, limit)] *)
Definition _collect_single_query (query : pystr) (limit : Z) (c : collector)
    : list PainPointData * collector :=
  attempt_loop (py_range (retry_attempts (config c))) query limit c.

End base_collector.

(** The stop words of [_extract_keywords] and the category table of
    [_categorize_content], the Korean entries by their code points. *)
Definition stop_words : list pystr :=
  [ py "the"; py "a"; py "an"; py "and"; py "or"; py "but"; py "in"; py "on";
    py "at"; py "to"; py "for"; py "of"; py "with"; py "by"; py "is"; py "are";
    py "was"; py "were"; py "be"; py "been"; py "have"; py "has"; py "had";
    py "do"; py "does"; py "did"; py "will"; py "would"; py "could"; py "should";
    py "this"; py "that"; py "these"; py "those"; py "they"; py "them";
    py "their"; py "there"; py "when"; py "where"; py "why"; py "how";
    py "what"; py "who"; py "which"; py "can"; py "may";
    [44536]%N; [51060]%N; [51200]%N; [44163]%N; [46308]%N; [45716]%N;
    [51008]%N; [51012]%N; [47484]%N; [51060]%N; [44032]%N; [50640]%N;
    [51032]%N; [47196]%N; [51004; 47196]%N; [50640; 49436]%N;
    [44620; 51648]%N; [48512; 53552]%N; [54616; 45716]%N; [54616; 51648]%N;
    [46104; 45716]%N; [51080; 45716]%N ].

Definition categories : list (pystr * list pystr) :=
  [ (py "technology",
     [ py "tech"; py "programming"; py "software"; py "app"; py "website";
       py "api"; py "bug"; py "code"; [44060; 48156]%N;
       [54532; 47196; 44536; 47000; 48141]%N;
       [49548; 54532; 53944; 50920; 50612]%N; [50545]%N;
       [50937; 49324; 51060; 53944]%N; [44592; 49696]%N ]);
    (py "business",
     [ py "business"; py "startup"; py "entrepreneur"; py "market";
       py "customer"; py "revenue"; [48708; 51592; 45768; 49828]%N;
       [49324; 50629]%N; [52285; 50629]%N; [44592; 50629]%N;
       [44256; 44061]%N; [47588; 52636]%N ]);
    (py "productivity",
     [ py "productivity"; py "efficient"; py "workflow"; py "process";
       py "automation"; py "time"; [49373; 49328; 49457]%N; [54952; 50984]%N;
       [50629; 47924]%N; [54532; 47196; 49464; 49828]%N;
       [51088; 46041; 54868]%N; [49884; 44036]%N ]);
    (py "healthcare",
     [ py "health"; py "medical"; py "fitness"; py "wellness"; py "hospital";
       py "doctor"; [44148; 44053]%N; [51032; 47308]%N; [48337; 50896]%N;
       [51032; 49324]%N; [52824; 47308]%N ]);
    (py "education",
     [ py "education"; py "learning"; py "school"; py "university";
       py "student"; py "teacher"; [44368; 50977]%N; [54617; 49845]%N;
       [54617; 44368]%N; [45824; 54617]%N; [54617; 49373]%N;
       [49440; 49373; 45784]%N ]);
    (py "finance",
     [ py "money"; py "finance"; py "bank"; py "payment"; py "investment";
       py "cost"; py "price"; [46024]%N; [44552; 50997]%N; [51008; 54665]%N;
       [44208; 51228]%N; [53804; 51088]%N; [48708; 50857]%N ]);
    (py "communication",
     [ py "communication"; py "social"; py "chat"; py "message"; py "email";
       py "call"; [49548; 53685]%N; [49548; 49500]%N; [52292; 54021]%N;
       [47700; 49884; 51648]%N; [51060; 47700; 51068]%N; [51204; 54868]%N ]) ].

(** [s[:n]] for any integer [n]: a negative [n] counts from the end. *)
Definition slice_to {A} (n : Z) (s : list A) : list A :=
  if bool_decide (0 ≤ n) then take (Z.to_nat n) s
  else take (Z.to_nat (Z.of_nat (length s) + n)) s.

Section text_processing.

(** [str.lower] and [str.strip]; the three text substitutions of
    [_clean_text] (the removal of HTML tags, [' '.join(text.split())] and the
    removal of URLs); and [re.findall] with the word pattern of
    [_extract_keywords]. *)
Variable str_lower : pystr → pystr.
Variable str_strip : pystr → pystr.
Variable remove_tags : pystr → pystr.
Variable join_split : pystr → pystr.
Variable remove_urls : pystr → pystr.
Variable findall_words : pystr → list pystr.

(** [_clean_text(text)] *)
Definition _clean_text (cfg : CollectorConfig) (text : pystr) : pystr :=
  match text with
  | [] => []
  | _ =>
      let text := remove_tags text in
      let text := join_split text in
      let text := remove_urls text in
      let text :=
        if bool_decide (max_content_length cfg < Z.of_nat (length text))
        then slice_to (max_content_length cfg) text ++ py "..."
        else text in
      str_strip text
  end.

(** The [for word in words] loop of [_extract_keywords]. *)
Fixpoint keyword_loop (words : list pystr) (keywords : list pystr) (seen : gset pystr)
    : list pystr :=
  match words with
  | [] => keywords
  | word :: rest =>
      if bool_decide ((word ∉ stop_words) ∧ (word ∉ seen) ∧ (2 < length word)%nat) then
        let keywords := keywords ++ [word] in
        let seen := {[word]} ∪ seen in
        if bool_decide (10 ≤ length keywords)%nat then keywords
        else keyword_loop rest keywords seen
      else keyword_loop rest keywords seen
  end.

(** [_extract_keywords(text)] *)
Definition _extract_keywords (text : pystr) : list pystr :=
  keyword_loop (findall_words (str_lower text)) [] ∅.

(** The score of a category: how many of its keywords occur in the text. *)
Definition keyword_hits (text_lower : pystr) (keywords : list pystr) : Z :=
  Z.of_nat (length (filter (λ keyword, str_contains keyword text_lower = true) keywords)).

(** [max(items, key=lambda x: x[1])]: the first item with the largest
    score. *)
Fixpoint first_max (best : pystr * Z) (items : list (pystr * Z)) : pystr * Z :=
  match items with
  | [] => best
  | item :: rest => if bool_decide (best.2 < item.2) then first_max item rest
                    else first_max best rest
  end.

(** [_categorize_content(text)] *)
Definition category_scores (text_lower : pystr) : list (pystr * Z) :=
  filter (λ item, 0 < item.2)
    ((λ entry, (entry.1, keyword_hits text_lower entry.2)) <$> categories).

Definition _categorize_content (text : pystr) : pystr :=
  match category_scores (str_lower text) with
  | [] => py "general"
  | item :: rest => (first_max item rest).1
  end.

(** The fields [_process_raw_item] reads from a raw item, each with the
    default of its [item.get]. *)
Context {RawItem : Type}.
Variable item_title item_content item_description item_subsource item_source_url
  : RawItem → pystr.
Variable item_sentiment_score item_trend_score item_confidence : RawItem → Q.

(** [_process_raw_item(item)] for a collector named [collector_name], [now]
    being the clock read for the record's timestamp. *)
Definition _process_raw_item (cfg : CollectorConfig) (collector_name : pystr) (now : Z)
    (item : RawItem) : option PainPointData :=
  let title := _clean_text cfg (item_title item) in
  let content :=
    _clean_text cfg
      (match item_content item with [] => item_description item | c => c end) in
  match title, content with
  | [], [] => None
  | _, _ =>
      Some {| title := title;
              content := content;
              source := collector_name ++ py "-" ++ item_subsource item;
              source_url := item_source_url item;
              sentiment_score := item_sentiment_score item;
              trend_score := item_trend_score item;
              keywords := _extract_keywords (title ++ py " " ++ content);
              category := _categorize_content (title ++ py " " ++ content);
              confidence := item_confidence item;
              timestamp := now |}
  end.

End text_processing.

End BaseCollector.

(** ** data_collector.py *)

Module DataCollectorService.

Record CollectionResult := mkResult {
  source : pystr;
  collected_count : Z;
  total_processed : Z;
  duplicates_filtered : Z;
  errors : list pystr;
  execution_time : Q;
  cache_hits : Z
}.

(** [int / int] with Python's true division. *)
Definition true_div (a b : Z) : Q := (inject_Z a / inject_Z b)%Q.

(** [CollectionResult.success_rate] *)
Definition success_rate (r : CollectionResult) : Q :=
  if decide (total_processed r = 0) then 0%Q
  else (true_div (collected_count r) (total_processed r) * 100)%Q.

(** [CollectionResult.efficiency_score] *)
Definition efficiency_score (r : CollectionResult) : Q :=
  let base_score := (success_rate r / 100)%Q in
  let cache_bonus := Qmin (true_div (cache_hits r) (Z.max (total_processed r) 1)) (1 # 2) in
  Qmin (base_score + cache_bonus) 1.

Definition sum_Z (l : list Z) : Z := foldr Z.add 0 l.
Definition sum_Q (l : list Q) : Q := foldr Qplus 0%Q l.

(** The exception that leaves a coroutine of this module uncaught. *)
Inductive pyexc :=
  | NameError (name : string).

(** The names bound in the module namespace of [data_collector.py] once it
    is imported: its [import] statements (lines 6 to 20), [logger] and the
    two classes.  None of them shadows or adds a built-in. *)
Definition module_globals : list string :=
  [ "asyncio"; "aiohttp"; "datetime"; "timedelta"; "List"; "Dict"; "Any";
    "Optional"; "Set"; "structlog"; "hashlib"; "json"; "dataclass";
    "settings"; "DatabaseService"; "RedditCollector"; "NaverCollector";
    "AlternativeCollector"; "CacheManager"; "logger"; "CollectionResult";
    "DataCollectorService" ]%string.

(** Evaluating a global name that is not a built-in, such as [time], in a
    module namespace. *)
Definition load_global (namespace : list string) (name : string) : pyexc + unit :=
  if bool_decide (name ∈ namespace) then inr () else inl (NameError name).

Record collection_stats := mkCollectionStats {
  total_sessions : Z;
  successful_sessions : Z;
  total_collected : Z;
  average_quality_score : Q
}.

(** What [collector.collect(queries, limit)] followed by
    [collector.get_stats()] gives the service: an exception, or the pain
    points with the collector's [errors] and [cache_hits] statistics. *)
Inductive collect_outcome :=
  | CollectRaised (msg : pystr)
  | Collected (pain_points : list BaseCollector.PainPointData)
              (stat_errors : list pystr) (stat_cache_hits : Z).

(** [_generate_intelligent_queries()], from the hour and the weekday of
    [datetime.utcnow()]. *)
Definition _generate_intelligent_queries (current_hour current_day : Z) : list pystr :=
  let base_queries :=
    [ py "software usability problems"; py "workflow inefficiencies";
      py "automation opportunities"; py "user experience pain points";
      py "productivity bottlenecks" ] in
  let base_queries :=
    if bool_decide (current_hour < 12) then
      base_queries ++ [ py "morning routine problems"; py "work setup inefficiencies";
                        py "daily planning issues" ]
    else if bool_decide (17 < current_hour) then
      base_queries ++ [ py "app frustrations"; py "service problems"; py "tool limitations" ]
    else base_queries in
  let base_queries :=
    if bool_decide (current_day < 5) then
      base_queries ++ [ py "business process problems"; py "work tool issues";
                        py "collaboration difficulties" ]
    else
      base_queries ++ [ py "personal productivity issues"; py "hobby tool problems";
                        py "lifestyle inefficiencies" ] in
  take 8 base_queries.

Section data_collector.

Context {Data : Type}.
Variable md5_hexdigest : pystr → pystr.
Variable set_to_list : gset pystr → list pystr.

(** The registered collectors, by name, as the service sees them. *)
Variable collect : pystr → list pystr → Z → collect_outcome.

(** [DatabaseService.create_pain_point]: the store after the call, or
    [None] when it raises. *)
Variable create_pain_point :
  list BaseCollector.PainPointData → BaseCollector.PainPointData →
  option (list BaseCollector.PainPointData).

Record service := mkService {
  cache_manager : @CacheManager.manager Data;
  _collection_stats : collection_stats;
  database : list BaseCollector.PainPointData
}.

(** The collectors in the order of [self.collectors]. *)
Definition collectors : list pystr := [ py "reddit"; py "naver"; py "alternative" ].

(** The [for pain_point in pain_points] loop that stores what is new. *)
Fixpoint store_loop (pain_points : list BaseCollector.PainPointData)
    (stored_count : Z) (s : service) : Z * service :=
  match pain_points with
  | [] => (stored_count, s)
  | pain_point :: rest =>
      let '(dup, cm) :=
        CacheManager.is_duplicate_content md5_hexdigest set_to_list
          (BaseCollector.title pain_point) (BaseCollector.content pain_point)
          (BaseCollector.source_url pain_point) (cache_manager s) in
      let s := mkService cm (_collection_stats s) (database s) in
      if dup then store_loop rest stored_count s
      else
        match create_pain_point (database s) pain_point with
        | Some db' =>
            store_loop rest (stored_count + 1) (mkService cm (_collection_stats s) db')
        | None => store_loop rest stored_count s
        end
  end.

(** What the loop over the collectors accumulates. *)
Record session := mkSession {
  collection_results : list CollectionResult;
  all_pain_points : list BaseCollector.PainPointData;
  total_errors : list pystr
}.

(** The [for collector_name, collector in self.collectors.items()] loop. *)
Fixpoint source_loop (names : list pystr) (base_queries : list pystr)
    (limit_per_source : Z) (elapsed : Q) (acc : session) (s : service)
    : session * service :=
  match names with
  | [] => (acc, s)
  | collector_name :: rest =>
      match collect collector_name base_queries limit_per_source with
      | CollectRaised msg =>
          source_loop rest base_queries limit_per_source elapsed
            (mkSession (collection_results acc) (all_pain_points acc)
               (total_errors acc ++ [collector_name ++ py ": " ++ msg])) s
      | Collected pain_points stat_errors stat_cache_hits =>
          let '(stored_count, s) := store_loop pain_points 0 s in
          let result :=
            {| source := collector_name;
               collected_count := stored_count;
               total_processed := Z.of_nat (length pain_points);
               duplicates_filtered := Z.of_nat (length pain_points) - stored_count;
               errors := stat_errors;
               execution_time := elapsed;
               cache_hits := stat_cache_hits |} in
          source_loop rest base_queries limit_per_source elapsed
            (mkSession (collection_results acc ++ [result])
               (all_pain_points acc ++ pain_points) (total_errors acc)) s
      end
  end.

(** The statements of [collect_all_sources] after its first one: the
    session counter, the loop over the collectors, the totals, the service
    statistics, the cache sweep and the aggregate result. *)
Definition collect_all_sources_body (limit_per_source : Z)
    (current_hour current_day now : Z) (elapsed : Q) (s : service)
    : CollectionResult * service :=
  let st := _collection_stats s in
  let s := mkService (cache_manager s)
             (mkCollectionStats (total_sessions st + 1) (successful_sessions st)
                (total_collected st) (average_quality_score st))
             (database s) in
  let base_queries := _generate_intelligent_queries current_hour current_day in
  let '(acc, s) :=
    source_loop collectors base_queries limit_per_source elapsed (mkSession [] [] []) s in
  let total_collected' := sum_Z (collected_count <$> collection_results acc) in
  let total_processed' := sum_Z (total_processed <$> collection_results acc) in
  let st := _collection_stats s in
  let st :=
    if bool_decide (0 < total_collected') then
      let avg_quality :=
        (sum_Q (BaseCollector.quality_score <$> all_pain_points acc)
         / inject_Z (Z.of_nat (length (all_pain_points acc))))%Q in
      mkCollectionStats (total_sessions st) (successful_sessions st + 1)
        (total_collected st + total_collected')
        ((average_quality_score st + avg_quality) / 2)%Q
    else st in
  let s := mkService (CacheManager.cleanup_expired now (cache_manager s)) st (database s) in
  ({| source := py "all_sources";
      collected_count := total_collected';
      total_processed := total_processed';
      duplicates_filtered := sum_Z (duplicates_filtered <$> collection_results acc);
      errors := total_errors acc;
      execution_time := elapsed;
      cache_hits := sum_Z (cache_hits <$> collection_results acc) |}, s).

(** [collect_all_sources(limit_per_source)] run in a module namespace.  Its
    first statement, [start_time = time.time()] (line 68), stands before the
    [try] and reads the global name [time]. *)
Definition collect_all_sources_in (namespace : list string) (limit_per_source : Z)
    (current_hour current_day now : Z) (elapsed : Q) (s : service)
    : (pyexc + CollectionResult) * service :=
  match load_global namespace "time" with
  | inl e => (inl e, s)
  | inr _ =>
      let '(r, s') :=
        collect_all_sources_body limit_per_source current_hour current_day now elapsed s in
      (inr r, s')
  end.

(** [collect_all_sources(limit_per_source)] as the module defines it. *)
Definition collect_all_sources : Z → Z → Z → Z → Q → service →
    (pyexc + CollectionResult) * service :=
  collect_all_sources_in module_globals.

(** [collect_from_source(source, limit)] run in a module namespace.  The
    test for an unknown source comes first; for a registered one the next
    statement, [start_time = time.time()] (line 230), stands before the
    [try] and reads the global name [time]. *)
Definition collect_from_source_in (namespace : list string) (source_name : pystr)
    (limit : Z) (current_hour current_day : Z) (elapsed : Q) (s : service)
    : (pyexc + CollectionResult) * service :=
  if bool_decide (source_name ∉ collectors) then
    (inr {| source := source_name; collected_count := 0; total_processed := 0;
            duplicates_filtered := 0;
            errors := [py "Unknown source: " ++ source_name];
            execution_time := 0; cache_hits := 0 |}, s)
  else
    match load_global namespace "time" with
    | inl e => (inl e, s)
    | inr _ =>
        let queries := _generate_intelligent_queries current_hour current_day in
        match collect source_name queries limit with
        | Collected pain_points stat_errors stat_cache_hits =>
            let '(stored_count, s) := store_loop pain_points 0 s in
            (inr {| source := source_name;
                    collected_count := stored_count;
                    total_processed := Z.of_nat (length pain_points);
                    duplicates_filtered := Z.of_nat (length pain_points) - stored_count;
                    errors := stat_errors;
                    execution_time := elapsed;
                    cache_hits := stat_cache_hits |}, s)
        | CollectRaised msg =>
            (inr {| source := source_name; collected_count := 0; total_processed := 0;
                    duplicates_filtered := 0; errors := [msg];
                    execution_time := elapsed; cache_hits := 0 |}, s)
        end
    end.

(** [collect_from_source(source, limit)] as the module defines it. *)
Definition collect_from_source : pystr → Z → Z → Z → Q → service →
    (pyexc + CollectionResult) * service :=
  collect_from_source_in module_globals.

(** [DataCollectorService()], over the database as it stands. *)
Definition init (db : list BaseCollector.PainPointData) : service :=
  {| cache_manager := CacheManager.init 800;
     _collection_stats := mkCollectionStats 0 0 0 0;
     database := db |}.

(** The legacy class methods [_collect_from_reddit(limit)],
    [_collect_from_google(limit)] and [_collect_from_naver(limit)]: a new
    service, one [collect_from_source], and the count of its result. *)
Definition legacy_collect (source_name : pystr) (limit : Z)
    (current_hour current_day : Z) (elapsed : Q) (db : list BaseCollector.PainPointData)
    : pyexc + Z :=
  match (collect_from_source source_name limit current_hour current_day elapsed
           (init db)).1 with
  | inl e => inl e
  | inr result => inr (collected_count result)
  end.

Definition _collect_from_reddit : Z → Z → Z → Q → list BaseCollector.PainPointData → pyexc + Z :=
  legacy_collect (py "reddit").

Definition _collect_from_google : Z → Z → Z → Q → list BaseCollector.PainPointData → pyexc + Z :=
  legacy_collect (py "alternative").

Definition _collect_from_naver : Z → Z → Z → Q → list BaseCollector.PainPointData → pyexc + Z :=
  legacy_collect (py "naver").

End data_collector.

End DataCollectorService.

(** * Properties *)

(** ** Ordered dictionaries *)

Section ordered_dict_facts.
Context {V : Type}.
Implicit Types (d : list (pystr * V)) (k : pystr) (v : V).

Lemma od_pop_cons_eq k v d : od_pop k ((k, v) :: d) = od_pop k d.
Proof. unfold od_pop. rewrite filter_cons_False; [done|]. cbn. by intros H. Qed.

Lemma od_pop_cons_ne k k' v d : k' ≠ k → od_pop k ((k', v) :: d) = (k', v) :: od_pop k d.
Proof. intros Hne. unfold od_pop. by rewrite filter_cons_True. Qed.

Lemma od_pop_setitem k v d : od_pop k (od_setitem k v d) = od_pop k d.
Proof.
  induction d as [|[k' v'] d IH]; cbn [od_setitem].
  - by rewrite od_pop_cons_eq.
  - case_decide as Hk.
    + subst k'. by rewrite !od_pop_cons_eq.
    + by rewrite !od_pop_cons_ne, IH.
Qed.

Lemma od_get_pop_eq k d : od_get k (od_pop k d) = None.
Proof.
  unfold od_pop. induction d as [|[k' v'] d IH]; [done|].
  rewrite filter_cons. cbn. destruct (decide (k' ≠ k)) as [Hne|Heq]; [|done].
  cbn. by rewrite decide_False.
Qed.

Lemma od_get_pop_ne k k' d : k ≠ k' → od_get k' (od_pop k d) = od_get k' d.
Proof.
  intros Hne. unfold od_pop. induction d as [|[k0 v0] d IH]; [done|].
  rewrite filter_cons. cbn. destruct (decide (k0 ≠ k)) as [H0|H0]; cbn.
  - by rewrite IH.
  - apply dec_stable in H0. subst k0. by rewrite decide_False.
Qed.

Lemma od_get_setitem_eq k v d : od_get k (od_setitem k v d) = Some v.
Proof.
  induction d as [|[k' v'] d IH]; cbn.
  - by rewrite decide_True.
  - destruct (decide (k' = k)); cbn; [by rewrite decide_True | by rewrite decide_False].
Qed.

Lemma od_get_setitem_ne k k' v d : k ≠ k' → od_get k' (od_setitem k v d) = od_get k' d.
Proof.
  intros Hne. induction d as [|[k0 v0] d IH]; cbn.
  - by rewrite decide_False.
  - destruct (decide (k0 = k)) as [->|]; cbn.
    + by rewrite !decide_False.
    + by rewrite IH.
Qed.

Lemma od_setitem_fresh k v d : od_get k d = None → od_setitem k v d = d ++ [(k, v)].
Proof.
  induction d as [|[k' v'] d IH]; cbn; [done|].
  destruct (decide (k' = k)); [done|]. intros H. by rewrite IH.
Qed.

End ordered_dict_facts.

(** ** The cache: memory bound, expiry, eviction order *)

Section cache_properties.
Import CacheManager.
Context {Data : Type}.
Variable is_str_dict_list : Data → bool.
Variable utf8_len : Data → N.

Abbreviation entry := (@CacheEntry Data).
Abbreviation partition := (list (pystr * entry)).
Implicit Types (st : partition) (m : @manager Data) (e : entry).

(** Every size estimate that [__post_init__] computes is a length. *)
Definition sizes_nonneg st : Prop := Forall (λ kv, 0 ≤ size_bytes kv.2) st.

Lemma new_entry_size_nonneg d now ttl :
  0 ≤ size_bytes (new_entry is_str_dict_list utf8_len d now ttl).
Proof. cbn. destruct (is_str_dict_list d); lia. Qed.

Lemma store_bytes_cons k e st :
  store_bytes ((k, e) :: st) = size_bytes e + store_bytes st.
Proof. reflexivity. Qed.

Lemma store_bytes_nonneg st : sizes_nonneg st → 0 ≤ store_bytes st.
Proof.
  induction 1 as [|[k e] st Hk _ IH]; [done|].
  rewrite store_bytes_cons. cbn in Hk. lia.
Qed.

Lemma get_put_cache_store ct st m :
  _get_cache_store ct (put_cache_store ct st m) = st.
Proof.
  unfold _get_cache_store, put_cache_store.
  repeat case_decide; done.
Qed.

Lemma get_cache_store_with_stats ct f m :
  _get_cache_store ct (with_stats f m) = _get_cache_store ct m.
Proof. unfold _get_cache_store. repeat case_decide; done. Qed.

Lemma budget_put_cache_store ct st m :
  partition_budget (put_cache_store ct st m) = partition_budget m.
Proof. unfold partition_budget, put_cache_store. repeat case_decide; done. Qed.

Lemma budget_with_stats f m : partition_budget (with_stats f m) = partition_budget m.
Proof. reflexivity. Qed.

(** The eviction loop drops a prefix of the partition: what is left either
    has room for the new entry or is empty. *)
Lemma evict_loop_spec budget required st :
  sizes_nonneg st →
  ∀ current, current = store_bytes st →
  ∃ evicted, st = evicted ++ (evict_loop budget required current st).1
    ∧ (evict_loop budget required current st).2 = Z.of_nat (length evicted)
    ∧ (store_bytes (evict_loop budget required current st).1 + required ≤ budget
       ∨ (evict_loop budget required current st).1 = [])
    ∧ (budget < required → (evict_loop budget required current st).1 = []).
Proof.
  induction 1 as [|[k e] st Hk Hst IH]; intros current ->.
  - exists []. cbn. case_bool_decide; cbn; repeat split; auto; lia.
  - cbn [evict_loop]. cbn in Hk. case_bool_decide as Hover.
    + destruct (IH (store_bytes ((k, e) :: st) - size_bytes e)) as (ev & Heq & Hn & Hfit & Hbig).
      { rewrite store_bytes_cons. lia. }
      destruct (evict_loop budget required _ st) as [st' n]; cbn [fst snd] in *.
      exists ((k, e) :: ev). cbn [length app]. repeat split; [by f_equal | lia | done | done].
    + exists []. cbn [fst snd length app]. repeat split; [lia|].
      intros Hbig. pose proof (store_bytes_nonneg st Hst).
      rewrite store_bytes_cons in Hover. lia.
Qed.

Lemma sizes_nonneg_setitem k e st :
  0 ≤ size_bytes e → sizes_nonneg st → sizes_nonneg (od_setitem k e st).
Proof.
  intros He. induction 1 as [|[k' e'] st Hk Hst IH]; cbn.
  - by repeat constructor.
  - case_decide; constructor; done.
Qed.

Lemma store_bytes_setitem k e st :
  sizes_nonneg st → store_bytes (od_setitem k e st) ≤ store_bytes st + size_bytes e.
Proof.
  induction 1 as [|[k' e'] st Hk Hst IH]; cbn [od_setitem].
  - rewrite store_bytes_cons. cbn. lia.
  - cbn in Hk. case_decide; rewrite !store_bytes_cons; lia.
Qed.

(** One [set], from any partition whose size estimates are lengths. *)
Lemma set_step now key d ttl ct m :
  sizes_nonneg (_get_cache_store ct m) →
  let e := new_entry is_str_dict_list utf8_len d now ttl in
  let m' := set is_str_dict_list utf8_len now key d ttl ct m in
  sizes_nonneg (_get_cache_store ct m')
  ∧ partition_budget m' = partition_budget m
  ∧ (size_bytes e ≤ partition_budget m →
     store_bytes (_get_cache_store ct m') ≤ partition_budget m)
  ∧ (partition_budget m < size_bytes e → _get_cache_store ct m' = [(key, e)]).
Proof.
  intros Hnn e m'. subst m'. unfold set, _ensure_memory_capacity. fold e.
  destruct (evict_loop_spec (partition_budget m) (size_bytes e) _ Hnn _ eq_refl)
    as (ev & Heq & _ & Hfit & Hbig).
  destruct (evict_loop _ _ _ _) as [st' n]; cbn [fst snd] in *.
  rewrite get_cache_store_with_stats, !get_put_cache_store.
  assert (Hnn' : sizes_nonneg st').
  { unfold sizes_nonneg in *. rewrite Heq in Hnn. by apply Forall_app in Hnn as [_ ?]. }
  pose proof (new_entry_size_nonneg d now ttl) as He. fold e in He.
  repeat split.
  - by apply sizes_nonneg_setitem.
  - by rewrite budget_put_cache_store, budget_with_stats, budget_put_cache_store.
  - intros Hsmall. pose proof (store_bytes_setitem key e st' Hnn').
    destruct Hfit as [Hfit | ->]; [lia|]. cbn [od_setitem]. rewrite store_bytes_cons. cbn [store_bytes foldr]. lia.
  - intros Hlarge. by rewrite (Hbig Hlarge).
Qed.

(** A sequence of [set] calls on one partition, each with its clock value,
    key, payload and time to live; the trace holds the manager after each
    call. *)
Definition set_call : Type := Z * pystr * Data * Z.

Definition apply_set (ct : pystr) (c : set_call) m : manager :=
  let '(now, key, d, ttl) := c in set is_str_dict_list utf8_len now key d ttl ct m.

Definition call_entry (c : set_call) : entry :=
  let '(now, key, d, ttl) := c in new_entry is_str_dict_list utf8_len d now ttl.

Definition call_key (c : set_call) : pystr := let '(_, key, _, _) := c in key.

Fixpoint set_trace (ct : pystr) (calls : list set_call) m : list manager :=
  match calls with
  | [] => []
  | c :: calls' => let m' := apply_set ct c m in m' :: set_trace ct calls' m'
  end.

(** C1: after each [set] of a sequence on one partition the size estimates
    of the partition's entries sum to at most the partition's budget when
    the entry just written fits the budget on its own; when it does not,
    everything else has been evicted and that entry is the only one left. *)
Theorem set_memory_bound (ct : pystr) (calls : list set_call) m :
  sizes_nonneg (_get_cache_store ct m) →
  Forall2 (λ c m',
      (size_bytes (call_entry c) ≤ partition_budget m →
       store_bytes (_get_cache_store ct m') ≤ partition_budget m)
      ∧ (partition_budget m < size_bytes (call_entry c) →
         _get_cache_store ct m' = [(call_key c, call_entry c)]))
    calls (set_trace ct calls m).
Proof.
  revert m. induction calls as [|c calls IH]; intros m Hnn; cbn [set_trace]; [constructor|].
  destruct c as [[[now key] d] ttl].
  destruct (set_step now key d ttl ct m Hnn) as (Hnn' & Hb & Hfit & Hbig).
  constructor.
  - cbn. split; done.
  - cbn [apply_set]. specialize (IH _ Hnn'). rewrite Hb in IH. exact IH.
Qed.

(** C5: a [get] on a key whose entry has [now > timestamp + ttl], the sum
    being a date, returns nothing and removes the entry from its partition,
    whatever its place in the eviction order; the other keys of the
    partition keep their entries and the read counts as a miss. *)
Theorem get_expired_removes (now_check now_touch : Z) (key ct : pystr) m e :
  od_get key (_get_cache_store ct m) = Some e →
  has_expiry_date e →
  timestamp e + ttl_hours e * HOUR < now_check →
  (get now_check now_touch key ct m).1 = None
  ∧ od_get key (_get_cache_store ct (get now_check now_touch key ct m).2) = None
  ∧ (∀ k', k' ≠ key →
       od_get k' (_get_cache_store ct (get now_check now_touch key ct m).2)
       = od_get k' (_get_cache_store ct m))
  ∧ stats (get now_check now_touch key ct m).2 = add_miss (stats m).
Proof.
  intros Hget _ Hexp. unfold get. rewrite Hget.
  unfold is_expired. rewrite bool_decide_eq_true_2 by done.
  unfold delete, od_contains. rewrite Hget. cbn [fst snd].
  rewrite get_cache_store_with_stats, get_put_cache_store.
  repeat split.
  - apply od_get_pop_eq.
  - intros k' Hne. by apply od_get_pop_ne.
  - unfold put_cache_store. repeat case_decide; done.
Qed.

(** X1: a [get] of a key whose entry has an expiry date that is not past
    returns the payload and moves the key to the end of the partition, with
    its access time and access count updated. *)
Lemma get_hit_moves_to_end (now_check now_touch : Z) (key ct : pystr) m e :
  od_get key (_get_cache_store ct m) = Some e →
  has_expiry_date e →
  now_check ≤ timestamp e + ttl_hours e * HOUR →
  (get now_check now_touch key ct m).1 = Some (data e)
  ∧ _get_cache_store ct (get now_check now_touch key ct m).2
    = od_pop key (_get_cache_store ct m) ++ [(key, touch now_touch e)].
Proof.
  intros Hget _ Hlive. unfold get. rewrite Hget.
  unfold is_expired. rewrite bool_decide_eq_false_2 by lia.
  cbn [fst snd]. split; [done|].
  rewrite get_cache_store_with_stats, get_put_cache_store.
  unfold od_move_to_end. by rewrite od_get_setitem_eq, od_pop_setitem.
Qed.

End cache_properties.

(** ** The cache: recency order

    What holds of the eviction order as long as the clock does not run
    backwards and [set] writes keys that are not cached at the time: the
    partition is ordered by [last_accessed], oldest first, so the entries
    that the loop of [_ensure_memory_capacity] evicts are the ones accessed
    longest ago. *)

Section lru_properties.
Import CacheManager.
Context {Data : Type}.
Variable is_str_dict_list : Data → bool.
Variable utf8_len : Data → N.

Implicit Types (st : list (pystr * @CacheEntry Data)) (m : @manager Data).

Definition older_first (a b : pystr * @CacheEntry Data) : Prop :=
  last_accessed a.2 ≤ last_accessed b.2.

(** Keys are unique, entries stand oldest access first, and no access is
    later than the clock value [T]. *)
Definition lru_ordered (T : Z) st : Prop :=
  NoDup st.*1
  ∧ StronglySorted older_first st
  ∧ Forall (λ kv, last_accessed kv.2 ≤ T) st.

Lemma od_get_None k st : od_get k st = None ↔ k ∉ st.*1.
Proof.
  induction st as [|[k' e'] st IH]; cbn.
  - split; [|done]. intros _. apply not_elem_of_nil.
  - rewrite not_elem_of_cons. case_decide as Hk.
    + split; [done|]. intros [Hne _]. by destruct Hne.
    + rewrite IH. split; [by split|]. by intros [_ ?].
Qed.

Lemma od_pop_keys k st : k ∉ (od_pop k st).*1.
Proof.
  rewrite list_elem_of_fmap. intros ([k' e'] & -> & Hin).
  unfold od_pop in Hin. apply list_elem_of_filter in Hin as [Hne _]. by apply Hne.
Qed.

Lemma lru_ordered_mono T T' st : T ≤ T' → lru_ordered T st → lru_ordered T' st.
Proof.
  intros HT (Hnd & Hs & Hb). repeat split; [done|done|].
  eapply Forall_impl; [exact Hb|]. cbn. intros; lia.
Qed.

Lemma lru_ordered_app_r T l1 l2 : lru_ordered T (l1 ++ l2) → lru_ordered T l2.
Proof.
  intros (Hnd & Hs & Hb). rewrite fmap_app in Hnd.
  apply NoDup_app in Hnd as (_ & _ & Hnd). apply StronglySorted_app_1_r in Hs.
  apply Forall_app in Hb as [_ Hb]. done.
Qed.

Lemma lru_ordered_pop T k st : lru_ordered T st → lru_ordered T (od_pop k st).
Proof.
  intros (Hnd & Hs & Hb). unfold od_pop. repeat split.
  - eapply sublist_NoDup; [exact Hnd|]. apply fmap_sublist, sublist_filter.
  - clear Hnd Hb. induction Hs as [|a l Hs IH Ha]; [constructor|].
    rewrite filter_cons. case_decide; [|done]. constructor; [done|].
    apply Forall_forall. intros x Hx. apply list_elem_of_filter in Hx as [_ Hx].
    by apply (proj1 (Forall_forall _ _) Ha).
  - apply Forall_forall. intros x Hx. apply list_elem_of_filter in Hx as [_ Hx].
    by apply (proj1 (Forall_forall _ _) Hb).
Qed.

Lemma lru_ordered_snoc T k e st :
  lru_ordered T st → k ∉ st.*1 → T ≤ last_accessed e →
  lru_ordered (last_accessed e) (st ++ [(k, e)]).
Proof.
  intros (Hnd & Hs & Hb) Hk HT. repeat split.
  - rewrite fmap_app. apply NoDup_app. repeat split; [done| |apply NoDup_singleton].
    intros x Hx Hx'. cbn in Hx'. apply list_elem_of_singleton in Hx'. by subst.
  - apply StronglySorted_app_2; [|done|repeat constructor].
    intros a b Ha Hb'. apply list_elem_of_singleton in Hb' as ->.
    unfold older_first. cbn. pose proof (proj1 (Forall_forall _ _) Hb a Ha). cbn in *. lia.
  - apply Forall_app. split.
    + eapply Forall_impl; [exact Hb|]. cbn. intros; lia.
    + repeat constructor. cbn. lia.
Qed.

(** X2: a [get] keeps the order: a hit moves the entry to the end with the
    latest access time, a miss or an expired entry moves nothing. *)
Lemma get_keeps_lru_order (T now_check now_touch : Z) (key ct : pystr) m :
  lru_ordered T (_get_cache_store ct m) → T ≤ now_touch →
  lru_ordered now_touch (_get_cache_store ct (get now_check now_touch key ct m).2).
Proof.
  intros Hord HT. unfold get.
  destruct (od_get key (_get_cache_store ct m)) as [e|] eqn:Hget.
  - destruct (is_expired now_check e); cbn [snd].
    + unfold delete, od_contains. rewrite Hget.
      rewrite get_cache_store_with_stats, get_put_cache_store.
      by apply (lru_ordered_mono T), lru_ordered_pop.
    + rewrite get_cache_store_with_stats, get_put_cache_store.
      unfold od_move_to_end. rewrite od_get_setitem_eq, od_pop_setitem.
      apply (lru_ordered_snoc T key (touch now_touch e)); [|apply od_pop_keys|done].
      by apply lru_ordered_pop.
  - cbn [snd]. rewrite get_cache_store_with_stats. by apply (lru_ordered_mono T).
Qed.

(** X3: a [set] of a key that is not cached evicts a prefix of the partition,
    every evicted entry having been accessed no later than every entry that
    stays, and puts the new entry at the end; the order is kept. *)
Lemma set_evicts_oldest (T now : Z) (key : pystr) (d : Data) (ttl : Z) (ct : pystr) m :
  lru_ordered T (_get_cache_store ct m) → T ≤ now →
  sizes_nonneg (_get_cache_store ct m) →
  od_get key (_get_cache_store ct m) = None →
  ∃ evicted kept,
    _get_cache_store ct m = evicted ++ kept
    ∧ _get_cache_store ct (set is_str_dict_list utf8_len now key d ttl ct m)
      = kept ++ [(key, new_entry is_str_dict_list utf8_len d now ttl)]
    ∧ (∀ a b, a ∈ evicted → b ∈ kept → last_accessed a.2 ≤ last_accessed b.2)
    ∧ lru_ordered now
        (_get_cache_store ct (set is_str_dict_list utf8_len now key d ttl ct m)).
Proof.
  intros Hord HT Hnn Hfresh. unfold set, _ensure_memory_capacity.
  destruct (evict_loop_spec (partition_budget m)
              (size_bytes (new_entry is_str_dict_list utf8_len d now ttl)) _ Hnn _ eq_refl)
    as (ev & Heq & _ & _ & _).
  destruct (evict_loop _ _ _ _) as [kept n]; cbn [fst snd] in *.
  rewrite get_cache_store_with_stats, !get_put_cache_store.
  assert (Hk : key ∉ kept.*1).
  { apply od_get_None in Hfresh. rewrite Heq, fmap_app in Hfresh.
    intros Hin. apply Hfresh, elem_of_app. by right. }
  rewrite od_setitem_fresh by by apply od_get_None.
  exists ev, kept. split; [done|]. split; [done|]. split.
  - intros a b Ha Hb. destruct Hord as (_ & Hs & _). rewrite Heq in Hs.
    by apply (StronglySorted_app_1_elem_of _ _ _ _ _ Hs).
  - rewrite Heq in Hord. apply lru_ordered_app_r in Hord.
    by apply (lru_ordered_snoc T key (new_entry is_str_dict_list utf8_len d now ttl)).
Qed.

End lru_properties.

(** ** Runs of the cache on ASCII string payloads *)

Section cache_runs.
Import CacheManager.

(** Payloads are ASCII strings: [isinstance(data, str)] holds and the UTF-8
    encoding of [str(data)] has one byte per character. *)
Definition always_sized (_ : pystr) : bool := true.
Definition ascii_len (s : pystr) : N := N.of_nat (length s).

Definition chars (n : N) (c : string) : pystr := mjoin (replicate (N.to_nat n) (py c)).

Definition general : pystr := py "general".

(** Scenario 1 of the specification: a partition budget of 100 bytes and
    three entries of 40 bytes each. *)
Definition small_manager : @manager pystr :=
  mkManager 300 [] (mkStats 0 0 0 0 0) [] [] ∅.

Definition three_sets : list (@set_call pystr) :=
  [ (1, py "A", chars 40 "a", 6); (2, py "B", chars 40 "b", 6); (3, py "C", chars 40 "c", 6) ].

Lemma set_memory_bound_witness :
  Forall2 (λ c m',
      (size_bytes (call_entry always_sized ascii_len c) ≤ partition_budget small_manager →
       store_bytes (_get_cache_store general m') ≤ partition_budget small_manager)
      ∧ (partition_budget small_manager < size_bytes (call_entry always_sized ascii_len c) →
         _get_cache_store general m'
         = [(call_key c, call_entry always_sized ascii_len c)]))
    three_sets (set_trace always_sized ascii_len general three_sets small_manager).
Proof.
  apply (set_memory_bound always_sized ascii_len general three_sets small_manager).
  constructor.
Defined.

Example scenario_three_sets :
  od_keys (_get_cache_store general
             (foldl (λ m c, apply_set always_sized ascii_len general c m)
                small_manager three_sets))
  = [py "B"; py "C"].
Proof. vm_compute. reflexivity. Qed.

(** An entry written at time 0 with one hour to live, read one microsecond
    after the hour. *)
Definition one_entry : @manager pystr :=
  set always_sized ascii_len 0 (py "A") (chars 40 "a") 1 general (init 1).

Lemma get_expired_removes_witness :
  (get (HOUR + 1) (HOUR + 2) (py "A") general one_entry).1 = None
  ∧ od_get (py "A") (_get_cache_store general
                       (get (HOUR + 1) (HOUR + 2) (py "A") general one_entry).2) = None
  ∧ (∀ k', k' ≠ py "A" →
       od_get k' (_get_cache_store general
                    (get (HOUR + 1) (HOUR + 2) (py "A") general one_entry).2)
       = od_get k' (_get_cache_store general one_entry))
  ∧ stats (get (HOUR + 1) (HOUR + 2) (py "A") general one_entry).2
    = add_miss (stats one_entry).
Proof.
  apply (get_expired_removes (HOUR + 1) (HOUR + 2) (py "A") general one_entry
           (new_entry always_sized ascii_len (chars 40 "a") 0 1)).
  - reflexivity.
  - repeat split; vm_compute; discriminate.
  - vm_compute. reflexivity.
Defined.

(** A manager built with [CacheManager(max_memory_mb=1)]: each partition
    has a budget of 349525 bytes.  Keys A and B are written, then A is
    written again while both still fit, then C is written and no longer
    fits beside them. *)
Definition overwrite_run : @manager pystr :=
  set always_sized ascii_len 3 (py "A") (chars 100000 "z") 6 general
    (set always_sized ascii_len 2 (py "B") (chars 100000 "y") 6 general
       (set always_sized ascii_len 1 (py "A") (chars 100000 "x") 6 general (init 1))).

Definition access_times (m : @manager pystr) : list (pystr * Z) :=
  (λ kv, (kv.1, last_accessed kv.2)) <$> _get_cache_store general m.

(** C3, on the run above: before the fourth write the partition holds A
    (last accessed at time 3) in front of B (last accessed at time 2); the
    write of C evicts one entry, and the entry evicted is A, the one
    accessed last, while B, the one accessed longest ago, stays. *)
Theorem set_overwrite_evicts_newest :
  partition_budget overwrite_run = 349525
  ∧ access_times overwrite_run = [(py "A", 3); (py "B", 2)]
  ∧ access_times (set always_sized ascii_len 4 (py "C") (chars 200000 "w") 6 general overwrite_run)
    = [(py "B", 2); (py "C", 4)]
  ∧ evictions (stats (set always_sized ascii_len 4 (py "C") (chars 200000 "w") 6 general
                        overwrite_run)) = 1.
Proof. vm_compute. repeat split; reflexivity. Qed.

(** The first two writes of scenario 1, then a read of A and a write of C. *)
Definition two_entries : @manager pystr :=
  set always_sized ascii_len 2 (py "B") (chars 40 "b") 6 general
    (set always_sized ascii_len 1 (py "A") (chars 40 "a") 6 general small_manager).

Lemma two_entries_ordered : lru_ordered 2 (_get_cache_store general two_entries).
Proof.
  repeat split.
  - apply (bool_decide_unpack _). vm_compute. reflexivity.
  - repeat constructor. vm_compute. discriminate.
  - repeat constructor; vm_compute; discriminate.
Qed.

Lemma get_hit_moves_to_end_witness :
  (get 5 5 (py "A") general two_entries).1 = Some (chars 40 "a")
  ∧ _get_cache_store general (get 5 5 (py "A") general two_entries).2
    = od_pop (py "A") (_get_cache_store general two_entries)
      ++ [(py "A", touch 5 (new_entry always_sized ascii_len (chars 40 "a") 1 6))].
Proof.
  apply (get_hit_moves_to_end 5 5 (py "A") general two_entries
           (new_entry always_sized ascii_len (chars 40 "a") 1 6)).
  - reflexivity.
  - repeat split; vm_compute; discriminate.
  - vm_compute. discriminate.
Defined.

Lemma get_keeps_lru_order_witness :
  lru_ordered 5 (_get_cache_store general (get 5 5 (py "A") general two_entries).2).
Proof.
  apply (get_keeps_lru_order 2 5 5 (py "A") general two_entries).
  - exact two_entries_ordered.
  - vm_compute. discriminate.
Defined.

Lemma set_evicts_oldest_witness :
  ∃ evicted kept,
    _get_cache_store general two_entries = evicted ++ kept
    ∧ _get_cache_store general
        (set always_sized ascii_len 3 (py "C") (chars 40 "c") 6 general two_entries)
      = kept ++ [(py "C", new_entry always_sized ascii_len (chars 40 "c") 3 6)]
    ∧ (∀ a b, a ∈ evicted → b ∈ kept → last_accessed a.2 ≤ last_accessed b.2)
    ∧ lru_ordered 3
        (_get_cache_store general
           (set always_sized ascii_len 3 (py "C") (chars 40 "c") 6 general two_entries)).
Proof.
  apply (set_evicts_oldest always_sized ascii_len 2 3 (py "C") (chars 40 "c") 6 general
           two_entries).
  - exact two_entries_ordered.
  - vm_compute. discriminate.
  - repeat constructor; vm_compute; discriminate.
  - reflexivity.
Defined.

(** After the read of A the write of C evicts B, not A. *)
Example read_protects_entry :
  od_keys (_get_cache_store general
             (set always_sized ascii_len 6 (py "C") (chars 40 "c") 6 general
                (get 5 5 (py "A") general two_entries).2))
  = [py "A"; py "C"].
Proof. vm_compute. reflexivity. Qed.

End cache_runs.

(** ** Slices *)

Lemma slice_last_drops_head {A} (n : Z) (x y : A) (l : list A) :
  n ≤ Z.of_nat (length l) → x ∈ slice_last n (y :: l) → x ∈ l.
Proof.
  unfold slice_last. intros Hn Hx.
  destruct (Z.to_nat (Z.of_nat (length (y :: l)) - n)) as [|k] eqn:Hk.
  - rewrite length_cons in Hk. lia.
  - cbn [drop] in Hx. eapply elem_of_sublist; [exact Hx|apply sublist_drop].
Qed.

(** ** The seen-hash set of the cache manager *)

Section dedup_properties.
Import CacheManager.
Context {Data : Type}.
Variable md5_hexdigest : pystr → pystr.
Variable set_to_list : gset pystr → list pystr.

Implicit Types (m : @manager Data).

(** One call of [is_duplicate_content], by its arguments. *)
Definition dup_call : Type := pystr * pystr * pystr.

Definition call_hash (c : dup_call) : pystr :=
  let '(title, content, source_url) := c in
  generate_content_hash md5_hexdigest title content source_url.

Definition check (c : dup_call) m : bool * manager :=
  let '(title, content, source_url) := c in
  is_duplicate_content md5_hexdigest set_to_list title content source_url m.

(** The call reaches the pruning branch: its hash is new and the set, with
    it, holds more than 10000 hashes. *)
Definition prunes (c : dup_call) m : Prop :=
  (call_hash c ∉ processed_content_hashes m)
  ∧ 10000 < Z.of_nat (size ({[call_hash c]} ∪ processed_content_hashes m)).

(** No call of the sequence, run from [m], reaches the pruning branch. *)
Fixpoint no_pruning (calls : list dup_call) m : Prop :=
  match calls with
  | [] => True
  | c :: calls' => ¬ prunes c m ∧ no_pruning calls' (check c m).2
  end.

Definition run_checks (calls : list dup_call) m : manager :=
  foldl (λ m c, (check c m).2) m calls.

Lemma check_seen c m :
  call_hash c ∈ processed_content_hashes m →
  check c m = (true, with_stats add_duplicate_block m).
Proof.
  destruct c as [[title content] source_url]. cbn. intros Hin.
  unfold is_duplicate_content. by rewrite decide_True.
Qed.

Lemma check_new c m :
  call_hash c ∉ processed_content_hashes m →
  ¬ prunes c m →
  check c m = (false, with_hashes ({[call_hash c]} ∪ processed_content_hashes m) m).
Proof.
  destruct c as [[title content] source_url]. unfold prunes. cbn. intros Hnin Hnp.
  unfold is_duplicate_content. rewrite decide_False by done.
  rewrite bool_decide_eq_false_2; [done|]. intros Hbig. apply Hnp. by split.
Qed.

(** Outside the pruning branch a call removes no hash. *)
Lemma check_keeps_hashes c m :
  ¬ prunes c m → processed_content_hashes m ⊆ processed_content_hashes (check c m).2.
Proof.
  intros Hnp. destruct (decide (call_hash c ∈ processed_content_hashes m)) as [Hin|Hnin].
  - by rewrite check_seen.
  - rewrite check_new by done. cbn. set_solver.
Qed.

Lemma run_checks_keeps_hashes calls m :
  no_pruning calls m →
  processed_content_hashes m ⊆ processed_content_hashes (run_checks calls m).
Proof.
  revert m. induction calls as [|c calls IH]; intros m; cbn; [done|].
  intros [Hnp Hrest]. etrans; [by apply check_keeps_hashes|]. by apply IH.
Qed.


Hypothesis set_to_list_perm : ∀ s, set_to_list s ≡ₚ elements s.

Lemma set_to_list_length s : length (set_to_list s) = size s.
Proof. by rewrite set_to_list_perm. Qed.

Lemma set_to_list_NoDup s : NoDup (set_to_list s).
Proof. rewrite set_to_list_perm. apply NoDup_elements. Qed.

(** The pruning branch: the seen-set becomes the last 7500 hashes of one
    enumeration of the set, the new hash included in the enumeration. *)
Lemma check_prunes c m :
  call_hash c ∉ processed_content_hashes m →
  10000 ≤ Z.of_nat (size (processed_content_hashes m)) →
  (check c m).1 = false
  ∧ processed_content_hashes (check c m).2
    = list_to_set (slice_last 7500 (set_to_list ({[call_hash c]} ∪ processed_content_hashes m)))
  ∧ Z.of_nat (size (processed_content_hashes (check c m).2)) = 7500
  ∧ processed_content_hashes (check c m).2 ⊆ {[call_hash c]} ∪ processed_content_hashes m.
Proof.
  intros Hnin Hfull.
  assert (Hsize : size ({[call_hash c]} ∪ processed_content_hashes m)
                  = S (size (processed_content_hashes m))).
  { rewrite size_union by set_solver. by rewrite size_singleton. }
  destruct c as [[title content] source_url]. cbn in *.
  unfold is_duplicate_content. rewrite decide_False by done.
  rewrite bool_decide_eq_true_2 by lia. cbn.
  split; [done|]. split; [done|]. split.
  - rewrite size_list_to_set.
    + unfold slice_last. rewrite length_drop, set_to_list_length. lia.
    + unfold slice_last. eapply sublist_NoDup; [apply set_to_list_NoDup|apply sublist_drop].
  - intros x Hx. apply elem_of_list_to_set in Hx.
    unfold slice_last in Hx. apply list_elem_of_lookup in Hx as [i Hi].
    rewrite lookup_drop in Hi. apply list_elem_of_lookup_2 in Hi.
    rewrite set_to_list_perm in Hi. by apply elem_of_elements in Hi.
Qed.

(** X4: a call with a new hash on a seen-set of 10000 hashes or more is
    not a duplicate, and leaves exactly 7500 hashes, all of them among the
    old ones and the new one. *)
Theorem pruning_keeps_7500 c m :
  call_hash c ∉ processed_content_hashes m →
  10000 ≤ Z.of_nat (size (processed_content_hashes m)) →
  (check c m).1 = false
  ∧ Z.of_nat (size (processed_content_hashes (check c m).2)) = 7500
  ∧ processed_content_hashes (check c m).2 ⊆ {[call_hash c]} ∪ processed_content_hashes m.
Proof.
  intros Hnin Hfull. by destruct (check_prunes c m Hnin Hfull) as (? & _ & ? & ?).
Qed.

(** When the enumeration starts with the hash just inserted, pruning drops
    that hash. *)
Lemma check_prunes_drops_first c m rest :
  call_hash c ∉ processed_content_hashes m →
  10000 ≤ Z.of_nat (size (processed_content_hashes m)) →
  set_to_list ({[call_hash c]} ∪ processed_content_hashes m) = call_hash c :: rest →
  call_hash c ∉ processed_content_hashes (check c m).2.
Proof.
  intros Hnin Hfull Hfirst.
  destruct (check_prunes c m Hnin Hfull) as (_ & -> & _ & _).
  rewrite elem_of_list_to_set, Hfirst. intros Hin.
  pose proof (set_to_list_NoDup ({[call_hash c]} ∪ processed_content_hashes m)) as Hnd.
  pose proof (set_to_list_length ({[call_hash c]} ∪ processed_content_hashes m)) as Hlen.
  rewrite Hfirst in Hnd, Hlen. rewrite length_cons in Hlen.
  rewrite size_union, size_singleton in Hlen by set_solver.
  apply NoDup_cons in Hnd as [Hhead _]. apply Hhead.
  apply (slice_last_drops_head 7500 _ (call_hash c)); [lia|done].
Qed.

End dedup_properties.

(** ** Runs of the duplicate check *)

Section dedup_runs.
Import CacheManager.

(** A digest that collides on nothing, standing for [md5] in the runs. *)
Definition plain_digest (s : pystr) : pystr := s.

(** Scenario 2 of the specification, on a new manager, with another call in
    between. *)
Definition xyz : dup_call := (py "X", py "Y", py "Z").



(** A seen-set at its cap: the 10000 one-character strings of the code
    points 1 to 10000; and a call whose hash is the one-character string of
    code point 0. *)
Definition old_hashes : list pystr := (λ i, [N.of_nat i]) <$> seq 1 (Z.to_nat 10000).

Definition full_manager : @manager pystr :=
  with_hashes (list_to_set old_hashes) (init 800).

Definition newest : dup_call := ([0%N], [], []).

(** An enumeration of a set of strings that starts with the hash of
    [newest] when the set holds it. *)
Definition newest_first (s : gset pystr) : list pystr :=
  if decide ([0%N] ∈ s) then [0%N] :: elements (s ∖ {[ [0%N] ]}) else elements s.

Lemma newest_first_perm s : newest_first s ≡ₚ elements s.
Proof.
  unfold newest_first. case_decide as Hin; [|done].
  rewrite <- elements_union_singleton.
  - by rewrite <- (union_difference_singleton_L _ _ Hin).
  - rewrite elem_of_difference, elem_of_singleton. tauto.
Qed.

Lemma old_hashes_NoDup : NoDup old_hashes.
Proof.
  unfold old_hashes. apply NoDup_fmap_2; [|apply NoDup_seq].
  intros i j Hij. injection Hij as Hij. by apply Nat2N.inj.
Qed.

Lemma old_hashes_size :
  Z.of_nat (size (processed_content_hashes full_manager)) = 10000.
Proof.
  change (processed_content_hashes full_manager) with (list_to_set old_hashes : gset pystr).
  rewrite size_list_to_set by apply old_hashes_NoDup.
  unfold old_hashes. rewrite length_fmap, length_seq. lia.
Qed.

Lemma newest_not_seen :
  call_hash plain_digest newest ∉ processed_content_hashes full_manager.
Proof.
  change (processed_content_hashes full_manager) with (list_to_set old_hashes : gset pystr).
  change (call_hash plain_digest newest) with [0%N].
  rewrite elem_of_list_to_set. unfold old_hashes. rewrite list_elem_of_fmap.
  intros (i & Heq & Hi). apply elem_of_seq in Hi. injection Heq as Heq. lia.
Qed.

Lemma check_unseen_false md5 order (c : dup_call) (m : @manager pystr) :
  call_hash md5 c ∉ processed_content_hashes m → (check md5 order c m).1 = false.
Proof.
  destruct c as [[title content] source_url]. cbn. intros Hnin.
  unfold is_duplicate_content. by rewrite decide_False.
Qed.

(** With that enumeration, a call of [newest] that prunes loses its own
    hash, whatever the 10000 or more hashes seen before. *)
Lemma newest_first_drops_newest (m : @manager pystr) :
  call_hash plain_digest newest ∉ processed_content_hashes m →
  10000 ≤ Z.of_nat (size (processed_content_hashes m)) →
  (check plain_digest newest_first newest m).1 = false
  ∧ Z.of_nat (size (processed_content_hashes
                      (check plain_digest newest_first newest m).2)) = 7500
  ∧ (call_hash plain_digest newest
     ∉ processed_content_hashes (check plain_digest newest_first newest m).2)
  ∧ (check plain_digest newest_first newest
       (check plain_digest newest_first newest m).2).1 = false.
Proof.
  intros Hnin Hfull.
  destruct (check_prunes plain_digest newest_first newest_first_perm newest m Hnin Hfull)
    as (Hres & _ & Hsize & _).
  assert (Hgone : call_hash plain_digest newest
            ∉ processed_content_hashes (check plain_digest newest_first newest m).2).
  { eapply (check_prunes_drops_first plain_digest newest_first newest_first_perm);
      [done|done|].
    change (call_hash plain_digest newest) with [0%N].
    unfold newest_first. rewrite decide_True by set_solver. reflexivity. }
  repeat split; [done|done|done|].
  by apply check_unseen_false.
Qed.

Lemma pruning_keeps_7500_witness :
  (check plain_digest newest_first newest full_manager).1 = false
  ∧ Z.of_nat (size (processed_content_hashes
                      (check plain_digest newest_first newest full_manager).2)) = 7500
  ∧ processed_content_hashes (check plain_digest newest_first newest full_manager).2
    ⊆ {[call_hash plain_digest newest]} ∪ processed_content_hashes full_manager.
Proof.
  apply (pruning_keeps_7500 plain_digest newest_first newest_first_perm newest full_manager).
  - exact newest_not_seen.
  - rewrite old_hashes_size. lia.
Defined.

(** C6, on the manager above: for an enumeration order of the set that is
    not the order of insertion, the call that takes the seen-set past 10000
    hashes keeps 7500 of them and drops the hash it has just inserted, so
    the same call made again is not recognised as a duplicate. *)
Theorem prune_drops_newest_hash :
  ∃ set_to_list : gset pystr → list pystr,
    (∀ s, set_to_list s ≡ₚ elements s)
    ∧ Z.of_nat (size (processed_content_hashes full_manager)) = 10000
    ∧ (check plain_digest set_to_list newest full_manager).1 = false
    ∧ Z.of_nat (size (processed_content_hashes
                        (check plain_digest set_to_list newest full_manager).2)) = 7500
    ∧ (call_hash plain_digest newest
       ∉ processed_content_hashes (check plain_digest set_to_list newest full_manager).2)
    ∧ (check plain_digest set_to_list newest
         (check plain_digest set_to_list newest full_manager).2).1 = false.
Proof.
  exists newest_first. split; [apply newest_first_perm|].
  split; [apply old_hashes_size|].
  apply newest_first_drops_newest; [apply newest_not_seen|].
  rewrite old_hashes_size. lia.
Qed.

End dedup_runs.

(** ** Candidate records: quality score and content hash *)

Section record_properties.
Import BaseCollector.

Lemma len_over_mono {A B} (l1 : list A) (l2 : list B) (d : Z) :
  (length l1 ≤ length l2)%nat → 0 < d →
  (inject_Z (Z.of_nat (length l1)) / inject_Z d
   <= inject_Z (Z.of_nat (length l2)) / inject_Z d)%Q.
Proof.
  intros Hlen Hd. unfold Qdiv. apply Qmult_le_compat_r.
  - rewrite <- Zle_Qle. lia.
  - apply Qinv_le_0_compat. change 0%Q with (inject_Z 0). rewrite <- Zle_Qle. lia.
Qed.

(** C8: the quality score does not decrease when the title gets longer, the
    content gets longer, the keyword list gets longer or the confidence
    grows; raising one of the four with the others unchanged is the case
    where three of the hypotheses hold with equality. *)
Theorem quality_score_monotone (p q : PainPointData) :
  (length (title p) ≤ length (title q))%nat →
  (length (content p) ≤ length (content q))%nat →
  (length (keywords p) ≤ length (keywords q))%nat →
  (confidence p <= confidence q)%Q →
  (quality_score p <= quality_score q)%Q.
Proof.
  intros Ht Hc Hk Hconf. unfold quality_score, len_over.
  pose proof (Q.min_le_compat_r _ _ 1%Q (len_over_mono (title p) (title q) 50 Ht eq_refl)).
  pose proof (Q.min_le_compat_r _ _ 1%Q (len_over_mono (content p) (content q) 200 Hc eq_refl)).
  pose proof (Q.min_le_compat_r _ _ 1%Q (len_over_mono (keywords p) (keywords q) 5 Hk eq_refl)).
  lra.
Qed.

Section hashes.
Variable md5_hexdigest : pystr → pystr.

Lemma content_string_body (t b1 b2 u : pystr) :
  CacheManager.content_string t b1 u = CacheManager.content_string t b2 u
  ↔ take 200 b1 = take 200 b2.
Proof.
  unfold CacheManager.content_string. split.
  - intros H. apply app_inv_head in H. by apply app_inv_tail in H.
  - by intros ->.
Qed.

(** C7, as the code has it: the cache manager hashes the first 100
    characters of the title, the first 200 characters of the body and the URL,
    so that two inputs with one title and one URL are hashed from the same
    string exactly when their bodies agree on the first 200 characters, and
    get one digest otherwise only if [md5] collides; the hash of a record
    itself is taken from the first 100 characters of the title, the source
    name and the URL, and is the same for records that differ in the body
    alone. *)
Theorem content_hash_inputs :
  (∀ t b u, CacheManager.generate_content_hash md5_hexdigest t b u
            = md5_hexdigest (take 100 t ++ take 200 b ++ u))
  ∧ (∀ t b1 b2 u,
       CacheManager.content_string t b1 u = CacheManager.content_string t b2 u
       ↔ take 200 b1 = take 200 b2)
  ∧ (∀ t b1 b2 u,
       CacheManager.generate_content_hash md5_hexdigest t b1 u
       = CacheManager.generate_content_hash md5_hexdigest t b2 u →
       take 200 b1 = take 200 b2
       ∨ (CacheManager.content_string t b1 u ≠ CacheManager.content_string t b2 u
          ∧ md5_hexdigest (CacheManager.content_string t b1 u)
            = md5_hexdigest (CacheManager.content_string t b2 u)))
  ∧ (∀ p q : PainPointData,
       content_hash md5_hexdigest p
       = md5_hexdigest (take 100 (title p) ++ source p ++ source_url p)
       ∧ (take 100 (title p) = take 100 (title q) → source p = source q →
          source_url p = source_url q →
          content_hash md5_hexdigest p = content_hash md5_hexdigest q)).
Proof.
  split; [done|]. split; [apply content_string_body|]. split.
  - intros t b1 b2 u Heq.
    destruct (decide (take 200 b1 = take 200 b2)) as [|Hne]; [by left|right].
    split; [|done]. by rewrite content_string_body.
  - intros p q. split; [done|]. unfold content_hash. by intros -> -> ->.
Qed.

End hashes.

(** Two records that differ in the body alone, within its first 200
    characters. *)
Definition slow_app : PainPointData :=
  {| title := py "the app is slow"; content := py "pages take a minute to load";
     source := py "reddit-main"; source_url := py "https://example.org/1";
     sentiment_score := 0; trend_score := 1 # 2; keywords := [py "app"; py "slow"];
     category := py "technology"; confidence := 1 # 2; timestamp := 0 |}.

Definition slow_app' : PainPointData :=
  {| title := py "the app is slow"; content := py "search never returns a result";
     source := py "reddit-main"; source_url := py "https://example.org/1";
     sentiment_score := 0; trend_score := 1 # 2; keywords := [py "app"; py "slow"];
     category := py "technology"; confidence := 1 # 2; timestamp := 0 |}.

(** C7 as stated fails for the hash of a record: the two records above have
    different bodies and, whatever [md5] is, the same content hash. *)
Lemma content_hash_ignores_body :
  title slow_app = title slow_app'
  ∧ source_url slow_app = source_url slow_app'
  ∧ take 200 (content slow_app) ≠ take 200 (content slow_app')
  ∧ ∀ md5_hexdigest : pystr → pystr,
      content_hash md5_hexdigest slow_app = content_hash md5_hexdigest slow_app'.
Proof.
  split; [done|]. split; [done|]. split; [|done].
  vm_compute. discriminate.
Qed.

(** Scenario 4 of the specification: title of 60 characters, body of 300,
    4 keywords, and confidence 0.3 against 0.8. *)
Definition scenario_record (conf : Q) : PainPointData :=
  {| title := mjoin (replicate 60 (py "t")); content := mjoin (replicate 300 (py "c"));
     source := py "reddit-main"; source_url := [];
     sentiment_score := 0; trend_score := 1 # 2;
     keywords := [py "one"; py "two"; py "three"; py "four"];
     category := py "general"; confidence := conf; timestamp := 0 |}.

Lemma quality_score_monotone_witness :
  (quality_score (scenario_record (3 # 10)) <= quality_score (scenario_record (8 # 10)))%Q.
Proof.
  apply (quality_score_monotone (scenario_record (3 # 10)) (scenario_record (8 # 10))).
  - reflexivity.
  - reflexivity.
  - reflexivity.
  - vm_compute. discriminate.
Defined.

Example scenario_scores :
  (quality_score (scenario_record (3 # 10)) == 89 # 100)%Q
  ∧ (quality_score (scenario_record (8 # 10)) == 94 # 100)%Q.
Proof. split; vm_compute; reflexivity. Qed.

End record_properties.

(** ** The collector: inclusion check and retries *)

Section collector_properties.
Import BaseCollector.
Variable md5_hexdigest : pystr → pystr.
Variable str_lower : pystr → pystr.
Context {RawItem : Type}.
Variable _collect_raw_data : list event → pystr → Z → fetch_outcome RawItem.
Variable _process_raw_item : RawItem → option PainPointData.

Implicit Types (p : PainPointData) (c : collector).

Abbreviation hash_of := (content_hash md5_hexdigest).
Abbreviation include := (_should_include md5_hexdigest str_lower).
Abbreviation pain_text p := (title p ++ py " " ++ content p).

(** The record is turned away by the quality threshold, its float score
    being below the float of the threshold, or by the pain-content
    heuristic. *)
Definition fails_quality p c : Prop :=
  (quality_score_float p < binary64 (min_quality_score (config c)))%Q
  ∨ _is_pain_point_content str_lower (pain_text p) = false.

Lemma include_rejected_quality p c :
  hash_of p ∉ _seen_hashes c → fails_quality p c →
  include p c = (false, with_stats add_quality_filtered c).
Proof.
  intros Hnew Hq. unfold _should_include. rewrite decide_False by done.
  destruct (Qlt_le_dec _ _) as [|Hge]; [done|].
  destruct Hq as [Hlt|Hpain].
  - exfalso. by apply (Qlt_not_le _ _ Hlt).
  - by rewrite Hpain.
Qed.

Lemma include_accepted p c :
  hash_of p ∉ _seen_hashes c → ¬ fails_quality p c →
  include p c = (true, with_seen ({[hash_of p]} ∪ _seen_hashes c) c).
Proof.
  intros Hnew Hq. unfold _should_include. rewrite decide_False by done.
  destruct (Qlt_le_dec _ _) as [Hlt|Hge].
  - exfalso. apply Hq. by left.
  - destruct (_is_pain_point_content _ _) eqn:Hpain; [done|].
    exfalso. apply Hq. by right.
Qed.

(** C10: a record that is no duplicate and is turned away by the quality
    threshold or the pain-content heuristic leaves the collector as it was
    but for the [quality_filtered] counter, so its hash is still unseen and
    the same record passes the inclusion check of any later state with these
    seen hashes in which it is not turned away.  In general the seen hashes
    change only when the check answers true, and then by the hash of that
    record alone. *)
Theorem rejected_record_leaves_seen_hashes p c :
  hash_of p ∉ _seen_hashes c →
  fails_quality p c →
  include p c = (false, with_stats add_quality_filtered c)
  ∧ _seen_hashes (include p c).2 = _seen_hashes c
  ∧ (hash_of p ∉ _seen_hashes (include p c).2)
  ∧ (∀ c', _seen_hashes c' = _seen_hashes (include p c).2 →
           ¬ fails_quality p c' → (include p c').1 = true)
  ∧ (∀ p' c', (include p' c').1 = false → _seen_hashes (include p' c').2 = _seen_hashes c')
  ∧ (∀ p' c', (include p' c').1 = true →
              _seen_hashes (include p' c').2 = {[hash_of p']} ∪ _seen_hashes c').
Proof.
  intros Hnew Hq. rewrite include_rejected_quality by done. cbn.
  repeat split; [done| | |].
  - intros c' Hseen Hok. rewrite include_accepted; [done| |done]. by rewrite Hseen.
  - intros p' c'. unfold _should_include.
    repeat (case_decide || destruct (Qlt_le_dec _ _) || destruct (negb _)); cbn; done.
  - intros p' c'. unfold _should_include.
    repeat (case_decide || destruct (Qlt_le_dec _ _) || destruct (negb _)); cbn; done.
Qed.

(** Every attempt of the query fails: whatever the collector did before,
    the adapter times out or raises. *)
Definition always_fails (query : pystr) (limit : Z) : Prop :=
  ∀ tr, ∀ raw_data, _collect_raw_data tr query limit ≠ FetchOk raw_data.

Abbreviation loop := (attempt_loop md5_hexdigest str_lower _collect_raw_data _process_raw_item).

(** The statistics other than [errors]. *)
Definition counters (s : Stats) : Z * Z * Z * Z * Z :=
  (total_processed s, duplicates_filtered s, quality_filtered s, api_calls s, cache_hits s).

Lemma attempts_made_app (tr1 tr2 : list event) :
  attempts_made (tr1 ++ tr2) = (attempts_made tr1 + attempts_made tr2)%nat.
Proof. unfold attempts_made. by rewrite List.filter_app, length_app. Qed.

Lemma attempt_loop_fails (query : pystr) (limit : Z) (attempts : list Z) :
  always_fails query limit →
  ∀ c, ∃ msgs,
    (loop attempts query limit c).1 = []
    ∧ errors (_stats (loop attempts query limit c).2) = errors (_stats c) ++ msgs
    ∧ length msgs
      = length (filter (λ attempt, attempt = retry_attempts (config c) - 1) attempts)
    ∧ attempts_made (trace (loop attempts query limit c).2)
      = (attempts_made (trace c) + length attempts)%nat
    ∧ config (loop attempts query limit c).2 = config c
    ∧ _seen_hashes (loop attempts query limit c).2 = _seen_hashes c
    ∧ counters (_stats (loop attempts query limit c).2) = counters (_stats c).
Proof.
  intros Hfail. induction attempts as [|attempt rest IH]; intros c.
  - exists []. cbn. by rewrite app_nil_r.
  - cbn [attempt_loop]. rewrite filter_cons.
    pose proof (Hfail (trace c)) as Hout.
    destruct (_collect_raw_data (trace c) query limit) as [raw| |msg];
      [by destruct (Hout raw)| |];
      cbn [config emit]; case_decide as Hlast;
      match goal with
      | |- context [loop rest query limit ?c1] =>
          destruct (IH c1) as (msgs & Hr & He & Hl & Ha & Hc & Hs & Hn)
      end.
    + exists ((py "Timeout for query: " ++ query) :: msgs).
      rewrite Hr, He, Ha, Hc, Hs, Hn. cbn -[py attempts_made].
      rewrite Hl, !attempts_made_app. cbn -[py attempts_made].
      rewrite <- app_assoc. repeat split; try done; cbn; lia.
    + exists msgs. rewrite Hr, He, Ha, Hc, Hs, Hn. cbn -[py attempts_made].
      rewrite Hl, !attempts_made_app. cbn -[py attempts_made].
      repeat split; try done; cbn; lia.
    + exists ((py "Failed query " ++ query ++ py ": " ++ msg) :: msgs).
      rewrite Hr, He, Ha, Hc, Hs, Hn. cbn -[py attempts_made].
      rewrite Hl, !attempts_made_app. cbn -[py attempts_made].
      rewrite <- app_assoc. repeat split; try done; cbn; lia.
    + exists msgs. rewrite Hr, He, Ha, Hc, Hs, Hn. cbn -[py attempts_made].
      rewrite Hl, !attempts_made_app. cbn -[py attempts_made].
      repeat split; try done; cbn; lia.
Qed.

Lemma py_range_length (n : Z) : length (py_range n) = Z.to_nat n.
Proof. unfold py_range. by rewrite length_fmap, length_seq. Qed.

Lemma range_below (k : nat) (x : Z) :
  Z.of_nat k ≤ x → filter (λ attempt, attempt = x) (Z.of_nat <$> seq 0 k) = [].
Proof.
  induction k as [|k IH]; intros Hx; [done|].
  rewrite seq_S, fmap_app, filter_app, IH by lia.
  cbn [fmap list_fmap app]. rewrite filter_cons, decide_False by lia. done.
Qed.

(** [range(n)] reaches [n - 1] once, at its end. *)
Lemma py_range_last_once (n : Z) :
  1 ≤ n → length (filter (λ attempt, attempt = n - 1) (py_range n)) = 1%nat.
Proof.
  intros Hn. unfold py_range.
  destruct (Z.to_nat n) as [|k] eqn:Hk; [lia|].
  rewrite seq_S, fmap_app, filter_app, range_below by lia.
  cbn [fmap list_fmap app]. rewrite filter_cons, decide_True by lia. done.
Qed.


End collector_properties.

(** ** Runs of the collector *)

Section collector_runs.
Import BaseCollector.

(** An adapter that times out on every call, and a collector configured
    with [retry_attempts=2]. *)
Definition timing_out (_ : list event) (_ : pystr) (_ : Z) : fetch_outcome unit :=
  FetchTimeout.

Definition no_item (_ : unit) : option PainPointData := None.

Definition lower_case_text (s : pystr) : pystr := s.

Definition two_retries : collector :=
  init (mkConfig 5 30 2 6 5000 (3 # 10) 1 true).

Definition failing_run : list PainPointData * collector :=
  _collect_single_query plain_digest lower_case_text timing_out no_item
    (py "slow app") 10 two_retries.



(** A record too thin for the default threshold of 0.3: its score is
    0.074. *)
Definition thin_record : PainPointData :=
  {| title := py "slow"; content := []; source := py "reddit-main";
     source_url := py "https://example.org/2"; sentiment_score := 0;
     trend_score := 1 # 2; keywords := []; category := py "general";
     confidence := 1 # 2; timestamp := 0 |}.

Definition new_collector : collector := init default_config.

Lemma rejected_record_leaves_seen_hashes_witness :
  _should_include plain_digest lower_case_text thin_record new_collector
  = (false, with_stats add_quality_filtered new_collector)
  ∧ _seen_hashes (_should_include plain_digest lower_case_text thin_record new_collector).2
    = _seen_hashes new_collector
  ∧ (content_hash plain_digest thin_record
     ∉ _seen_hashes (_should_include plain_digest lower_case_text thin_record new_collector).2)
  ∧ (∀ c', _seen_hashes c'
           = _seen_hashes (_should_include plain_digest lower_case_text thin_record
                             new_collector).2 →
           ¬ fails_quality lower_case_text thin_record c' →
           (_should_include plain_digest lower_case_text thin_record c').1 = true)
  ∧ (∀ p' c', (_should_include plain_digest lower_case_text p' c').1 = false →
              _seen_hashes (_should_include plain_digest lower_case_text p' c').2
              = _seen_hashes c')
  ∧ (∀ p' c', (_should_include plain_digest lower_case_text p' c').1 = true →
              _seen_hashes (_should_include plain_digest lower_case_text p' c').2
              = {[content_hash plain_digest p']} ∪ _seen_hashes c').
Proof.
  apply (rejected_record_leaves_seen_hashes plain_digest lower_case_text
           thin_record new_collector).
  - apply not_elem_of_empty.
  - left. vm_compute. reflexivity.
Defined.

Example thin_record_score : (quality_score thin_record == 74 # 1000)%Q.
Proof. vm_compute. reflexivity. Qed.

(** A record with full marks: 50 characters of title, 200 of content,
    five keywords and full confidence. *)
Definition full_marks : PainPointData :=
  {| title := mjoin (replicate 50 (py "t")); content := mjoin (replicate 200 (py "c"));
     source := py "reddit-main"; source_url := py "https://example.org/4";
     sentiment_score := 0; trend_score := 1 # 2;
     keywords := [py "one"; py "two"; py "three"; py "four"; py "five"];
     category := py "general"; confidence := 1; timestamp := 0 |}.

(** The floats of the literals and of some scores: [0.3] and [0.1] are
    not the tenths, the score of [thin_record] is 0.07400000000000001, and
    the score of [full_marks] is 0.9999999999999999. *)
Example float_values :
  binary64 (3 # 10) = (5404319552844595 # 18014398509481984)%Q
  ∧ binary64 (1 # 10) = (3602879701896397 # 36028797018963968)%Q
  ∧ binary64 (1 # 2) = (1 # 2)%Q
  ∧ quality_score_float thin_record = (1333065489701667 # 18014398509481984)%Q
  ∧ quality_score_float full_marks = (9007199254740991 # 9007199254740992)%Q.
Proof. vm_compute. repeat split; reflexivity. Qed.

(** A record on the threshold: 41 characters of title, 7 of content, one
    keyword and no confidence weigh 0.3 exactly, but the float sum is
    0.29999999999999993, so the default threshold of 0.3 turns it away. *)
Definition threshold_record : PainPointData :=
  {| title := mjoin (replicate 41 (py "t")); content := mjoin (replicate 7 (py "c"));
     source := py "reddit-main"; source_url := py "https://example.org/3";
     sentiment_score := 0; trend_score := 1 # 2; keywords := [py "slow"];
     category := py "general"; confidence := 0; timestamp := 0 |}.

Example threshold_record_rejected :
  (quality_score threshold_record == 3 # 10)%Q
  ∧ quality_score_float threshold_record = (2702159776422297 # 9007199254740992)%Q
  ∧ _should_include plain_digest lower_case_text threshold_record new_collector
    = (false, with_stats add_quality_filtered new_collector).
Proof. vm_compute. repeat split; reflexivity. Qed.

(** The whole trace of that run: two adapter calls, each followed by its
    backoff sleep of [1.0 * 2 ** attempt] seconds. *)
Example failing_run_trace :
  trace failing_run.2
  = [ EvFetch (py "slow app") 10; EvSleep (1 * inject_Z 1)%Q;
      EvFetch (py "slow app") 10; EvSleep (1 * inject_Z 2)%Q ].
Proof. reflexivity. Qed.

End collector_runs.

(** ** The service: aggregate result *)

Section service_properties.
Import DataCollectorService.
Context {Data : Type}.
Variable md5_hexdigest : pystr → pystr.
Variable set_to_list : gset pystr → list pystr.
Variable collect : pystr → list pystr → Z → collect_outcome.
Variable create_pain_point :
  list BaseCollector.PainPointData → BaseCollector.PainPointData →
  option (list BaseCollector.PainPointData).

Implicit Types (s : @service Data) (r : CollectionResult).

(** C9, on the code: [collect_all_sources] never gets to its aggregate.  Its
    first statement reads the global name [time], which the module does not
    bind, so every call raises [NameError] and leaves the service as it
    was. *)
Theorem collect_all_sources_raises (limit_per_source current_hour current_day now : Z)
    (elapsed : Q) s :
  collect_all_sources md5_hexdigest set_to_list collect create_pain_point
    limit_per_source current_hour current_day now elapsed s
  = (inl (NameError "time"), s).
Proof. reflexivity. Qed.

Lemma true_div_mono (a b t : Z) : 0 < t → a ≤ b → (true_div a t <= true_div b t)%Q.
Proof.
  intros Ht Hab. unfold true_div, Qdiv. apply Qmult_le_compat_r.
  - by rewrite <- Zle_Qle.
  - apply Qinv_le_0_compat. change 0%Q with (inject_Z 0). rewrite <- Zle_Qle. lia.
Qed.

(** X5: of two results over the same number of processed records, the one
    with no fewer collected records and no fewer cache hits has no lower
    success rate and no lower efficiency score. *)
Theorem efficiency_score_monotone r r' :
  0 ≤ total_processed r →
  total_processed r' = total_processed r →
  collected_count r ≤ collected_count r' →
  cache_hits r ≤ cache_hits r' →
  (success_rate r <= success_rate r')%Q ∧ (efficiency_score r <= efficiency_score r')%Q.
Proof.
  intros Ht Hsame Hc Hh.
  assert (Hrate : (success_rate r <= success_rate r')%Q).
  { unfold success_rate. rewrite Hsame. case_decide as Hz; [apply Qle_refl|].
    apply Qmult_le_compat_r; [|done]. apply true_div_mono; [lia|done]. }
  split; [done|]. unfold efficiency_score. rewrite Hsame.
  apply Q.min_le_compat_r.
  assert (Hbonus : (Qmin (true_div (cache_hits r) (Z.max (total_processed r) 1)) (1 # 2)
                    <= Qmin (true_div (cache_hits r') (Z.max (total_processed r) 1)) (1 # 2))%Q).
  { apply Q.min_le_compat_r. apply true_div_mono; [lia|done]. }
  revert Hrate Hbonus. generalize (success_rate r) (success_rate r').
  generalize (Qmin (true_div (cache_hits r) (Z.max (total_processed r) 1)) (1 # 2)).
  generalize (Qmin (true_div (cache_hits r') (Z.max (total_processed r) 1)) (1 # 2)).
  intros b' b s0 s1 Hrate Hbonus. unfold Qdiv. change (/ 100)%Q with (1 # 100)%Q. lra.
Qed.

Lemma sum_Z_snoc {A} (f : A → Z) (l : list A) (x : A) :
  sum_Z (f <$> (l ++ [x])) = sum_Z (f <$> l) + f x.
Proof.
  unfold sum_Z. induction l as [|y l IH]; cbn in *; [lia|]. rewrite IH. lia.
Qed.

(** The storing loop counts at most one record per pain point. *)
Lemma store_loop_count (pain_points : list BaseCollector.PainPointData) :
  ∀ stored_count s,
    stored_count
    ≤ (store_loop md5_hexdigest set_to_list create_pain_point pain_points stored_count s).1
    ≤ stored_count + Z.of_nat (length pain_points).
Proof.
  induction pain_points as [|p rest IH]; intros n s; cbn [store_loop length]; [cbn; lia|].
  destruct (CacheManager.is_duplicate_content _ _ _ _ _ _) as [dup cm].
  cbn [database _collection_stats cache_manager].
  destruct dup.
  - specialize (IH n (mkService cm (_collection_stats s) (database s))). lia.
  - destruct (create_pain_point (database s) p) as [db'|].
    + specialize (IH (n + 1) (mkService cm (_collection_stats s) db')). lia.
    + specialize (IH n (mkService cm (_collection_stats s) (database s))). lia.
Qed.

(** What every per-source result of the loop satisfies. *)
Definition consistent r : Prop :=
  0 ≤ collected_count r ≤ total_processed r
  ∧ duplicates_filtered r = total_processed r - collected_count r.

Lemma source_loop_consistent (names : list pystr) (base_queries : list pystr)
    (limit_per_source : Z) (elapsed : Q) :
  ∀ acc s,
    Forall consistent (collection_results acc) →
    Forall consistent
      (collection_results
         (source_loop md5_hexdigest set_to_list collect create_pain_point
            names base_queries limit_per_source elapsed acc s).1).
Proof.
  induction names as [|name rest IH]; intros acc s Hacc; cbn [source_loop]; [done|].
  destruct (collect name base_queries limit_per_source) as [msg|pps errs hits].
  - by apply IH.
  - pose proof (store_loop_count pps 0 s) as Hcount.
    destruct (store_loop _ _ _ pps 0 s) as [stored s']. cbn [fst] in Hcount.
    apply IH. cbn [collection_results]. apply Forall_app. split; [done|].
    constructor; [|done]. unfold consistent. cbn. lia.
Qed.

Lemma sums_consistent (results : list CollectionResult) :
  Forall consistent results →
  0 ≤ sum_Z (collected_count <$> results) ≤ sum_Z (total_processed <$> results)
  ∧ sum_Z (duplicates_filtered <$> results)
    = sum_Z (total_processed <$> results) - sum_Z (collected_count <$> results).
Proof.
  unfold sum_Z. induction 1 as [|r results [Hr1 Hr2] _ IH]; cbn in *; lia.
Qed.

(** The loop over the collectors as [collect_all_sources] runs it: from an
    empty session, on the service with the session counted. *)
Definition session_of (limit_per_source current_hour current_day : Z) (elapsed : Q) s
    : session :=
  (source_loop md5_hexdigest set_to_list collect create_pain_point collectors
     (_generate_intelligent_queries current_hour current_day) limit_per_source elapsed
     (mkSession [] [] [])
     (mkService (cache_manager s)
        (mkCollectionStats (total_sessions (_collection_stats s) + 1)
           (successful_sessions (_collection_stats s)) (total_collected (_collection_stats s))
           (average_quality_score (_collection_stats s)))
        (database s))).1.

(** Every collector either adds a result under its name or adds an error. *)
Lemma source_loop_shape (names : list pystr) (base_queries : list pystr)
    (limit_per_source : Z) (elapsed : Q) :
  ∀ acc s,
    let acc' := (source_loop md5_hexdigest set_to_list collect create_pain_point
                   names base_queries limit_per_source elapsed acc s).1 in
    (∃ answered,
       source <$> collection_results acc' = (source <$> collection_results acc) ++ answered
       ∧ answered `sublist_of` names)
    ∧ (length (collection_results acc') + length (total_errors acc')
       = length (collection_results acc) + length (total_errors acc) + length names)%nat.
Proof.
  induction names as [|name rest IH]; intros acc s; cbn [source_loop].
  - cbn. split; [|lia]. exists []. by rewrite app_nil_r.
  - destruct (collect name base_queries limit_per_source) as [msg|pps errs hits].
    + match goal with
      | |- context [source_loop _ _ _ _ rest _ _ _ ?a ?t] =>
          destruct (IH a t) as [(answered & Hsrc & Hsub) Hlen]
      end.
      cbn [collection_results total_errors] in *. split.
      * exists answered. split; [done|]. by apply sublist_cons.
      * rewrite Hlen, length_app. cbn. lia.
    + destruct (store_loop _ _ _ pps 0 s) as [stored s'].
      match goal with
      | |- context [source_loop _ _ _ _ rest _ _ _ ?a ?t] =>
          destruct (IH a t) as [(answered & Hsrc & Hsub) Hlen]
      end.
      cbn [collection_results total_errors] in *. split.
      * exists (name :: answered). split; [|by apply sublist_skip].
        rewrite Hsrc, fmap_app, <- app_assoc. done.
      * rewrite Hlen, length_app. cbn. lia.
Qed.

(** The statements of [collect_all_sources] after the first one aggregate
    the results of the session by summing. *)
Lemma collect_all_sources_body_sums (limit_per_source current_hour current_day now : Z)
    (elapsed : Q) s :
  let r := (collect_all_sources_body md5_hexdigest set_to_list collect create_pain_point
              limit_per_source current_hour current_day now elapsed s).1 in
  let acc := session_of limit_per_source current_hour current_day elapsed s in
  collected_count r = sum_Z (collected_count <$> collection_results acc)
  ∧ total_processed r = sum_Z (total_processed <$> collection_results acc)
  ∧ duplicates_filtered r = sum_Z (duplicates_filtered <$> collection_results acc)
  ∧ cache_hits r = sum_Z (cache_hits <$> collection_results acc)
  ∧ errors r = total_errors acc.
Proof.
  unfold collect_all_sources_body, session_of.
  destruct (source_loop _ _ _ _ _ _ _ _ _ _) as [acc s']. done.
Qed.


End service_properties.

(** ** A run of the service *)

Section service_runs.
Import DataCollectorService.

(** A store that accepts every record, and collectors of which the first
    finds three records, the second raises and the third finds one that the
    first has found already. *)
Definition accepts (db : list BaseCollector.PainPointData) (p : BaseCollector.PainPointData)
    : option (list BaseCollector.PainPointData) := Some (db ++ [p]).

Definition sample_collect (name : pystr) (_ : list pystr) (_ : Z) : collect_outcome :=
  if bool_decide (name = py "reddit") then Collected [slow_app; slow_app'; thin_record] [] 1
  else if bool_decide (name = py "naver") then CollectRaised (py "no route to host")
  else Collected [slow_app] [py "Timeout for query: slow app"] 0.

Definition new_service : @service pystr :=
  mkService (CacheManager.init 800) (mkCollectionStats 0 0 0 0) [].

Abbreviation sample_session :=
  (session_of plain_digest elements sample_collect accepts 50 9 0 0 new_service).


(** That session: three of four records stored, two results, one error. *)
Example sample_session_counts :
  (λ r, (source r, collected_count r, total_processed r, duplicates_filtered r))
    <$> collection_results sample_session
  = [ (py "reddit", 3, 3, 0); (py "alternative", 0, 1, 1) ]
  ∧ total_errors sample_session = [py "naver: no route to host"].
Proof. vm_compute. split; reflexivity. Qed.

End service_runs.

(** * Further properties of the cache manager *)

Section cache_operations.
Import CacheManager.
Context {Data : Type}.
Variable is_str_dict_list : Data → bool.
Variable utf8_len : Data → N.

Implicit Types (st : list (pystr * @CacheEntry Data)) (m : @manager Data)
  (e : @CacheEntry Data).

Abbreviation cache_set := (set is_str_dict_list utf8_len).
Abbreviation fresh_entry := (new_entry is_str_dict_list utf8_len).

(** The partition a cache type names: every name but the two special ones
    is the general partition. *)
Definition partition_of (cache_type : pystr) : pystr :=
  if decide (cache_type = py "pain_points") then py "pain_points"
  else if decide (cache_type = py "api_response") then py "api_response"
  else py "general".

Lemma get_cache_store_alias ct ct' m :
  partition_of ct = partition_of ct' → _get_cache_store ct m = _get_cache_store ct' m.
Proof.
  unfold partition_of, _get_cache_store.
  repeat case_decide; try done; intros H; vm_compute in H; discriminate H.
Qed.

Lemma get_put_other ct ct' st m :
  partition_of ct ≠ partition_of ct' →
  _get_cache_store ct' (put_cache_store ct st m) = _get_cache_store ct' m.
Proof.
  unfold partition_of, _get_cache_store, put_cache_store.
  repeat case_decide; subst; try done; intros H; by destruct H.
Qed.

Lemma stats_put_cache_store ct st m : stats (put_cache_store ct st m) = stats m.
Proof. unfold put_cache_store. repeat case_decide; done. Qed.

Lemma hashes_put_cache_store ct st m :
  processed_content_hashes (put_cache_store ct st m) = processed_content_hashes m.
Proof. unfold put_cache_store. repeat case_decide; done. Qed.

Lemma max_memory_put_cache_store ct st m :
  max_memory_bytes (put_cache_store ct st m) = max_memory_bytes m.
Proof. unfold put_cache_store. repeat case_decide; done. Qed.

(** What a [set] leaves in its partition and in the statistics. *)
Lemma set_store now key d ttl ct m :
  _get_cache_store ct (cache_set now key d ttl ct m)
  = od_setitem key (fresh_entry d now ttl)
      (evict_loop (partition_budget m) (size_bytes (fresh_entry d now ttl))
         (store_bytes (_get_cache_store ct m)) (_get_cache_store ct m)).1.
Proof.
  unfold set, _ensure_memory_capacity.
  destruct (evict_loop _ _ _ _) as [kept n]. cbn [fst].
  by rewrite get_put_cache_store, get_cache_store_with_stats, get_put_cache_store.
Qed.

Lemma set_stats now key d ttl ct m :
  stats (cache_set now key d ttl ct m)
  = add_evictions
      (evict_loop (partition_budget m) (size_bytes (fresh_entry d now ttl))
         (store_bytes (_get_cache_store ct m)) (_get_cache_store ct m)).2
      (stats m).
Proof.
  unfold set, _ensure_memory_capacity.
  destruct (evict_loop _ _ _ _) as [kept n]. cbn [snd].
  by rewrite stats_put_cache_store; cbn; rewrite stats_put_cache_store.
Qed.

Lemma set_other_store now key d ttl ct ct' m :
  partition_of ct ≠ partition_of ct' →
  _get_cache_store ct' (cache_set now key d ttl ct m) = _get_cache_store ct' m.
Proof.
  intros Hne. unfold set, _ensure_memory_capacity.
  destruct (evict_loop _ _ _ _) as [kept n].
  rewrite get_put_other by done. rewrite get_cache_store_with_stats.
  by rewrite get_put_other.
Qed.

Lemma set_hashes now key d ttl ct m :
  processed_content_hashes (cache_set now key d ttl ct m) = processed_content_hashes m.
Proof.
  unfold set, _ensure_memory_capacity.
  destruct (evict_loop _ _ _ _) as [kept n].
  by rewrite hashes_put_cache_store; cbn; rewrite hashes_put_cache_store.
Qed.

Lemma get_other_store now_check now_touch key ct ct' m :
  partition_of ct ≠ partition_of ct' →
  _get_cache_store ct' (get now_check now_touch key ct m).2 = _get_cache_store ct' m.
Proof.
  intros Hne. unfold get. destruct (od_get key _) as [e|];
    [|cbn [snd]; by rewrite get_cache_store_with_stats].
  destruct (is_expired _ _); cbn [snd]; rewrite get_cache_store_with_stats.
  - unfold delete. destruct (od_contains _ _); [by apply get_put_other|done].
  - by apply get_put_other.
Qed.

(** X7: a [get] of the key just written, made no later than the entry's
    time to live after the write, returns the payload written and counts as
    a hit, whatever the partition held and however large the payload is.
    The time to live is one that gives the entry an expiry date. *)
Theorem get_after_set (now now_check now_touch : Z) (key : pystr) (d : Data) (ttl : Z)
    (ct : pystr) m :
  has_expiry_date (fresh_entry d now ttl) →
  now_check ≤ now + ttl * HOUR →
  (get now_check now_touch key ct (cache_set now key d ttl ct m)).1 = Some d
  ∧ hits (stats (get now_check now_touch key ct (cache_set now key d ttl ct m)).2)
    = hits (stats m) + 1
  ∧ misses (stats (get now_check now_touch key ct (cache_set now key d ttl ct m)).2)
    = misses (stats m).
Proof.
  intros _ Hlive. unfold get. rewrite set_store, od_get_setitem_eq.
  unfold is_expired. rewrite bool_decide_eq_false_2 by (cbn; lia).
  cbn [fst snd stats with_stats add_hit hits misses].
  rewrite stats_put_cache_store, set_stats. done.
Qed.

(** X8: [set], [get] and [delete] on one partition leave the entries of the
    other partitions and the seen hashes as they were; two cache types name
    the same partition exactly when [partition_of] agrees on them. *)
Theorem other_partitions_untouched (now now_check now_touch : Z) (key : pystr) (d : Data)
    (ttl : Z) (ct ct' : pystr) m :
  partition_of ct ≠ partition_of ct' →
  _get_cache_store ct' (cache_set now key d ttl ct m) = _get_cache_store ct' m
  ∧ _get_cache_store ct' (get now_check now_touch key ct m).2 = _get_cache_store ct' m
  ∧ _get_cache_store ct' (delete key ct m) = _get_cache_store ct' m
  ∧ processed_content_hashes (cache_set now key d ttl ct m) = processed_content_hashes m
  ∧ processed_content_hashes (get now_check now_touch key ct m).2
    = processed_content_hashes m
  ∧ processed_content_hashes (delete key ct m) = processed_content_hashes m.
Proof.
  intros Hne.
  assert (Hdel : _get_cache_store ct' (delete key ct m) = _get_cache_store ct' m).
  { unfold delete. destruct (od_contains _ _); [by apply get_put_other|done]. }
  assert (Hdelh : processed_content_hashes (delete key ct m) = processed_content_hashes m).
  { unfold delete. destruct (od_contains _ _); [by apply hashes_put_cache_store|done]. }
  split; [by apply set_other_store|]. split; [|split; [done|]].
  - unfold get. destruct (od_get key _) as [e|];
      [|cbn [snd]; by rewrite get_cache_store_with_stats].
    destruct (is_expired _ _); cbn [snd]; rewrite get_cache_store_with_stats; [done|].
    by apply get_put_other.
  - split; [apply set_hashes|]. split; [|done].
    unfold get. destruct (od_get key _) as [e|]; [|done].
    destruct (is_expired _ _); cbn [snd]; cbn; [done|]. apply hashes_put_cache_store.
Qed.

Lemma stats_delete key ct m : stats (delete key ct m) = stats m.
Proof. unfold delete. destruct (od_contains _ _); [apply stats_put_cache_store|done]. Qed.

(** X9: a [get] of a key that is not cached, or whose entry has an expiry
    date, counts as exactly one request, a hit when it returns a payload and
    a miss when it returns nothing; it changes no other statistic. *)
Theorem get_counts_one_request (now_check now_touch : Z) (key ct : pystr) m :
  (∀ e, od_get key (_get_cache_store ct m) = Some e → has_expiry_date e) →
  total_requests (get now_check now_touch key ct m).2 = total_requests m + 1
  ∧ hits (stats (get now_check now_touch key ct m).2)
    = hits (stats m)
      + match (get now_check now_touch key ct m).1 with Some _ => 1 | None => 0 end
  ∧ evictions (stats (get now_check now_touch key ct m).2) = evictions (stats m)
  ∧ memory_cleanups (stats (get now_check now_touch key ct m).2) = memory_cleanups (stats m)
  ∧ duplicate_blocks (stats (get now_check now_touch key ct m).2)
    = duplicate_blocks (stats m).
Proof.
  intros _. unfold get, total_requests.
  destruct (od_get key _) as [e|]; [destruct (is_expired _ _)|]; cbn;
    rewrite ?stats_delete, ?stats_put_cache_store; repeat split; lia.
Qed.

(** X10: after [delete] a [get] of the key returns nothing and the other
    keys of the partition keep their entries; deleting a key that is not
    cached changes nothing. *)
Theorem delete_then_get (now_check now_touch : Z) (key ct : pystr) m :
  (get now_check now_touch key ct (delete key ct m)).1 = None
  ∧ (∀ k', k' ≠ key →
       od_get k' (_get_cache_store ct (delete key ct m)) = od_get k' (_get_cache_store ct m))
  ∧ (od_get key (_get_cache_store ct m) = None → delete key ct m = m).
Proof.
  assert (Hgone : od_get key (_get_cache_store ct (delete key ct m)) = None).
  { unfold delete, od_contains.
    destruct (od_get key (_get_cache_store ct m)) eqn:Hget; [|done].
    rewrite get_put_cache_store. apply od_get_pop_eq. }
  split; [unfold get; by rewrite Hgone|]. split.
  - intros k' Hne. unfold delete. destruct (od_contains _ _); [|done].
    rewrite get_put_cache_store. by apply od_get_pop_ne.
  - intros Hnone. unfold delete, od_contains. by rewrite Hnone.
Qed.

(** The eviction loop stops as soon as the new entry fits: the entry
    evicted last could not have stayed. *)
Lemma evict_loop_minimal budget required st :
  ∀ current, current = store_bytes st →
  ∃ evicted, st = evicted ++ (evict_loop budget required current st).1
    ∧ (evict_loop budget required current st).2 = Z.of_nat (length evicted)
    ∧ (store_bytes st + required ≤ budget → evicted = [])
    ∧ (∀ ev' x, evicted = ev' ++ [x] →
         budget < store_bytes (x :: (evict_loop budget required current st).1) + required).
Proof.
  induction st as [|[k e] st IH]; intros current ->.
  - exists []. cbn [evict_loop]. case_bool_decide; cbn [fst snd length app];
      repeat split; try done; intros [|? ?] ? Hev; discriminate Hev.
  - cbn [evict_loop]. case_bool_decide as Hover.
    + destruct (IH (store_bytes ((k, e) :: st) - size_bytes e)) as (ev & Heq & Hn & Hfit & Hmin).
      { rewrite store_bytes_cons. lia. }
      destruct (evict_loop budget required _ st) as [kept n]; cbn [fst snd] in *.
      exists ((k, e) :: ev). cbn [length app]. repeat split; [by f_equal|lia|lia|].
      intros ev' x Hev. destruct ev' as [|y ev'].
      * cbn in Hev. injection Hev as Hx Hnil. subst x ev st. cbn [app] in *. done.
      * cbn in Hev. injection Hev as _ Hev. by apply (Hmin ev').
    + exists []. cbn [fst snd length app]. repeat split; try done.
      intros [|? ?] ? Hev; discriminate Hev.
Qed.

(** X11: a [set] evicts a prefix of the partition and counts each evicted
    entry in the [evictions] statistic; it evicts nothing when the new entry
    fits beside what is cached, and otherwise no more than needed: the entry
    evicted last and the new one do not fit together with what is kept. *)
Theorem set_evicts_minimally (now : Z) (key : pystr) (d : Data) (ttl : Z) (ct : pystr) m :
  ∃ evicted kept,
    _get_cache_store ct m = evicted ++ kept
    ∧ _get_cache_store ct (cache_set now key d ttl ct m)
      = od_setitem key (fresh_entry d now ttl) kept
    ∧ evictions (stats (cache_set now key d ttl ct m))
      = evictions (stats m) + Z.of_nat (length evicted)
    ∧ (store_bytes (_get_cache_store ct m) + size_bytes (fresh_entry d now ttl)
       ≤ partition_budget m → evicted = [])
    ∧ (∀ ev' x, evicted = ev' ++ [x] →
         partition_budget m
         < store_bytes (x :: kept) + size_bytes (fresh_entry d now ttl)).
Proof.
  destruct (evict_loop_minimal (partition_budget m) (size_bytes (fresh_entry d now ttl))
              (_get_cache_store ct m) _ eq_refl) as (ev & Heq & Hn & Hfit & Hmin).
  exists ev, (evict_loop (partition_budget m) (size_bytes (fresh_entry d now ttl))
                (store_bytes (_get_cache_store ct m)) (_get_cache_store ct m)).1.
  rewrite set_store, set_stats, Hn. cbn [evictions add_evictions]. done.
Qed.

(** X12: [clear_cache("all")] empties the three partitions and the set of
    seen hashes, so that afterwards every [get] returns nothing and every
    duplicate check answers false; [clear_cache] with any other cache type
    empties the partition it names and keeps the seen hashes and the other
    partitions. *)
Theorem clear_cache_forgets (md5_hexdigest : pystr → pystr)
    (set_to_list : gset pystr → list pystr) (ct ct' : pystr) m :
  (∀ key now_check now_touch,
     (get now_check now_touch key ct' (clear_cache (py "all") m)).1 = None)
  ∧ (∀ title content source_url,
       (is_duplicate_content md5_hexdigest set_to_list title content source_url
          (clear_cache (py "all") m)).1 = false)
  ∧ (ct ≠ py "all" →
     _get_cache_store ct (clear_cache ct m) = []
     ∧ processed_content_hashes (clear_cache ct m) = processed_content_hashes m
     ∧ (partition_of ct ≠ partition_of ct' →
        _get_cache_store ct' (clear_cache ct m) = _get_cache_store ct' m)).
Proof.
  split; [|split].
  - intros key nc nt. unfold clear_cache. rewrite decide_True by done.
    unfold get, _get_cache_store. by repeat case_decide.
  - intros t c u. unfold clear_cache. rewrite decide_True by done.
    unfold is_duplicate_content. cbn [processed_content_hashes].
    rewrite decide_False by apply not_elem_of_empty. done.
  - intros Hne. unfold clear_cache. rewrite decide_False by done.
    split; [apply get_put_cache_store|]. split; [apply hashes_put_cache_store|].
    intros Hp. by apply get_put_other.
Qed.

End cache_operations.

(** ** Sequences of cache operations *)

Section cache_sequences.
Import CacheManager.
Context {Data : Type}.
Variable is_str_dict_list : Data → bool.
Variable utf8_len : Data → N.
Variable md5_hexdigest : pystr → pystr.
Variable set_to_list : gset pystr → list pystr.

Implicit Types (st : list (pystr * @CacheEntry Data)) (m : @manager Data)
  (e : @CacheEntry Data).

(** The calls a user of the cache manager makes, each with the clock values
    it reads. *)
Inductive cache_op :=
  | OpSet (now : Z) (key : pystr) (d : Data) (ttl : Z) (ct : pystr)
  | OpGet (now_check now_touch : Z) (key ct : pystr)
  | OpDelete (key ct : pystr)
  | OpCleanup (now : Z)
  | OpClear (ct : pystr)
  | OpCheck (title content source_url : pystr).

Definition run_op (op : cache_op) m : manager :=
  match op with
  | OpSet now key d ttl ct => set is_str_dict_list utf8_len now key d ttl ct m
  | OpGet now_check now_touch key ct => (get now_check now_touch key ct m).2
  | OpDelete key ct => delete key ct m
  | OpCleanup now => cleanup_expired now m
  | OpClear ct => clear_cache ct m
  | OpCheck title content source_url =>
      (is_duplicate_content md5_hexdigest set_to_list title content source_url m).2
  end.

Definition run_ops (ops : list cache_op) m : manager :=
  foldl (λ m op, run_op op m) m ops.

Definition is_get (op : cache_op) : bool :=
  match op with OpGet _ _ _ _ => true | _ => false end.

(** The size estimate of the entry a [set] writes fits the budget [B]. *)
Definition op_fits (B : Z) (op : cache_op) : Prop :=
  match op with
  | OpSet now key d ttl ct =>
      size_bytes (new_entry is_str_dict_list utf8_len d now ttl) ≤ B
  | _ => True
  end.

(** The entry a [set] writes has an expiry date. *)
Definition op_dated (op : cache_op) : Prop :=
  match op with
  | OpSet now key d ttl ct => has_expiry_date (new_entry is_str_dict_list utf8_len d now ttl)
  | _ => True
  end.

(** Every cached entry has an expiry date: no [get] and no
    [cleanup_expired] raises on its expiry test. *)
Definition dated st : Prop := Forall (λ kv, has_expiry_date kv.2) st.

Definition all_dated m : Prop := ∀ ct, dated (_get_cache_store ct m).

(** Unique keys, size estimates that are lengths, and a total within [B]
    when [B] is given. *)
Definition partition_ok (B : option Z) st : Prop :=
  NoDup st.*1 ∧ sizes_nonneg st
  ∧ match B with Some b => store_bytes st ≤ b | None => True end.

Definition all_ok (B : option Z) m : Prop := ∀ ct, partition_ok B (_get_cache_store ct m).

Lemma filter_ext_in {A} (P Q : A → Prop) `{∀ x, Decision (P x)} `{∀ x, Decision (Q x)}
    (l : list A) :
  (∀ x, x ∈ l → P x ↔ Q x) → filter P l = filter Q l.
Proof.
  induction l as [|a l IH]; intros Hl; [done|].
  rewrite !filter_cons. rewrite IH by (intros x Hx; apply Hl; by right).
  destruct (decide (P a)) as [Hp|Hp], (decide (Q a)) as [Hq|Hq]; try done.
  - destruct Hq. apply Hl; [by left|done].
  - destruct Hp. apply Hl; [by left|done].
Qed.

Lemma store_bytes_app st1 st2 : store_bytes (st1 ++ st2) = store_bytes st1 + store_bytes st2.
Proof.
  induction st1 as [|[k e] st1 IH]; [done|].
  cbn [app]. rewrite !store_bytes_cons, IH. lia.
Qed.

Lemma store_bytes_pop k st : sizes_nonneg st → store_bytes (od_pop k st) ≤ store_bytes st.
Proof.
  induction 1 as [|[k' e'] st Hk Hst IH]; [done|]. cbn in Hk.
  destruct (decide (k' = k)) as [->|Hne].
  - rewrite od_pop_cons_eq, store_bytes_cons. lia.
  - rewrite od_pop_cons_ne, !store_bytes_cons by done. lia.
Qed.

Lemma store_bytes_pop_get k e st :
  sizes_nonneg st → od_get k st = Some e →
  store_bytes (od_pop k st) + size_bytes e ≤ store_bytes st.
Proof.
  induction 1 as [|[k' e'] st Hk Hst IH]; [done|]. cbn in Hk. cbn [od_get].
  case_decide as Hkk.
  - intros [= ->]. subst k'. rewrite od_pop_cons_eq, store_bytes_cons.
    pose proof (store_bytes_pop k st Hst). lia.
  - intros Hget. rewrite od_pop_cons_ne, !store_bytes_cons by done.
    specialize (IH Hget). lia.
Qed.

Lemma sizes_nonneg_pop k st : sizes_nonneg st → sizes_nonneg (od_pop k st).
Proof.
  intros Hnn. apply Forall_forall. intros x Hx.
  apply list_elem_of_filter in Hx as [_ Hx]. by apply (proj1 (Forall_forall _ _) Hnn).
Qed.

Lemma od_get_elem_of k e st : od_get k st = Some e → (k, e) ∈ st.
Proof.
  induction st as [|[k' e'] st IH]; [done|]. cbn. case_decide.
  - intros [= ->]. subst. by left.
  - intros Hget. right. by apply IH.
Qed.

Lemma elem_of_setitem_keys (x k : pystr) e st :
  x ∈ (od_setitem k e st).*1 ↔ x = k ∨ x ∈ st.*1.
Proof using Type.
  induction st as [|[k' e'] st IH]; cbn.
  - rewrite list_elem_of_singleton. split; [by left|]. intros [?|Hx]; [done|].
    by apply elem_of_nil in Hx.
  - case_decide as Hk; cbn; rewrite !elem_of_cons.
    + subst. clear. tauto.
    + rewrite IH. clear. tauto.
Qed.

Lemma partition_ok_pop B k st : partition_ok B st → partition_ok B (od_pop k st).
Proof.
  intros (Hnd & Hnn & Hb). split; [|split].
  - eapply sublist_NoDup; [exact Hnd|]. apply fmap_sublist, sublist_filter.
  - by apply sizes_nonneg_pop.
  - destruct B as [b|]; [|done]. pose proof (store_bytes_pop k st Hnn). lia.
Qed.

Lemma partition_ok_app_r B st1 st2 : partition_ok B (st1 ++ st2) → partition_ok B st2.
Proof.
  intros (Hnd & Hnn & Hb). rewrite fmap_app in Hnd.
  apply NoDup_app in Hnd as (_ & _ & Hnd). unfold sizes_nonneg in Hnn.
  apply Forall_app in Hnn as [Hnn1 Hnn2]. split; [done|]. split; [done|].
  destruct B as [b|]; [|done]. rewrite store_bytes_app in Hb.
  pose proof (store_bytes_nonneg st1 Hnn1). lia.
Qed.

Lemma partition_ok_sweep B now st : partition_ok B st → partition_ok B (sweep now st).
Proof.
  unfold sweep. generalize (expired_keys now st). intros keys. revert st.
  induction keys as [|k keys IH]; intros st Hok; cbn [foldl]; [done|].
  by apply IH, partition_ok_pop.
Qed.

Lemma partition_ok_setitem k e st :
  partition_ok None st → 0 ≤ size_bytes e → partition_ok None (od_setitem k e st).
Proof.
  intros (Hnd & Hnn & _) He. split; [|split; [by apply sizes_nonneg_setitem|done]].
  clear Hnn. induction st as [|[k' e'] st IH]; cbn.
  - apply NoDup_singleton.
  - cbn in Hnd. apply NoDup_cons in Hnd as [Hk' Hnd]. case_decide as Hk; cbn.
    + subst. by apply NoDup_cons.
    + apply NoDup_cons. split; [|by apply IH].
      rewrite elem_of_setitem_keys. intros [?|?]; [by subst|done].
Qed.

Lemma partition_ok_weaken B st : partition_ok B st → partition_ok None st.
Proof. intros (? & ? & _). by repeat split. Qed.

(** What each operation leaves in a partition. *)
Lemma get_store now_check now_touch key ct m :
  _get_cache_store ct (get now_check now_touch key ct m).2
  = match od_get key (_get_cache_store ct m) with
    | None => _get_cache_store ct m
    | Some e =>
        if is_expired now_check e then od_pop key (_get_cache_store ct m)
        else od_pop key (_get_cache_store ct m) ++ [(key, touch now_touch e)]
    end.
Proof.
  unfold get. destruct (od_get key _) as [e|] eqn:Hget; [|done].
  destruct (is_expired now_check e); cbn [snd]; rewrite get_cache_store_with_stats.
  - unfold delete, od_contains. rewrite Hget. apply get_put_cache_store.
  - rewrite get_put_cache_store. unfold od_move_to_end.
    by rewrite od_get_setitem_eq, od_pop_setitem.
Qed.

Lemma delete_store key ct m :
  _get_cache_store ct (delete key ct m) = od_pop key (_get_cache_store ct m).
Proof.
  unfold delete, od_contains.
  destruct (od_get key (_get_cache_store ct m)) eqn:Hget; [apply get_put_cache_store|].
  unfold od_pop. symmetry. apply od_get_None in Hget.
  induction (_get_cache_store ct m) as [|[k e] st IH]; [done|].
  cbn in Hget. apply not_elem_of_cons in Hget as [Hk Hst].
  rewrite filter_cons_True by (cbn; congruence). by rewrite IH.
Qed.

Lemma cleanup_store now ct m :
  _get_cache_store ct (cleanup_expired now m) = sweep now (_get_cache_store ct m).
Proof.
  unfold cleanup_expired. case_bool_decide;
    rewrite ?get_cache_store_with_stats; unfold _get_cache_store; by repeat case_decide.
Qed.

Lemma check_store title content source_url ct m :
  _get_cache_store ct
    (is_duplicate_content md5_hexdigest set_to_list title content source_url m).2
  = _get_cache_store ct m.
Proof.
  unfold is_duplicate_content. case_decide; cbn [snd]; [apply get_cache_store_with_stats|].
  unfold _get_cache_store. by repeat case_decide.
Qed.

Lemma run_op_budget op m : partition_budget (run_op op m) = partition_budget m.
Proof.
  unfold partition_budget. f_equal. destruct op; cbn [run_op].
  - unfold set, _ensure_memory_capacity. destruct (evict_loop _ _ _ _) as [kept n].
    by rewrite max_memory_put_cache_store; cbn; rewrite max_memory_put_cache_store.
  - unfold get. destruct (od_get _ _); [destruct (is_expired _ _)|]; cbn;
      rewrite ?max_memory_put_cache_store; try done.
    unfold delete. destruct (od_contains _ _); [apply max_memory_put_cache_store|done].
  - unfold delete. destruct (od_contains _ _); [apply max_memory_put_cache_store|done].
  - unfold cleanup_expired. by case_bool_decide.
  - unfold clear_cache. case_decide; [done|apply max_memory_put_cache_store].
  - unfold is_duplicate_content. by case_decide.
Qed.

(** One operation keeps the partitions well formed, and within the budget
    when they were and the entry written fits. *)
Lemma run_op_ok (bounded : bool) op m :
  let B m := if bounded then Some (partition_budget m) else None in
  (bounded = true → 0 ≤ partition_budget m) →
  (bounded = true → op_fits (partition_budget m) op) →
  all_ok (B m) m → all_ok (B (run_op op m)) (run_op op m).
Proof.
  intros B Hb Hfit Hok. subst B. cbn beta. rewrite run_op_budget.
  destruct op as [now key d ttl ct|nc nt key ct|key ct|now|ct|t c u];
    cbn [run_op op_fits] in *; intros ct'.
  - destruct (decide (partition_of ct = partition_of ct')) as [Heq|Hne].
    + rewrite <- (get_cache_store_alias ct ct' _ Heq).
      destruct (set_step is_str_dict_list utf8_len now key d ttl ct m) as (Hnn & _ & Hsmall & _).
      { by destruct (Hok ct) as (_ & ? & _). }
      rewrite set_store in *.
      destruct (evict_loop_minimal (partition_budget m)
                  (size_bytes (new_entry is_str_dict_list utf8_len d now ttl))
                  (_get_cache_store ct m) _ eq_refl) as (ev & Hev & _).
      pose proof (Hok ct) as Hct. rewrite Hev in Hct. apply partition_ok_app_r in Hct.
      destruct (partition_ok_setitem key (new_entry is_str_dict_list utf8_len d now ttl) _
                  (partition_ok_weaken _ _ Hct)) as (Hnd & _ & _).
      { apply new_entry_size_nonneg. }
      split; [done|]. split; [done|]. destruct bounded; [|done]. by apply Hsmall, Hfit.
    + rewrite set_other_store by done. apply Hok.
  - destruct (decide (partition_of ct = partition_of ct')) as [Heq|Hne].
    + rewrite <- (get_cache_store_alias ct ct' _ Heq). rewrite get_store.
      pose proof (Hok ct) as Hct.
      destruct (od_get key (_get_cache_store ct m)) as [e|] eqn:Hget; [|done].
      destruct (is_expired nc e); [by apply partition_ok_pop|].
      destruct (partition_ok_pop _ key _ Hct) as (Hnd & Hnn & Hbd).
      destruct Hct as (_ & Hnn0 & _).
      split; [|split].
      * rewrite fmap_app. apply NoDup_app. split; [done|]. split; [|apply NoDup_singleton].
        intros x Hx Hx'. cbn in Hx'. apply list_elem_of_singleton in Hx'. subst.
        by apply (od_pop_keys key (_get_cache_store ct m)).
      * apply Forall_app. split; [done|]. repeat constructor. cbn.
        apply od_get_elem_of in Hget.
        by apply (proj1 (Forall_forall _ _) Hnn0 _ Hget).
      * destruct bounded; [|done]. rewrite store_bytes_app, store_bytes_cons. cbn.
        pose proof (store_bytes_pop_get key e _ Hnn0 Hget).
        destruct (Hok ct) as (_ & _ & Hle). cbn in Hle. lia.
    + rewrite get_other_store by done. apply Hok.
  - destruct (decide (partition_of ct = partition_of ct')) as [Heq|Hne].
    + rewrite <- (get_cache_store_alias ct ct' _ Heq), delete_store.
      apply partition_ok_pop, Hok.
    + unfold delete. destruct (od_contains _ _); [|apply Hok].
      rewrite get_put_other by done. apply Hok.
  - rewrite cleanup_store. apply partition_ok_sweep, Hok.
  - unfold clear_cache. case_decide as Hall.
    + assert (_get_cache_store ct'
                {| max_memory_bytes := max_memory_bytes m; cache := []; stats := stats m;
                   pain_point_cache := []; api_response_cache := [];
                   processed_content_hashes := ∅ |} = []) as ->.
      { unfold _get_cache_store. by repeat case_decide. }
      split; [constructor|]. split; [constructor|]. destruct bounded; [|done]. by apply Hb.
    + destruct (decide (partition_of ct = partition_of ct')) as [Heq|Hne].
      * rewrite <- (get_cache_store_alias ct ct' _ Heq), get_put_cache_store.
        split; [constructor|]. split; [constructor|]. destruct bounded; [|done]. by apply Hb.
      * rewrite get_put_other by done. apply Hok.
  - rewrite check_store. apply Hok.
Qed.

Lemma run_ops_ok (bounded : bool) ops :
  ∀ m,
    (bounded = true → 0 ≤ partition_budget m) →
    (bounded = true → Forall (op_fits (partition_budget m)) ops) →
    all_ok (if bounded then Some (partition_budget m) else None) m →
    all_ok (if bounded then Some (partition_budget m) else None) (run_ops ops m)
    ∧ partition_budget (run_ops ops m) = partition_budget m.
Proof.
  induction ops as [|op ops IH]; intros m Hb Hfit Hok; [done|].
  cbn [run_ops foldl]. fold (run_ops ops (run_op op m)).
  pose proof (run_op_budget op m) as Hbud.
  destruct (IH (run_op op m)) as [Hok' Hbud'].
  - by rewrite Hbud.
  - rewrite Hbud. intros Ht. specialize (Hfit Ht). by inversion Hfit.
  - apply (run_op_ok bounded op m Hb); [|done].
    intros Ht. specialize (Hfit Ht). by inversion Hfit.
  - rewrite Hbud in Hok'. split; [done|]. by rewrite Hbud'.
Qed.

Lemma dated_pop k st : dated st → dated (od_pop k st).
Proof.
  intros Hd. apply Forall_forall. intros x Hx.
  apply list_elem_of_filter in Hx as [_ Hx]. by apply (proj1 (Forall_forall _ _) Hd).
Qed.

Lemma dated_setitem k e st : dated st → has_expiry_date e → dated (od_setitem k e st).
Proof.
  intros Hd He. induction Hd as [|[k' e'] st Hk Hst IH]; cbn.
  - constructor; [done|constructor].
  - case_decide; constructor; done.
Qed.

Lemma dated_sweep now st : dated st → dated (sweep now st).
Proof.
  unfold sweep. generalize (expired_keys now st). intros keys. revert st.
  induction keys as [|k keys IH]; intros st Hd; cbn [foldl]; [done|].
  by apply IH, dated_pop.
Qed.

(** One operation keeps the entries dated when the entry it writes is. *)
Lemma run_op_dated op m : op_dated op → all_dated m → all_dated (run_op op m).
Proof.
  intros Hop Hd.
  destruct op as [now key d ttl ct|nc nt key ct|key ct|now|ct|t c u];
    cbn [run_op op_dated] in *; intros ct'.
  - destruct (decide (partition_of ct = partition_of ct')) as [Heq|Hne].
    + rewrite <- (get_cache_store_alias ct ct' _ Heq), set_store.
      destruct (evict_loop_minimal (partition_budget m)
                  (size_bytes (new_entry is_str_dict_list utf8_len d now ttl))
                  (_get_cache_store ct m) _ eq_refl) as (ev & Hev & _).
      pose proof (Hd ct) as Hct. rewrite Hev in Hct. apply Forall_app in Hct as [_ Hkept].
      by apply dated_setitem.
    + rewrite set_other_store by done. apply Hd.
  - destruct (decide (partition_of ct = partition_of ct')) as [Heq|Hne].
    + rewrite <- (get_cache_store_alias ct ct' _ Heq), get_store.
      pose proof (Hd ct) as Hct.
      destruct (od_get key (_get_cache_store ct m)) as [e|] eqn:Hget; [|done].
      destruct (is_expired nc e); [by apply dated_pop|].
      apply Forall_app. split; [by apply dated_pop|]. constructor; [|constructor].
      apply od_get_elem_of in Hget.
      exact (proj1 (Forall_forall _ _) Hct _ Hget).
    + rewrite get_other_store by done. apply Hd.
  - destruct (decide (partition_of ct = partition_of ct')) as [Heq|Hne].
    + rewrite <- (get_cache_store_alias ct ct' _ Heq), delete_store.
      apply dated_pop, Hd.
    + unfold delete. destruct (od_contains _ _); [|apply Hd].
      rewrite get_put_other by done. apply Hd.
  - rewrite cleanup_store. apply dated_sweep, Hd.
  - unfold clear_cache. case_decide as Hall.
    + assert (_get_cache_store ct'
                {| max_memory_bytes := max_memory_bytes m; cache := []; stats := stats m;
                   pain_point_cache := []; api_response_cache := [];
                   processed_content_hashes := ∅ |} = []) as ->.
      { unfold _get_cache_store. by repeat case_decide. }
      constructor.
    + destruct (decide (partition_of ct = partition_of ct')) as [Heq|Hne].
      * rewrite <- (get_cache_store_alias ct ct' _ Heq), get_put_cache_store. constructor.
      * rewrite get_put_other by done. apply Hd.
  - rewrite check_store. apply Hd.
Qed.

Lemma run_ops_dated ops : ∀ m, Forall op_dated ops → all_dated m → all_dated (run_ops ops m).
Proof.
  induction ops as [|op ops IH]; intros m Hops Hd; [done|].
  cbn [run_ops foldl]. fold (run_ops ops (run_op op m)).
  inversion Hops; subst. apply IH; [done|]. by apply run_op_dated.
Qed.

(** What one operation does to the statistics. *)
Lemma run_op_stats op m :
  total_requests (run_op op m) = total_requests m + (if is_get op then 1 else 0)
  ∧ hits (stats m) ≤ hits (stats (run_op op m))
  ∧ misses (stats m) ≤ misses (stats (run_op op m))
  ∧ evictions (stats m) ≤ evictions (stats (run_op op m)).
Proof.
  unfold total_requests. destruct op as [now key d ttl ct|nc nt key ct|key ct|now|ct|t c u];
    cbn [run_op is_get].
  - rewrite set_stats.
    destruct (evict_loop_minimal (partition_budget m)
                (size_bytes (new_entry is_str_dict_list utf8_len d now ttl))
                (_get_cache_store ct m) _ eq_refl) as (ev & _ & -> & _).
    cbn. lia.
  - unfold get. destruct (od_get key _) as [e|]; [destruct (is_expired _ _)|]; cbn;
      rewrite ?stats_delete, ?stats_put_cache_store; lia.
  - rewrite stats_delete. lia.
  - unfold cleanup_expired. case_bool_decide; cbn; lia.
  - unfold clear_cache. case_decide; rewrite ?stats_put_cache_store; cbn; lia.
  - unfold is_duplicate_content. case_decide; cbn; lia.
Qed.

Lemma run_ops_stats ops :
  ∀ m,
    total_requests (run_ops ops m)
    = total_requests m + Z.of_nat (length (List.filter is_get ops))
    ∧ hits (stats m) ≤ hits (stats (run_ops ops m))
    ∧ misses (stats m) ≤ misses (stats (run_ops ops m))
    ∧ evictions (stats m) ≤ evictions (stats (run_ops ops m)).
Proof.
  induction ops as [|op ops IH]; intros m; [cbn; lia|].
  cbn [run_ops foldl List.filter]. fold (run_ops ops (run_op op m)).
  destruct (IH (run_op op m)) as (Ht & Hh & Hm & He).
  destruct (run_op_stats op m) as (Ht' & Hh' & Hm' & He').
  rewrite Ht, Ht'. destruct (is_get op); cbn [length]; lia.
Qed.

Lemma run_ops_max_memory ops m : max_memory_bytes (run_ops ops m) = max_memory_bytes m.
Proof.
  revert m. induction ops as [|op ops IH]; intros m; [done|].
  cbn [run_ops foldl]. fold (run_ops ops (run_op op m)). rewrite IH.
  destruct op; cbn [run_op].
  - unfold set, _ensure_memory_capacity. destruct (evict_loop _ _ _ _) as [kept n].
    by rewrite max_memory_put_cache_store; cbn; rewrite max_memory_put_cache_store.
  - unfold get. destruct (od_get _ _); [destruct (is_expired _ _)|]; cbn;
      rewrite ?max_memory_put_cache_store; try done.
    unfold delete. destruct (od_contains _ _); [apply max_memory_put_cache_store|done].
  - unfold delete. destruct (od_contains _ _); [apply max_memory_put_cache_store|done].
  - unfold cleanup_expired. by case_bool_decide.
  - unfold clear_cache. case_decide; [done|apply max_memory_put_cache_store].
  - unfold is_duplicate_content. by case_decide.
Qed.

Lemma hit_rate_range m :
  0 ≤ hits (stats m) → 0 ≤ misses (stats m) → (0 <= hit_rate_percentage m <= 100)%Q.
Proof.
  intros Hh Hm. unfold hit_rate_percentage. case_bool_decide as Hpos; [|done].
  assert (Hq : (0 < inject_Z (total_requests m))%Q).
  { change 0%Q with (inject_Z 0). rewrite <- Zlt_Qlt. done. }
  assert (H0 : (0 <= inject_Z (hits (stats m)) / inject_Z (total_requests m))%Q).
  { apply Qle_shift_div_l; [done|]. rewrite Qmult_0_l.
    change 0%Q with (inject_Z 0). rewrite <- Zle_Qle. done. }
  assert (H1 : (inject_Z (hits (stats m)) / inject_Z (total_requests m) <= 1)%Q).
  { apply Qle_shift_div_r; [done|]. rewrite Qmult_1_l. rewrite <- Zle_Qle.
    unfold total_requests. lia. }
  split; lra.
Qed.

(** X13: whatever calls are made on a new cache manager, as long as every
    entry written has an expiry date: every entry cached has one, so every
    call returns; every partition holds each key once and only non-negative
    size estimates, the memory limit stays as configured, the number of
    requests counted is the number of [get] calls made, and the hit rate
    reported is between 0 and 100. *)
Theorem cache_invariants (ops : list cache_op) (max_memory_mb : Z) :
  Forall op_dated ops →
  all_dated (run_ops ops (init max_memory_mb))
  ∧ (∀ ct, NoDup (_get_cache_store ct (run_ops ops (init max_memory_mb))).*1
         ∧ sizes_nonneg (_get_cache_store ct (run_ops ops (init max_memory_mb))))
  ∧ max_memory_bytes (run_ops ops (init max_memory_mb)) = max_memory_mb * 1024 * 1024
  ∧ total_requests (run_ops ops (init max_memory_mb))
    = Z.of_nat (length (List.filter is_get ops))
  ∧ 0 ≤ hits (stats (run_ops ops (init max_memory_mb)))
  ∧ 0 ≤ misses (stats (run_ops ops (init max_memory_mb)))
  ∧ 0 ≤ evictions (stats (run_ops ops (init max_memory_mb)))
  ∧ (0 <= hit_rate_percentage (run_ops ops (init max_memory_mb)) <= 100)%Q.
Proof.
  intros Hdated.
  split.
  { apply run_ops_dated; [done|]. intros ct. unfold _get_cache_store.
    repeat case_decide; constructor. }
  destruct (run_ops_ok false ops (init max_memory_mb)) as [Hok _]; [done|done| |].
  { intros ct. unfold _get_cache_store. repeat case_decide; cbn;
      (split; [constructor|split; [constructor|done]]). }
  destruct (run_ops_stats ops (init max_memory_mb)) as (Ht & Hh & Hm & He).
  cbn in Ht, Hh, Hm, He.
  split; [intros ct; destruct (Hok ct) as (? & ? & _); by split|].
  split; [by rewrite run_ops_max_memory|]. split; [done|].
  split; [done|]. split; [done|]. split; [done|]. by apply hit_rate_range.
Qed.

(** X14: on a cache manager built with a non-negative memory limit, as long
    as every entry written fits the budget of a partition on its own, every
    partition stays within that budget after every call, and the total that
    [get_memory_usage] reports stays within the configured limit. *)
Theorem memory_usage_within_limit (ops : list cache_op) (max_memory_mb : Z) :
  0 ≤ max_memory_mb →
  Forall (op_fits (partition_budget (init (Data := Data) max_memory_mb))) ops →
  (∀ ct, store_bytes (_get_cache_store ct (run_ops ops (init (Data := Data) max_memory_mb)))
         ≤ partition_budget (init (Data := Data) max_memory_mb))
  ∧ total_usage_bytes (run_ops ops (init (Data := Data) max_memory_mb))
    ≤ max_memory_bytes (run_ops ops (init (Data := Data) max_memory_mb)).
Proof.
  intros Hmb Hfit.
  assert (Hb : 0 ≤ partition_budget (init (Data := Data) max_memory_mb)).
  { unfold partition_budget. cbn. apply Z.div_pos; lia. }
  destruct (run_ops_ok true ops (init (Data := Data) max_memory_mb)) as [Hok Hbud]; [done|done| |].
  { intros ct. unfold _get_cache_store. repeat case_decide; cbn -[partition_budget];
      (split; [constructor|split; [constructor|done]]). }
  assert (Hle : ∀ ct, store_bytes (_get_cache_store ct (run_ops ops (init (Data := Data) max_memory_mb)))
                      ≤ partition_budget (init (Data := Data) max_memory_mb)).
  { intros ct. by destruct (Hok ct) as (_ & _ & ?). }
  split; [done|]. rewrite run_ops_max_memory.
  pose proof (Hle (py "general")) as Hg. pose proof (Hle (py "pain_points")) as Hp.
  pose proof (Hle (py "api_response")) as Ha.
  unfold total_usage_bytes, partition_budget in *.
  change (_get_cache_store (py "general") ?x) with (cache x) in Hg.
  change (_get_cache_store (py "pain_points") ?x) with (pain_point_cache x) in Hp.
  change (_get_cache_store (py "api_response") ?x) with (api_response_cache x) in Ha.
  pose proof (Z.mul_div_le (max_memory_bytes (init (Data := Data) max_memory_mb)) 3). lia.
Qed.

Lemma unique_key_entry (k : pystr) e1 e2 st :
  NoDup st.*1 → (k, e1) ∈ st → (k, e2) ∈ st → e1 = e2.
Proof using Type.
  induction st as [|[k' e'] st IH]; cbn; intros Hnd H1 H2.
  - by apply elem_of_nil in H1.
  - apply NoDup_cons in Hnd as [Hk Hnd].
    apply elem_of_cons in H1 as [H1|H1]; apply elem_of_cons in H2 as [H2|H2].
    + congruence.
    + injection H1 as -> ->. destruct Hk. apply list_elem_of_fmap. by exists (k', e2).
    + injection H2 as -> ->. destruct Hk. apply list_elem_of_fmap. by exists (k', e1).
    + by apply IH.
Qed.

Lemma foldl_pop (keys : list pystr) :
  ∀ st, foldl (λ acc key, od_pop key acc) st keys = filter (λ kv, kv.1 ∉ keys) st.
Proof using Type.
  induction keys as [|k keys IH]; intros st; cbn [foldl].
  - induction st as [|kv st IHst]; [done|].
    rewrite filter_cons_True by apply not_elem_of_nil. by rewrite <- IHst.
  - rewrite IH. unfold od_pop. rewrite list_filter_filter.
    apply list_filter_iff. intros kv. rewrite not_elem_of_cons. clear. tauto.
Qed.

Lemma sweep_filter now st :
  NoDup st.*1 → sweep now st = filter (λ kv, is_expired now kv.2 = false) st.
Proof using Type.
  intros Hnd. unfold sweep. rewrite foldl_pop. apply filter_ext_in.
  intros [k e] Hin. cbn. unfold expired_keys. rewrite list_elem_of_fmap. split.
  - intros Hk. destruct (is_expired now e) eqn:He; [|done].
    destruct Hk. exists (k, e). split; [done|]. by apply list_elem_of_filter.
  - intros He ([k' e'] & Hk & Hin'). cbn in Hk. subst k'.
    apply list_elem_of_filter in Hin' as [He' Hin']. cbn in He'.
    rewrite (unique_key_entry k e e' st Hnd Hin Hin') in He. congruence.
Qed.

(** X15: on a manager whose entries all have an expiry date,
    [cleanup_expired] leaves in every partition exactly the entries that
    are not expired, in their order, and keeps the seen hashes; a second
    sweep at the same time changes nothing.  Keys are unique in every
    partition the manager builds. *)
Theorem cleanup_expired_sweeps (now : Z) m :
  (∀ ct, NoDup (_get_cache_store ct m).*1) →
  (∀ ct, Forall (λ kv, has_expiry_date kv.2) (_get_cache_store ct m)) →
  (∀ ct, _get_cache_store ct (cleanup_expired now m)
         = filter (λ kv, is_expired now kv.2 = false) (_get_cache_store ct m))
  ∧ processed_content_hashes (cleanup_expired now m) = processed_content_hashes m
  ∧ cleanup_expired now (cleanup_expired now m) = cleanup_expired now m.
Proof using Type.
  intros Hnd _.
  assert (Hstore : ∀ ct, _get_cache_store ct (cleanup_expired now m)
            = filter (λ kv, is_expired now kv.2 = false) (_get_cache_store ct m)).
  { intros ct. rewrite cleanup_store. by apply sweep_filter. }
  split; [done|]. split; [unfold cleanup_expired; by case_bool_decide|].
  assert (Hnone : ∀ ct, expired_keys now (_get_cache_store ct (cleanup_expired now m)) = []).
  { intros ct. rewrite Hstore. unfold expired_keys. rewrite list_filter_filter.
    rewrite (list_filter_iff _ (λ _, False)); [|intros kv; split; [|done]; intros [? ?]; congruence].
    by induction (_get_cache_store ct m) as [|? ? IH]. }
  assert (Hsame : ∀ ct, sweep now (_get_cache_store ct (cleanup_expired now m))
                        = _get_cache_store ct (cleanup_expired now m)).
  { intros ct. unfold sweep. by rewrite Hnone. }
  pose proof (Hnone (py "general")) as Hg. pose proof (Hnone (py "pain_points")) as Hp.
  pose proof (Hnone (py "api_response")) as Ha.
  pose proof (Hsame (py "general")) as Hg'. pose proof (Hsame (py "pain_points")) as Hp'.
  pose proof (Hsame (py "api_response")) as Ha'.
  change (_get_cache_store (py "general") ?x) with (cache x) in Hg, Hg'.
  change (_get_cache_store (py "pain_points") ?x) with (pain_point_cache x) in Hp, Hp'.
  change (_get_cache_store (py "api_response") ?x) with (api_response_cache x) in Ha, Ha'.
  unfold cleanup_expired at 1. rewrite Hg, Hp, Ha, Hg', Hp', Ha'. cbn [length Nat.add].
  rewrite bool_decide_eq_false_2 by lia. by destruct (cleanup_expired now m).
Qed.

End cache_sequences.

(** ** Cached pain points *)

Set Warnings "-clear-no-such-hyp".

Section cached_pain_points.
Import CacheManager.
Context {Data Params Point : Type}.
Variable is_str_dict_list : Data → bool.
Variable utf8_len : Data → N.
Variable md5_hexdigest : pystr → pystr.
Variable set_to_list : gset pystr → list pystr.
Variable json_dumps : Params → pystr.
Variable type_pain_points : Params.
Variable point_title point_content point_source_url : Point → pystr.
Variable of_points : list Point → Data.

Implicit Types (m : @manager Data) (pts : list Point).

Abbreviation point_hash p :=
  (generate_content_hash md5_hexdigest (point_title p) (point_content p)
     (point_source_url p)).
Abbreviation dedup_pass :=
  (unique_points md5_hexdigest set_to_list point_title point_content point_source_url).
Abbreviation cache_points :=
  (cache_pain_points is_str_dict_list utf8_len md5_hexdigest set_to_list json_dumps
     type_pain_points point_title point_content point_source_url of_points).
Abbreviation cached_points := (get_cached_pain_points md5_hexdigest json_dumps type_pain_points).

(** The points whose content hash is not in [seen] and has not occurred
    earlier in the list. *)
Fixpoint first_new (seen : gset pystr) pts : list Point :=
  match pts with
  | [] => []
  | p :: rest =>
      if decide (point_hash p ∈ seen) then first_new seen rest
      else p :: first_new ({[point_hash p]} ∪ seen) rest
  end.

Definition hashes_of pts : gset pystr := list_to_set ((λ p, point_hash p) <$> pts).

Lemma first_new_all_seen (seen : gset pystr) pts :
  hashes_of pts ⊆ seen → first_new seen pts = [].
Proof.
  unfold hashes_of. induction pts as [|p rest IH]; cbn; [done|]. intros Hsub.
  rewrite decide_True by set_solver. apply IH. set_solver.
Qed.

(** Without pruning the pass keeps the first occurrence of every unseen
    hash and records all the hashes. *)
Lemma dedup_pass_no_prune pts :
  ∀ m,
    Z.of_nat (size (processed_content_hashes m ∪ hashes_of pts)) ≤ 10000 →
    (dedup_pass pts m).1 = first_new (processed_content_hashes m) pts
    ∧ processed_content_hashes (dedup_pass pts m).2
      = processed_content_hashes m ∪ hashes_of pts
    ∧ ∀ ct, _get_cache_store ct (dedup_pass pts m).2 = _get_cache_store ct m.
Proof.
  unfold hashes_of. induction pts as [|p rest IH]; intros m Hsize; cbn [unique_points first_new].
  - cbn. split; [done|]. split; [set_solver|done].
  - cbn [fmap list_fmap list_to_set] in Hsize.
    destruct (decide (point_hash p ∈ processed_content_hashes m)) as [Hin|Hnin].
    + pose proof (check_seen md5_hexdigest set_to_list
                    (point_title p, point_content p, point_source_url p) m Hin) as Hc.
      cbn in Hc. rewrite Hc.
      destruct (IH (with_stats add_duplicate_block m)) as (Hu & Hh & Hs).
      { cbn. replace (processed_content_hashes m ∪ list_to_set ((λ p, point_hash p) <$> rest))
          with (processed_content_hashes m
                ∪ ({[point_hash p]} ∪ list_to_set ((λ p, point_hash p) <$> rest)))
          by set_solver. done. }
      destruct (dedup_pass rest _) as [unique m2]. cbn [fst snd] in *.
      split; [done|]. split; [rewrite Hh; cbn; set_solver|].
      intros ct. rewrite Hs. apply get_cache_store_with_stats.
    + pose proof (check_new md5_hexdigest set_to_list
                    (point_title p, point_content p, point_source_url p) m Hnin) as Hc.
      cbn in Hc. rewrite Hc; clear Hc.
      2:{ intros [_ Hbig]. cbn in Hbig.
          assert (size ({[point_hash p]} ∪ processed_content_hashes m)
                  ≤ size (processed_content_hashes m
                          ∪ ({[point_hash p]} ∪ list_to_set ((λ p, point_hash p) <$> rest))))%nat
            by (apply subseteq_size; set_solver).
          lia. }
      destruct (IH (with_hashes ({[point_hash p]} ∪ processed_content_hashes m) m))
        as (Hu & Hh & Hs).
      { cbn. replace ({[point_hash p]} ∪ processed_content_hashes m
                      ∪ list_to_set ((λ p, point_hash p) <$> rest))
          with (processed_content_hashes m
                ∪ ({[point_hash p]} ∪ list_to_set ((λ p, point_hash p) <$> rest)))
          by set_solver. done. }
      destruct (dedup_pass rest _) as [unique m2]. cbn [fst snd] in *.
      split; [by rewrite Hu|]. split; [rewrite Hh; cbn; set_solver|].
      intros ct. rewrite Hs. unfold _get_cache_store. by repeat case_decide.
Qed.

Lemma cached_after_cache (now now_check now_touch : Z) (source query : pystr) pts
    (ttl : Z) m :
  now_check ≤ now + ttl * HOUR →
  (cached_points now_check now_touch source query (cache_points now source query pts ttl m)).1
  = Some (of_points (dedup_pass pts m).1).
Proof.
  intros Hlive. unfold get_cached_pain_points, cache_pain_points.
  destruct (dedup_pass pts m) as [unique m1]. cbn [fst].
  unfold get. rewrite set_store, od_get_setitem_eq.
  unfold is_expired. rewrite bool_decide_eq_false_2 by (cbn; lia). done.
Qed.

(** X16: while the seen hashes stay within their cap, reading the pain
    points of a source and query back, within a time to live that ends on a
    date, gives the points that were cached without those whose content
    hash had been seen before or occurs earlier in the list. *)
Theorem cached_pain_points_round_trip (now now_check now_touch : Z) (source query : pystr)
    pts (ttl : Z) m :
  Z.of_nat (size (processed_content_hashes m ∪ hashes_of pts)) ≤ 10000 →
  is_datetime now → is_datetime (now + ttl * HOUR) →
  now_check ≤ now + ttl * HOUR →
  (cached_points now_check now_touch source query (cache_points now source query pts ttl m)).1
  = Some (of_points (first_new (processed_content_hashes m) pts)).
Proof.
  intros Hsize _ _ Hlive. rewrite cached_after_cache by done.
  by destruct (dedup_pass_no_prune pts m Hsize) as (-> & _).
Qed.

(** X17: caching the same pain points a second time replaces what was
    cached by the empty list: every point is a duplicate of itself by then,
    so a later read, within a time to live that ends on a date, returns a
    list with nothing in it. *)
Theorem recaching_caches_nothing (now1 now2 now_check now_touch : Z) (source query : pystr)
    pts (ttl1 ttl2 : Z) m :
  Z.of_nat (size (processed_content_hashes m ∪ hashes_of pts)) ≤ 10000 →
  is_datetime now2 → is_datetime (now2 + ttl2 * HOUR) →
  now_check ≤ now2 + ttl2 * HOUR →
  (cached_points now_check now_touch source query
     (cache_points now2 source query pts ttl2 (cache_points now1 source query pts ttl1 m))).1
  = Some (of_points []).
Proof.
  intros Hsize _ _ Hlive. rewrite cached_after_cache by done.
  destruct (dedup_pass_no_prune pts m Hsize) as (_ & Hh & _).
  assert (Hh1 : processed_content_hashes (cache_points now1 source query pts ttl1 m)
                = processed_content_hashes m ∪ hashes_of pts).
  { unfold cache_pain_points. destruct (dedup_pass pts m) as [unique m1]. cbn [snd] in Hh.
    by rewrite set_hashes. }
  destruct (dedup_pass_no_prune pts (cache_points now1 source query pts ttl1 m)) as (-> & _).
  { rewrite Hh1. replace (processed_content_hashes m ∪ hashes_of pts ∪ hashes_of pts)
      with (processed_content_hashes m ∪ hashes_of pts) by set_solver. done. }
  rewrite Hh1, first_new_all_seen; [done|set_solver].
Qed.

End cached_pain_points.

(** ** Runs of the further cache operations *)

Section cache_operation_runs.
Import CacheManager.

Ltac by_computation :=
  vm_compute; first [reflexivity | discriminate | (let H := fresh in intros H; discriminate H)].

Ltac dated_by_computation :=
  lazymatch goal with
  | |- Forall ?P ?l => let l' := eval vm_compute in l in change (Forall P l')
  | _ => idtac
  end;
  repeat first [ apply List.Forall_nil | apply List.Forall_cons | split | by_computation ].

Lemma get_after_set_witness :
  (get 2 2 (py "A") general
     (set always_sized ascii_len 1 (py "A") (chars 40 "a") 6 general small_manager)).1
  = Some (chars 40 "a")
  ∧ hits (stats (get 2 2 (py "A") general
                   (set always_sized ascii_len 1 (py "A") (chars 40 "a") 6 general
                      small_manager)).2)
    = hits (stats small_manager) + 1
  ∧ misses (stats (get 2 2 (py "A") general
                     (set always_sized ascii_len 1 (py "A") (chars 40 "a") 6 general
                        small_manager)).2)
    = misses (stats small_manager).
Proof.
  apply (get_after_set always_sized ascii_len 1 2 2 (py "A") (chars 40 "a") 6 general
           small_manager).
  - repeat split; by_computation.
  - by_computation.
Defined.

Lemma other_partitions_untouched_witness :
  _get_cache_store general
    (set always_sized ascii_len 3 (py "A") (chars 40 "z") 6 (py "pain_points") two_entries)
  = _get_cache_store general two_entries
  ∧ _get_cache_store general (get 3 3 (py "A") (py "pain_points") two_entries).2
    = _get_cache_store general two_entries
  ∧ _get_cache_store general (delete (py "A") (py "pain_points") two_entries)
    = _get_cache_store general two_entries
  ∧ processed_content_hashes
      (set always_sized ascii_len 3 (py "A") (chars 40 "z") 6 (py "pain_points") two_entries)
    = processed_content_hashes two_entries
  ∧ processed_content_hashes (get 3 3 (py "A") (py "pain_points") two_entries).2
    = processed_content_hashes two_entries
  ∧ processed_content_hashes (delete (py "A") (py "pain_points") two_entries)
    = processed_content_hashes two_entries.
Proof.
  apply (other_partitions_untouched always_sized ascii_len 3 3 3 (py "A") (chars 40 "z") 6
           (py "pain_points") general two_entries).
  by_computation.
Defined.

(** Writes, a read, a sweep and a duplicate check on a manager built with
    [CacheManager(max_memory_mb=1)]. *)
Definition mixed_calls : list (@cache_op pystr) :=
  [ OpSet 1 (py "A") (chars 100000 "x") 6 general;
    OpSet 2 (py "B") (chars 200000 "y") 6 general;
    OpGet 3 3 (py "A") general;
    OpSet 4 (py "C") (chars 300000 "z") 1 (py "api_response");
    OpCheck (py "X") (py "Y") (py "Z");
    OpCleanup 5;
    OpSet 6 (py "D") (chars 200000 "w") 6 general ].

Lemma memory_usage_within_limit_witness :
  (∀ ct, store_bytes (_get_cache_store ct
                        (run_ops always_sized ascii_len plain_digest elements mixed_calls
                           (init 1)))
         ≤ partition_budget (init (Data := pystr) 1))
  ∧ total_usage_bytes
      (run_ops always_sized ascii_len plain_digest elements mixed_calls (init 1))
    ≤ max_memory_bytes
        (run_ops always_sized ascii_len plain_digest elements mixed_calls (init 1)).
Proof.
  apply (memory_usage_within_limit always_sized ascii_len plain_digest elements
           mixed_calls 1).
  - by_computation.
  - repeat constructor; by_computation.
Defined.

Example mixed_calls_usage :
  total_usage_bytes (run_ops always_sized ascii_len plain_digest elements mixed_calls (init 1))
  = 600000
  ∧ od_keys (_get_cache_store general
               (run_ops always_sized ascii_len plain_digest elements mixed_calls (init 1)))
    = [py "A"; py "D"].
Proof. vm_compute. split; reflexivity. Qed.

(** An entry with one hour to live beside one with six, swept after two
    hours. *)
Definition short_and_long : @manager pystr :=
  set always_sized ascii_len 2 (py "B") (chars 40 "b") 6 general
    (set always_sized ascii_len 1 (py "A") (chars 40 "a") 1 general small_manager).

Lemma cleanup_expired_sweeps_witness :
  (∀ ct, _get_cache_store ct (cleanup_expired (2 * HOUR) short_and_long)
         = filter (λ kv, is_expired (2 * HOUR) kv.2 = false)
             (_get_cache_store ct short_and_long))
  ∧ processed_content_hashes (cleanup_expired (2 * HOUR) short_and_long)
    = processed_content_hashes short_and_long
  ∧ cleanup_expired (2 * HOUR) (cleanup_expired (2 * HOUR) short_and_long)
    = cleanup_expired (2 * HOUR) short_and_long.
Proof.
  apply (cleanup_expired_sweeps (2 * HOUR) short_and_long).
  - intros ct. unfold _get_cache_store. repeat case_decide;
      apply (bool_decide_unpack _); vm_compute; reflexivity.
  - intros ct. unfold _get_cache_store. repeat case_decide; dated_by_computation.
Defined.

Example short_and_long_swept :
  od_keys (_get_cache_store general (cleanup_expired (2 * HOUR) short_and_long)) = [py "B"]
  ∧ memory_cleanups (stats (cleanup_expired (2 * HOUR) short_and_long)) = 1.
Proof. vm_compute. split; reflexivity. Qed.

(** Pain points as triples of title, content and URL, cached as lists. *)
Definition triple : Type := pystr * pystr * pystr.
Definition list_sized (_ : list triple) : bool := true.
Definition list_len (l : list triple) : N := N.of_nat (length l).
Definition no_params (_ : unit) : pystr := py "{}".

Definition two_points : list triple :=
  [ (py "slow app", py "pages take a minute", py "https://example.org/1");
    (py "lost data", py "the export drops rows", py "https://example.org/2") ].

Lemma cached_pain_points_round_trip_witness :
  (get_cached_pain_points plain_digest no_params () 2 2 (py "naver") (py "slow")
     (cache_pain_points list_sized list_len plain_digest elements no_params ()
        (λ p, p.1.1) (λ p, p.1.2) (λ p, p.2) id 1 (py "naver") (py "slow") two_points 4
        (init 800))).1
  = Some (first_new plain_digest (λ p : triple, p.1.1) (λ p, p.1.2) (λ p, p.2)
            (processed_content_hashes (init (Data := list triple) 800)) two_points).
Proof.
  apply (cached_pain_points_round_trip list_sized list_len plain_digest elements no_params ()
           (λ p, p.1.1) (λ p, p.1.2) (λ p, p.2) id 1 2 2 (py "naver") (py "slow") two_points 4
           (init 800)).
  - by_computation.
  - split; by_computation.
  - split; by_computation.
  - by_computation.
Defined.

Lemma recaching_caches_nothing_witness :
  (get_cached_pain_points plain_digest no_params () 3 3 (py "naver") (py "slow")
     (cache_pain_points list_sized list_len plain_digest elements no_params ()
        (λ p, p.1.1) (λ p, p.1.2) (λ p, p.2) id 2 (py "naver") (py "slow") two_points 4
        (cache_pain_points list_sized list_len plain_digest elements no_params ()
           (λ p, p.1.1) (λ p, p.1.2) (λ p, p.2) id 1 (py "naver") (py "slow") two_points 4
           (init 800)))).1
  = Some [].
Proof.
  apply (recaching_caches_nothing list_sized list_len plain_digest elements no_params ()
           (λ p, p.1.1) (λ p, p.1.2) (λ p, p.2) id 1 2 3 3 (py "naver") (py "slow")
           two_points 4 4 (init 800)).
  - by_computation.
  - split; by_computation.
  - split; by_computation.
  - by_computation.
Defined.

Lemma get_counts_one_request_witness :
  total_requests (get 3 3 (py "A") general two_entries).2 = total_requests two_entries + 1
  ∧ hits (stats (get 3 3 (py "A") general two_entries).2)
    = hits (stats two_entries)
      + match (get 3 3 (py "A") general two_entries).1 with Some _ => 1 | None => 0 end
  ∧ evictions (stats (get 3 3 (py "A") general two_entries).2) = evictions (stats two_entries)
  ∧ memory_cleanups (stats (get 3 3 (py "A") general two_entries).2)
    = memory_cleanups (stats two_entries)
  ∧ duplicate_blocks (stats (get 3 3 (py "A") general two_entries).2)
    = duplicate_blocks (stats two_entries).
Proof.
  apply (get_counts_one_request 3 3 (py "A") general two_entries).
  intros e He. vm_compute in He. injection He as <-. dated_by_computation.
Defined.

Lemma cache_invariants_witness :
  all_dated (run_ops always_sized ascii_len plain_digest elements mixed_calls (init 1))
  ∧ (∀ ct, NoDup (_get_cache_store ct
                    (run_ops always_sized ascii_len plain_digest elements mixed_calls
                       (init 1))).*1
           ∧ sizes_nonneg
               (_get_cache_store ct
                  (run_ops always_sized ascii_len plain_digest elements mixed_calls (init 1))))
  ∧ max_memory_bytes (run_ops always_sized ascii_len plain_digest elements mixed_calls (init 1))
    = 1 * 1024 * 1024
  ∧ total_requests (run_ops always_sized ascii_len plain_digest elements mixed_calls (init 1))
    = Z.of_nat (length (List.filter is_get mixed_calls))
  ∧ 0 ≤ hits (stats (run_ops always_sized ascii_len plain_digest elements mixed_calls (init 1)))
  ∧ 0 ≤ misses (stats (run_ops always_sized ascii_len plain_digest elements mixed_calls
                         (init 1)))
  ∧ 0 ≤ evictions (stats (run_ops always_sized ascii_len plain_digest elements mixed_calls
                            (init 1)))
  ∧ (0 <= hit_rate_percentage
            (run_ops always_sized ascii_len plain_digest elements mixed_calls (init 1))
     <= 100)%Q.
Proof.
  apply (cache_invariants always_sized ascii_len plain_digest elements mixed_calls 1).
  unfold mixed_calls. repeat (apply List.Forall_cons; [dated_by_computation|]).
  apply List.Forall_nil.
Defined.

End cache_operation_runs.

(** * Further properties of the collector *)

Section text_properties.
Import BaseCollector.
Variable str_lower : pystr → pystr.
Variable str_strip : pystr → pystr.
Variable remove_tags : pystr → pystr.
Variable join_split : pystr → pystr.
Variable remove_urls : pystr → pystr.
Variable findall_words : pystr → list pystr.

Lemma slice_to_length {A} (n : Z) (s : list A) :
  0 ≤ n → (length (slice_to n s) ≤ Z.to_nat n)%nat.
Proof.
  intros Hn. unfold slice_to. rewrite bool_decide_eq_true_2 by done.
  rewrite length_take. lia.
Qed.

(** X18: with a non-negative [max_content_length] the cleaned text has at
    most [max_content_length + 3] characters: a longer text is cut to the
    limit and then gets three dots, so the limit itself can be exceeded by
    three.  The empty text stays empty.  ([str.strip] only removes
    characters.) *)
Theorem clean_text_length (cfg : CollectorConfig) (text : pystr) :
  0 ≤ max_content_length cfg →
  (∀ s, length (str_strip s) ≤ length s)%nat →
  (length (_clean_text str_strip remove_tags join_split remove_urls cfg text)
   ≤ Z.to_nat (max_content_length cfg) + 3)%nat
  ∧ _clean_text str_strip remove_tags join_split remove_urls cfg [] = [].
Proof using Type.
  clear.
  intros Hmax Hstrip. split; [|done]. unfold _clean_text.
  destruct text as [|ch text]; [cbn; lia|].
  etrans; [apply Hstrip|]. case_bool_decide as Hlong.
  - rewrite length_app. pose proof (slice_to_length (max_content_length cfg)
      (remove_urls (join_split (remove_tags (ch :: text)))) Hmax). cbn [length py]. 
    change (length (py "...")) with 3%nat. lia.
  - lia.
Qed.

(** A keyword is no stop word and has more than two characters. *)
Definition is_keyword (word : pystr) : Prop :=
  (word ∉ stop_words) ∧ (2 < length word)%nat.

Lemma keyword_loop_spec (words : list pystr) :
  ∀ keywords seen,
    seen = list_to_set keywords → NoDup keywords → Forall is_keyword keywords →
    (length keywords < 10)%nat →
    ∃ added,
      keyword_loop words keywords seen = keywords ++ added
      ∧ added `sublist_of` words
      ∧ NoDup (keywords ++ added)
      ∧ Forall is_keyword (keywords ++ added)
      ∧ (length (keywords ++ added) ≤ 10)%nat.
Proof using Type.
  clear.
  induction words as [|word rest IH]; intros keywords seen Hseen Hnd Hkw Hlen; cbn [keyword_loop].
  - exists []. rewrite app_nil_r. repeat split; try done. lia.
  - case_bool_decide as Hword.
    + destruct Hword as (Hstop & Hnew & Hlong). subst seen.
      assert (Hnd' : NoDup (keywords ++ [word])).
      { apply NoDup_app. repeat split; [done| |apply NoDup_singleton].
        intros x Hx Hx'. apply list_elem_of_singleton in Hx'. subst.
        apply Hnew. by apply elem_of_list_to_set. }
      assert (Hkw' : Forall is_keyword (keywords ++ [word])).
      { apply Forall_app. split; [done|]. by repeat constructor. }
      case_bool_decide as Hfull.
      * exists [word]. repeat split; try done.
        -- apply sublist_skip, sublist_nil_l.
        -- rewrite length_app in *. cbn in *. lia.
      * destruct (IH (keywords ++ [word]) ({[word]} ∪ list_to_set keywords))
          as (added & Heq & Hsub & Hnd2 & Hkw2 & Hlen2); [|done|done|lia|].
        { rewrite list_to_set_app_L. cbn. set_solver. }
        rewrite <- app_assoc in Heq, Hnd2, Hkw2, Hlen2. cbn [app] in Heq, Hnd2, Hkw2, Hlen2.
        exists (word :: added). repeat split; try done. by apply sublist_skip.
    + destruct (IH keywords seen) as (added & Heq & Hsub & Hrest); [done..|].
      exists added. split; [done|]. split; [by apply sublist_cons|done].
Qed.

(** X19: the keywords extracted from a text are at most ten, pairwise
    different, longer than two characters and no stop words, and they stand
    in the order in which [re.findall] found them in the lower-cased text. *)
Theorem extract_keywords_spec (text : pystr) :
  (length (_extract_keywords str_lower findall_words text) ≤ 10)%nat
  ∧ NoDup (_extract_keywords str_lower findall_words text)
  ∧ Forall is_keyword (_extract_keywords str_lower findall_words text)
  ∧ _extract_keywords str_lower findall_words text
    `sublist_of` findall_words (str_lower text).
Proof using Type.
  clear.
  unfold _extract_keywords.
  destruct (keyword_loop_spec (findall_words (str_lower text)) [] ∅)
    as (added & -> & Hsub & Hnd & Hkw & Hlen).
  - done.
  - apply NoDup_nil_2.
  - apply Forall_nil_2.
  - cbn. lia.
  - cbn [app] in *. done.
Qed.

Lemma first_max_spec (items : list (pystr * Z)) :
  ∀ best, first_max best items ∈ best :: items
          ∧ ∀ item, item ∈ best :: items → item.2 ≤ (first_max best items).2.
Proof using Type.
  clear.
  induction items as [|x items IH]; intros best; cbn [first_max].
  - split; [by left|]. intros item Hin. apply list_elem_of_singleton in Hin. by subst.
  - case_bool_decide as Hlt.
    + destruct (IH x) as [Hin Hmax]. split; [by right|].
      intros item Hitem. apply elem_of_cons in Hitem as [->|Hitem]; [|by apply Hmax].
      specialize (Hmax x (list_elem_of_here _ _)). lia.
    + destruct (IH best) as [Hin Hmax]. split.
      * apply elem_of_cons in Hin as [->|Hin]; [by left|by do 2 right].
      * intros item Hitem. apply elem_of_cons in Hitem as [->|Hitem]; [by apply Hmax, list_elem_of_here|].
        apply elem_of_cons in Hitem as [->|Hitem].
        -- specialize (Hmax best (list_elem_of_here _ _)). lia.
        -- apply Hmax. by right.
Qed.

(** X20: the category of a text is [general] exactly when none of the
    keywords of any category occurs in the lower-cased text; otherwise it is
    a category of the table with at least one keyword in the text and with
    as many keyword hits as any other category. *)
Theorem categorize_content_spec (text : pystr) :
  (_categorize_content str_lower text = py "general"
   ∧ ∀ entry, entry ∈ categories → keyword_hits (str_lower text) entry.2 = 0)
  ∨ (∃ keywords,
       (_categorize_content str_lower text, keywords) ∈ categories
       ∧ 0 < keyword_hits (str_lower text) keywords
       ∧ ∀ entry, entry ∈ categories →
           keyword_hits (str_lower text) entry.2 ≤ keyword_hits (str_lower text) keywords).
Proof using Type.
  clear.
  unfold _categorize_content, category_scores.
  generalize categories. intros table.
  set (score := λ entry : pystr * list pystr, (entry.1, keyword_hits (str_lower text) entry.2)).
  destruct (filter _ (score <$> table)) as [|item rest] eqn:Hf.
  - left. split; [done|]. intros entry Hin.
    assert (Hno : score entry ∉ filter (λ item : pystr * Z, 0 < item.2) (score <$> table))
      by (rewrite Hf; apply not_elem_of_nil).
    rewrite list_elem_of_filter in Hno.
    assert (0 ≤ keyword_hits (str_lower text) entry.2) by (unfold keyword_hits; lia).
    destruct (decide (0 < keyword_hits (str_lower text) entry.2)) as [Hpos|]; [|lia].
    destruct Hno. split; [done|]. apply list_elem_of_fmap. by exists entry.
  - right. destruct (first_max_spec rest item) as [Hin Hmax].
    rewrite <- Hf in Hin. apply list_elem_of_filter in Hin as [Hpos Hin].
    apply list_elem_of_fmap in Hin as (entry & Heq & Hentry).
    exists entry.2. rewrite Heq in *. cbn [fst snd score] in *.
    split; [by destruct entry|]. split; [done|].
    intros entry' Hentry'.
    destruct (decide (0 < keyword_hits (str_lower text) entry'.2)) as [Hpos'|]; [|lia].
    apply (Hmax (score entry')). rewrite <- Hf. apply list_elem_of_filter. split; [done|].
    apply list_elem_of_fmap. by exists entry'.
Qed.

End text_properties.

Section score_properties.
Import BaseCollector.

Lemma len_over_range {A} (l : list A) (d : Z) :
  0 < d → (0 <= Qmin (len_over l d) 1 <= 1)%Q.
Proof.
  intros Hd. split; [|apply Q.le_min_r]. apply Q.min_glb; [|done].
  unfold len_over. apply Qle_shift_div_l.
  - change 0%Q with (inject_Z 0). by rewrite <- Zlt_Qlt.
  - rewrite Qmult_0_l. change 0%Q with (inject_Z 0). rewrite <- Zle_Qle. lia.
Qed.

Lemma quality_score_bounds (p : PainPointData) :
  (confidence p * (1 # 10) <= quality_score p <= (9 # 10) + confidence p * (1 # 10))%Q.
Proof.
  unfold quality_score.
  pose proof (len_over_range (title p) 50 eq_refl).
  pose proof (len_over_range (content p) 200 eq_refl).
  pose proof (len_over_range (keywords p) 5 eq_refl).
  split; lra.
Qed.

(** X21: the weighted sum of a record whose confidence is between 0 and 1
    is between 0 and 1, and it is at least a tenth of the confidence and at
    most 0.9 more than that: title, content and keywords together weigh
    0.9, however long they are. *)
Theorem quality_score_range (p : PainPointData) :
  (0 <= confidence p <= 1)%Q →
  (0 <= quality_score p <= 1)%Q
  ∧ (confidence p * (1 # 10) <= quality_score p)%Q
  ∧ (quality_score p <= (9 # 10) + confidence p * (1 # 10))%Q.
Proof.
  intros Hc. pose proof (quality_score_bounds p) as Hb.
  split; [split; lra|]. split; lra.
Qed.

End score_properties.

Section collector_more.
Import BaseCollector.
Variable md5_hexdigest : pystr → pystr.
Variable str_lower : pystr → pystr.
Context {RawItem : Type}.
Variable _collect_raw_data : list event → pystr → Z → fetch_outcome RawItem.
Variable _process_raw_item : RawItem → option PainPointData.

Implicit Types (p : PainPointData) (c : collector).

Abbreviation hashed := (content_hash md5_hexdigest).
Abbreviation included := (_should_include md5_hexdigest str_lower).
Abbreviation processed := (process_items md5_hexdigest str_lower _process_raw_item).
Abbreviation single_query :=
  (_collect_single_query md5_hexdigest str_lower _collect_raw_data _process_raw_item).
Abbreviation looped :=
  (attempt_loop md5_hexdigest str_lower _collect_raw_data _process_raw_item).

Lemma include_duplicate p c :
  hashed p ∈ _seen_hashes c → included p c = (false, with_stats add_duplicate_filtered c).
Proof using Type. clear. intros Hin. unfold _should_include. by rewrite decide_True. Qed.

(** X22: a record that the inclusion check accepts is turned away as a
    duplicate when it is checked again, whatever else was checked in
    between: only [duplicates_filtered] grows, and the seen hashes stay. *)
Theorem accepted_record_is_duplicate_later p (between : list PainPointData) c :
  (included p c).1 = true →
  let c' := foldl (λ c q, (included q c).2) (included p c).2 between in
  included p c' = (false, with_stats add_duplicate_filtered c').
Proof using Type.
  clear. intros Hacc c'. apply include_duplicate. subst c'.
  assert (Hin : hashed p ∈ _seen_hashes (included p c).2).
  { revert Hacc. unfold _should_include.
    repeat (case_decide || destruct (Qlt_le_dec _ _) || destruct (negb _)); cbn; try done.
    intros _. set_solver. }
  revert Hin. generalize (included p c).2. clear Hacc.
  induction between as [|q between IH]; intros c0 Hin; cbn [foldl]; [done|].
  apply IH. unfold _should_include.
  repeat (case_decide || destruct (Qlt_le_dec _ _) || destruct (negb _)); cbn; try done.
  set_solver.
Qed.

(** What the loop over the raw items leaves unchanged. *)
Definition untouched_by_items (c c' : collector) : Prop :=
  config c' = config c ∧ trace c' = trace c
  ∧ errors (_stats c') = errors (_stats c)
  ∧ api_calls (_stats c') = api_calls (_stats c)
  ∧ total_processed (_stats c') = total_processed (_stats c)
  ∧ cache_hits (_stats c') = cache_hits (_stats c).

Lemma fails_quality_dec p c :
  {fails_quality str_lower p c} + {¬ fails_quality str_lower p c}.
Proof using Type.
  clear. unfold fails_quality.
  destruct (Qlt_le_dec (quality_score_float p) (binary64 (min_quality_score (config c))))
    as [Hlt|Hge].
  - left. by left.
  - destruct (_is_pain_point_content str_lower (title p ++ py " " ++ content p)) eqn:Hpain.
    + right. intros [Hlt|Hf]; [by apply (Qlt_not_le _ _ Hlt)|done].
    + left. by right.
Qed.

Lemma process_items_spec (raw_data : list RawItem) :
  ∀ c,
    untouched_by_items c (processed raw_data c).2
    ∧ duplicates_filtered (_stats (processed raw_data c).2)
      + quality_filtered (_stats (processed raw_data c).2)
      + Z.of_nat (length (processed raw_data c).1)
      = duplicates_filtered (_stats c) + quality_filtered (_stats c)
        + Z.of_nat (length (omap _process_raw_item raw_data))
    ∧ (processed raw_data c).1 `sublist_of` omap _process_raw_item raw_data
    ∧ NoDup (hashed <$> (processed raw_data c).1)
    ∧ (∀ p, p ∈ (processed raw_data c).1 →
            (hashed p ∉ _seen_hashes c)
            ∧ ¬ fails_quality str_lower p c)
    ∧ _seen_hashes (processed raw_data c).2
      = _seen_hashes c ∪ list_to_set (hashed <$> (processed raw_data c).1).
Proof using Type.
  clear. induction raw_data as [|item rest IH]; intros c; cbn [process_items omap list_omap].
  - cbn [fst snd length fmap list_fmap list_to_set].
    split; [done|]. split; [lia|]. split; [done|]. split; [constructor|].
    split; [intros p Hp; by apply elem_of_nil in Hp|]. set_solver.
  - destruct (_process_raw_item item) as [p|]; [|apply IH].
    destruct (decide (hashed p ∈ _seen_hashes c)) as [Hdup|Hnew].
    + rewrite include_duplicate by done.
      destruct (IH (with_stats add_duplicate_filtered c)) as (Hu & Hn & Hs & Hnd & Hall & Hseen).
      destruct (processed rest _) as [res c2]. cbn [fst snd length] in *.
      split; [done|]. split; [cbn in Hn; lia|]. split; [by apply sublist_cons|].
      split; [done|]. split; [done|]. done.
    + destruct (fails_quality_dec p c) as [Hq|Hok].
      * rewrite (include_rejected_quality md5_hexdigest str_lower p c Hnew Hq).
        destruct (IH (with_stats add_quality_filtered c)) as (Hu & Hn & Hs & Hnd & Hall & Hseen).
        destruct (processed rest _) as [res c2]. cbn [fst snd length] in *.
        split; [done|]. split; [cbn in Hn; lia|]. split; [by apply sublist_cons|].
        split; [done|]. split; [done|]. done.
      * rewrite (include_accepted md5_hexdigest str_lower p c Hnew Hok).
        destruct (IH (with_seen ({[hashed p]} ∪ _seen_hashes c) c))
          as (Hu & Hn & Hs & Hnd & Hall & Hseen).
        destruct (processed rest _) as [res c2]. cbn [fst snd length] in *.
        split; [done|]. split; [cbn in Hn; lia|]. split; [by apply sublist_skip|].
        split; [|split].
        -- cbn [fmap list_fmap]. apply NoDup_cons. split; [|done]. intros Hin.
           apply list_elem_of_fmap in Hin as (q & Hq & Hin).
           destruct (Hall q Hin) as [Hnot _]. apply Hnot. rewrite <- Hq. cbn. set_solver.
        -- intros q Hq. apply elem_of_cons in Hq as [->|Hq]; [done|].
           destruct (Hall q Hq) as [Hnot Hokq]. split; [cbn in Hnot; set_solver|done].
        -- rewrite Hseen. cbn. set_solver.
Qed.

(** X23: of the raw items of one answer that can be turned into records,
    each is either returned, counted as a duplicate or counted as filtered
    for quality, and nothing else is counted; the records returned have
    pairwise different content hashes that were all unseen before, none of
    them fails the quality checks, and the seen hashes grow by exactly their
    hashes. *)
Theorem process_items_accounting (raw_data : list RawItem) c :
  duplicates_filtered (_stats (processed raw_data c).2)
  + quality_filtered (_stats (processed raw_data c).2)
  + Z.of_nat (length (processed raw_data c).1)
  = duplicates_filtered (_stats c) + quality_filtered (_stats c)
    + Z.of_nat (length (omap _process_raw_item raw_data))
  ∧ (processed raw_data c).1 `sublist_of` omap _process_raw_item raw_data
  ∧ NoDup (hashed <$> (processed raw_data c).1)
  ∧ (∀ p, p ∈ (processed raw_data c).1 →
          (hashed p ∉ _seen_hashes c) ∧ ¬ fails_quality str_lower p c)
  ∧ _seen_hashes (processed raw_data c).2
    = _seen_hashes c ∪ list_to_set (hashed <$> (processed raw_data c).1)
  ∧ errors (_stats (processed raw_data c).2) = errors (_stats c)
  ∧ api_calls (_stats (processed raw_data c).2) = api_calls (_stats c).
Proof using Type.
  clear. destruct (process_items_spec raw_data c) as ((_ & _ & He & Ha & _) & Hn & Hs & Hnd & Hall & Hseen).
  done.
Qed.

(** The effects of failed attempts: each calls the adapter and then sleeps
    for its backoff. *)
Definition failed_attempts (cfg : CollectorConfig) (query : pystr) (limit : Z)
    (attempts : list Z) : list event :=
  attempts ≫= λ attempt, [EvFetch query limit; EvSleep (backoff cfg attempt)].

Lemma attempt_loop_spec (query : pystr) (limit : Z) (attempts : list Z) :
  ∀ c, ∃ k msgs,
    (k ≤ length attempts)%nat
    ∧ config (looped attempts query limit c).2 = config c
    ∧ errors (_stats (looped attempts query limit c).2) = errors (_stats c) ++ msgs
    ∧ length msgs
      = length (filter (λ attempt, attempt = retry_attempts (config c) - 1) (take k attempts))
    ∧ ((k = length attempts
        ∧ (looped attempts query limit c).1 = []
        ∧ trace (looped attempts query limit c).2
          = trace c ++ failed_attempts (config c) query limit attempts
        ∧ counters (_stats (looped attempts query limit c).2) = counters (_stats c)
        ∧ _seen_hashes (looped attempts query limit c).2 = _seen_hashes c)
       ∨ ((k < length attempts)%nat
          ∧ ∃ raw_data,
              _collect_raw_data
                (trace c ++ failed_attempts (config c) query limit (take k attempts))
                query limit = FetchOk raw_data
              ∧ trace (looped attempts query limit c).2
                = trace c ++ failed_attempts (config c) query limit (take k attempts)
                  ++ [EvFetch query limit]
              ∧ api_calls (_stats (looped attempts query limit c).2)
                = api_calls (_stats c) + 1
              ∧ total_processed (_stats (looped attempts query limit c).2)
                = total_processed (_stats c) + Z.of_nat (length raw_data)
              ∧ (looped attempts query limit c).1
                  `sublist_of` omap _process_raw_item raw_data)).
Proof using Type.
  clear. induction attempts as [|attempt rest IH]; intros c.
  - exists 0%nat, []. cbn. rewrite !app_nil_r. repeat split; try done. by left.
  - cbn [attempt_loop].
    destruct (_collect_raw_data (trace c) query limit) as [raw| |msg] eqn:Hout.
    + exists 0%nat, [].
      destruct (process_items_spec raw (emit (EvFetch query limit) c))
        as ((Hcfg & Htr & Herr & Hapi & Htot & _) & _ & Hsub & _).
      destruct (processed raw _) as [res c2]. cbn [fst snd] in *.
      cbn -[py] in *. rewrite !app_nil_r.
      split; [lia|]. split; [done|]. split; [done|]. split; [done|].
      right. split; [lia|]. exists raw. rewrite Hout, Htr, Hapi, Htot. done.
    + cbn [config emit]. 
      match goal with
      | |- context [looped rest query limit ?c1] =>
          destruct (IH c1) as (k & msgs & Hk & Hcfg & Herr & Hlen & Hcases);
          assert (Hc1 : config c1 = config c) by (by case_decide);
          assert (Htr1 : trace c1
                         = trace c ++ [EvFetch query limit; EvSleep (backoff (config c) attempt)])
            by (case_decide; cbn; by rewrite <- app_assoc);
          assert (Hseen1 : _seen_hashes c1 = _seen_hashes c) by (by case_decide);
          assert (Hcnt1 : counters (_stats c1) = counters (_stats c)) by (by case_decide);
          assert (Hapi1 : api_calls (_stats c1) = api_calls (_stats c)) by (by case_decide);
          assert (Htot1 : total_processed (_stats c1) = total_processed (_stats c))
            by (by case_decide);
          assert (Herr1 : errors (_stats c1)
                          = errors (_stats c)
                            ++ (if decide (attempt = retry_attempts (config c) - 1)
                                then [py "Timeout for query: " ++ query] else []))
            by (case_decide; cbn -[py]; by rewrite ?app_nil_r);
          revert Hk Hcfg Herr Hlen Hcases; generalize (looped rest query limit c1);
          rewrite Hc1, Htr1, Hseen1, Hcnt1, Herr1, Hapi1, Htot1;
          clear Hc1 Htr1 Hseen1 Hcnt1 Herr1 Hapi1 Htot1
      end.
      intros r Hk Hcfg Herr Hlen Hcases.
      exists (S k). eexists. cbn [take length]. rewrite filter_cons.
      split; [lia|]. split; [done|]. split; [by rewrite Herr, <- app_assoc|].
      split; [case_decide; cbn [length app]; by rewrite Hlen|].
      unfold failed_attempts in *. cbn [mbind list_bind mjoin fmap list_fmap app].
      destruct Hcases as [(-> & Hres & Htr & Hcnt & Hseen)|(Hlt & raw & Hfetch & Htr & Hapi & Htot & Hsub)].
      * left. rewrite Hres, Htr, Hcnt, Hseen, <- app_assoc. done.
      * right. split; [lia|]. exists raw.
        rewrite <- app_assoc in Hfetch, Htr. cbn [app] in Hfetch, Htr.
        unfold counters in *. rewrite Hfetch, Htr, Hapi, Htot. done.
    + cbn [config emit]. 
      match goal with
      | |- context [looped rest query limit ?c1] =>
          destruct (IH c1) as (k & msgs & Hk & Hcfg & Herr & Hlen & Hcases);
          assert (Hc1 : config c1 = config c) by (by case_decide);
          assert (Htr1 : trace c1
                         = trace c ++ [EvFetch query limit; EvSleep (backoff (config c) attempt)])
            by (case_decide; cbn; by rewrite <- app_assoc);
          assert (Hseen1 : _seen_hashes c1 = _seen_hashes c) by (by case_decide);
          assert (Hcnt1 : counters (_stats c1) = counters (_stats c)) by (by case_decide);
          assert (Hapi1 : api_calls (_stats c1) = api_calls (_stats c)) by (by case_decide);
          assert (Htot1 : total_processed (_stats c1) = total_processed (_stats c))
            by (by case_decide);
          assert (Herr1 : errors (_stats c1)
                          = errors (_stats c)
                            ++ (if decide (attempt = retry_attempts (config c) - 1)
                                then [py "Failed query " ++ query ++ py ": " ++ msg] else []))
            by (case_decide; cbn -[py]; by rewrite ?app_nil_r);
          revert Hk Hcfg Herr Hlen Hcases; generalize (looped rest query limit c1);
          rewrite Hc1, Htr1, Hseen1, Hcnt1, Herr1, Hapi1, Htot1;
          clear Hc1 Htr1 Hseen1 Hcnt1 Herr1 Hapi1 Htot1
      end.
      intros r Hk Hcfg Herr Hlen Hcases.
      exists (S k). eexists. cbn [take length]. rewrite filter_cons.
      split; [lia|]. split; [done|]. split; [by rewrite Herr, <- app_assoc|].
      split; [case_decide; cbn [length app]; by rewrite Hlen|].
      unfold failed_attempts in *. cbn [mbind list_bind mjoin fmap list_fmap app].
      destruct Hcases as [(-> & Hres & Htr & Hcnt & Hseen)|(Hlt & raw & Hfetch & Htr & Hapi & Htot & Hsub)].
      * left. rewrite Hres, Htr, Hcnt, Hseen, <- app_assoc. done.
      * right. split; [lia|]. exists raw.
        rewrite <- app_assoc in Hfetch, Htr. cbn [app] in Hfetch, Htr.
        unfold counters in *. rewrite Hfetch, Htr, Hapi, Htot. done.
Qed.

Lemma py_range_take (k : nat) (n : Z) :
  (k ≤ Z.to_nat n)%nat → take k (py_range n) = py_range (Z.of_nat k).
Proof.
  intros Hk. unfold py_range. rewrite <- fmap_take, Nat2Z.id. f_equal.
  rewrite take_seq. f_equal. lia.
Qed.

Lemma py_range_below (k : nat) (x : Z) :
  Z.of_nat k ≤ x → filter (λ attempt, attempt = x) (py_range (Z.of_nat k)) = [].
Proof. intros Hx. unfold py_range. rewrite Nat2Z.id. by apply range_below. Qed.


End collector_more.

(** ** The service: single sources, the storing loop and the queries *)

Section service_more.
Import DataCollectorService.
Context {Data : Type}.
Variable md5_hexdigest : pystr → pystr.
Variable set_to_list : gset pystr → list pystr.
Variable collect : pystr → list pystr → Z → collect_outcome.
Variable create_pain_point :
  list BaseCollector.PainPointData → BaseCollector.PainPointData →
  option (list BaseCollector.PainPointData).

Implicit Types (s : @service Data) (r : CollectionResult).

Abbreviation stored := (store_loop md5_hexdigest set_to_list create_pain_point).
Abbreviation record_hash p :=
  (CacheManager.generate_content_hash md5_hexdigest (BaseCollector.title p)
     (BaseCollector.content p) (BaseCollector.source_url p)).

(** X25: a result that counts no more collected than processed records and
    no negative number of cache hits has a success rate between 0 and 100
    and an efficiency score between 0 and 1. *)
Theorem efficiency_score_range r :
  0 ≤ collected_count r ≤ total_processed r →
  0 ≤ cache_hits r →
  (0 <= success_rate r <= 100)%Q ∧ (0 <= efficiency_score r <= 1)%Q.
Proof using Type.
  clear. intros Hc Hh.
  assert (Hrate : (0 <= success_rate r <= 100)%Q).
  { unfold success_rate, true_div. case_decide as Hz; [split; [apply Qle_refl|done]|].
    assert (Hpos : (0 < inject_Z (total_processed r))%Q).
    { change 0%Q with (inject_Z 0). rewrite <- Zlt_Qlt. lia. }
    assert (Hq : (0 <= inject_Z (collected_count r) / inject_Z (total_processed r) <= 1)%Q).
    { split.
      - apply Qle_shift_div_l; [done|]. rewrite Qmult_0_l.
        change 0%Q with (inject_Z 0). rewrite <- Zle_Qle. lia.
      - apply Qle_shift_div_r; [done|]. rewrite Qmult_1_l. rewrite <- Zle_Qle. lia. }
    split; lra. }
  split; [done|]. unfold efficiency_score. split; [|apply Q.le_min_r].
  apply Q.min_glb; [|done].
  assert (Hbonus : (0 <= Qmin (true_div (cache_hits r) (Z.max (total_processed r) 1)) (1 # 2))%Q).
  { apply Q.min_glb; [|done]. unfold true_div. apply Qle_shift_div_l.
    - change 0%Q with (inject_Z 0). rewrite <- Zlt_Qlt. lia.
    - rewrite Qmult_0_l. change 0%Q with (inject_Z 0). rewrite <- Zle_Qle. lia. }
  revert Hrate Hbonus. generalize (success_rate r).
  generalize (Qmin (true_div (cache_hits r) (Z.max (total_processed r) 1)) (1 # 2)).
  intros bonus rate Hrate Hbonus. unfold Qdiv. change (/ 100)%Q with (1 # 100)%Q. lra.
Qed.

(** X26: [collect_from_source] returns a result only for a source that is
    not registered: the result counts nothing and carries the error
    [Unknown source: <source>].  For each of the three registered sources it
    raises [NameError] on the global name [time], which the module does not
    bind, before it calls the collector, and the service stays as it was;
    so the legacy methods [_collect_from_reddit], [_collect_from_google] and
    [_collect_from_naver] raise it on every call. *)
Theorem collect_from_source_outcomes (source_name : pystr) (limit current_hour current_day : Z)
    (elapsed : Q) s (db : list BaseCollector.PainPointData) :
  (source_name ∉ collectors →
   collect_from_source md5_hexdigest set_to_list collect create_pain_point
     source_name limit current_hour current_day elapsed s
   = (inr {| source := source_name; collected_count := 0; total_processed := 0;
             duplicates_filtered := 0;
             errors := [py "Unknown source: " ++ source_name];
             execution_time := 0; cache_hits := 0 |}, s))
  ∧ (source_name ∈ collectors →
     collect_from_source md5_hexdigest set_to_list collect create_pain_point
       source_name limit current_hour current_day elapsed s
     = (inl (NameError "time"), s))
  ∧ _collect_from_reddit (Data := Data) md5_hexdigest set_to_list collect create_pain_point
      limit current_hour current_day elapsed db = inl (NameError "time")
  ∧ _collect_from_google (Data := Data) md5_hexdigest set_to_list collect create_pain_point
      limit current_hour current_day elapsed db = inl (NameError "time")
  ∧ _collect_from_naver (Data := Data) md5_hexdigest set_to_list collect create_pain_point
      limit current_hour current_day elapsed db = inl (NameError "time").
Proof using Type.
  clear. unfold _collect_from_reddit, _collect_from_google, _collect_from_naver,
    legacy_collect, collect_from_source, collect_from_source_in.
  split; [|split; [|split; [|split]]].
  - intros Hnot. by rewrite bool_decide_eq_true_2.
  - intros Hin. rewrite bool_decide_eq_false_2 by (intros Hnot; by apply Hnot). done.
  - rewrite bool_decide_eq_false_2; [done|]. intros Hnot. apply Hnot.
    unfold collectors. set_solver.
  - rewrite bool_decide_eq_false_2; [done|]. intros Hnot. apply Hnot.
    unfold collectors. set_solver.
  - rewrite bool_decide_eq_false_2; [done|]. intros Hnot. apply Hnot.
    unfold collectors. set_solver.
Qed.

(** The content hashes of the records of a list. *)
Definition record_hashes (pain_points : list BaseCollector.PainPointData) : gset pystr :=
  list_to_set ((λ p, record_hash p) <$> pain_points).

Lemma store_loop_hashes (pain_points : list BaseCollector.PainPointData) :
  ∀ stored_count s,
    Z.of_nat (size (CacheManager.processed_content_hashes (cache_manager s)
                    ∪ record_hashes pain_points)) ≤ 10000 →
    CacheManager.processed_content_hashes
      (cache_manager (stored pain_points stored_count s).2)
    = CacheManager.processed_content_hashes (cache_manager s) ∪ record_hashes pain_points.
Proof using Type.
  clear. unfold record_hashes.
  induction pain_points as [|p rest IH]; intros n s Hsize; cbn [store_loop].
  - cbn. set_solver.
  - cbn [fmap list_fmap list_to_set] in *.
    destruct (decide (record_hash p
                      ∈ CacheManager.processed_content_hashes (cache_manager s))) as [Hin|Hnin].
    + pose proof (check_seen md5_hexdigest set_to_list
                    (BaseCollector.title p, BaseCollector.content p,
                     BaseCollector.source_url p) (cache_manager s) Hin) as Hc.
      cbn in Hc. rewrite Hc. cbn [database _collection_stats cache_manager].
      rewrite IH; cbn; [set_solver|].
      replace (CacheManager.processed_content_hashes (cache_manager s)
               ∪ list_to_set ((λ p, record_hash p) <$> rest))
        with (CacheManager.processed_content_hashes (cache_manager s)
              ∪ ({[record_hash p]} ∪ list_to_set ((λ p, record_hash p) <$> rest)))
        by set_solver. done.
    + pose proof (check_new md5_hexdigest set_to_list
                    (BaseCollector.title p, BaseCollector.content p,
                     BaseCollector.source_url p) (cache_manager s) Hnin) as Hc.
      cbn in Hc. rewrite Hc; clear Hc.
      2:{ intros [_ Hbig]. cbn in Hbig.
          assert (size ({[record_hash p]}
                        ∪ CacheManager.processed_content_hashes (cache_manager s))
                  ≤ size (CacheManager.processed_content_hashes (cache_manager s)
                          ∪ ({[record_hash p]}
                             ∪ list_to_set ((λ p, record_hash p) <$> rest))))%nat
            by (apply subseteq_size; set_solver).
          lia. }
      cbn [database _collection_stats cache_manager].
      assert (Hsize' :
        Z.of_nat (size ({[record_hash p]}
                        ∪ CacheManager.processed_content_hashes (cache_manager s)
                        ∪ list_to_set ((λ p, record_hash p) <$> rest))) ≤ 10000).
      { replace ({[record_hash p]} ∪ CacheManager.processed_content_hashes (cache_manager s)
                 ∪ list_to_set ((λ p, record_hash p) <$> rest))
          with (CacheManager.processed_content_hashes (cache_manager s)
                ∪ ({[record_hash p]} ∪ list_to_set ((λ p, record_hash p) <$> rest)))
          by set_solver. done. }
      destruct (create_pain_point (database s) p) as [db'|];
        (rewrite IH; cbn; [set_solver|done]).
Qed.

Lemma store_loop_all_seen (pain_points : list BaseCollector.PainPointData) :
  ∀ stored_count s,
    record_hashes pain_points ⊆ CacheManager.processed_content_hashes (cache_manager s) →
    (stored pain_points stored_count s).1 = stored_count
    ∧ database (stored pain_points stored_count s).2 = database s
    ∧ CacheManager.processed_content_hashes
        (cache_manager (stored pain_points stored_count s).2)
      = CacheManager.processed_content_hashes (cache_manager s)
    ∧ CacheManager.duplicate_blocks
        (CacheManager.stats (cache_manager (stored pain_points stored_count s).2))
      = CacheManager.duplicate_blocks (CacheManager.stats (cache_manager s))
        + Z.of_nat (length pain_points).
Proof using Type.
  clear. unfold record_hashes.
  induction pain_points as [|p rest IH]; intros n s Hsub; cbn [store_loop].
  - cbn. repeat split; try done. lia.
  - cbn [fmap list_fmap list_to_set] in Hsub.
    pose proof (check_seen md5_hexdigest set_to_list
                  (BaseCollector.title p, BaseCollector.content p,
                   BaseCollector.source_url p) (cache_manager s)) as Hc.
    cbn in Hc. rewrite Hc by set_solver. clear Hc.
    cbn [database _collection_stats cache_manager].
    match goal with
    | |- context [stored rest n ?s1] =>
        destruct (IH n s1) as (H1 & H2 & H3 & H4); [cbn; set_solver|];
        rewrite H1, H2, H3, H4
    end.
    cbn. repeat split; try done. lia.
Qed.

(** X27: while the seen hashes stay within their cap, a second pass of the
    storing loop over the same records stores nothing: it counts every
    record as a duplicate and leaves the database as the first pass left
    it, whether or not [create_pain_point] raised for a record in the first
    pass, so a record whose storing failed is not tried again. *)
Theorem second_pass_stores_nothing (pain_points : list BaseCollector.PainPointData)
    (first_count second_count : Z) s :
  Z.of_nat (size (CacheManager.processed_content_hashes (cache_manager s)
                  ∪ record_hashes pain_points)) ≤ 10000 →
  let s1 := (stored pain_points first_count s).2 in
  (stored pain_points second_count s1).1 = second_count
  ∧ database (stored pain_points second_count s1).2 = database s1
  ∧ CacheManager.duplicate_blocks
      (CacheManager.stats (cache_manager (stored pain_points second_count s1).2))
    = CacheManager.duplicate_blocks (CacheManager.stats (cache_manager s1))
      + Z.of_nat (length pain_points).
Proof using Type.
  clear. intros Hsize s1.
  destruct (store_loop_all_seen pain_points second_count s1) as (H1 & H2 & _ & H4); [|done].
  subst s1. rewrite store_loop_hashes by done. set_solver.
Qed.

(** X28: the generated queries are always eight different ones and begin
    with the five base queries.  Before 12 and after 17 o'clock the day of
    the week is without effect: the cut to eight leaves no room for its
    queries.  From 12 to 17 o'clock the three last are the weekday queries
    on the days 0 to 4 and the weekend queries otherwise. *)
Theorem intelligent_queries_spec (current_hour current_day : Z) :
  let queries := _generate_intelligent_queries current_hour current_day in
  length queries = 8%nat
  ∧ NoDup queries
  ∧ take 5 queries
    = [ py "software usability problems"; py "workflow inefficiencies";
        py "automation opportunities"; py "user experience pain points";
        py "productivity bottlenecks" ]
  ∧ (current_hour < 12 ∨ 17 < current_hour →
     ∀ other_day, _generate_intelligent_queries current_hour other_day = queries)
  ∧ (12 ≤ current_hour ≤ 17 →
     drop 5 queries
     = if bool_decide (current_day < 5)
       then [ py "business process problems"; py "work tool issues";
              py "collaboration difficulties" ]
       else [ py "personal productivity issues"; py "hobby tool problems";
              py "lifestyle inefficiencies" ]).
Proof using Type.
  clear. intros queries. subst queries. unfold _generate_intelligent_queries.
  destruct (bool_decide (current_hour < 12)) eqn:Hm;
    [|destruct (bool_decide (17 < current_hour)) eqn:He];
    destruct (bool_decide (current_day < 5)) eqn:Hd;
    (split; [reflexivity|]);
    (split; [match goal with |- NoDup ?l => apply (bool_decide_unpack (NoDup l)) end;
             vm_compute; exact I|]);
    (split; [reflexivity|]);
    (split; [intros Hout other_day; destruct (bool_decide (other_day < 5)); try reflexivity
            |intros Hin; try reflexivity]);
    try (apply bool_decide_eq_true in Hm; lia);
    try (apply bool_decide_eq_true in He; lia);
    try (apply bool_decide_eq_false in Hm; apply bool_decide_eq_false in He; lia).
Qed.

End service_more.

(** ** Raw items *)

Section item_properties.
Import BaseCollector.
Variable str_lower : pystr → pystr.
Variable str_strip : pystr → pystr.
Variable remove_tags : pystr → pystr.
Variable join_split : pystr → pystr.
Variable remove_urls : pystr → pystr.
Variable findall_words : pystr → list pystr.
Context {RawItem : Type}.
Variable item_title item_content item_description item_subsource item_source_url
  : RawItem → pystr.
Variable item_sentiment_score item_trend_score item_confidence : RawItem → Q.

Abbreviation cleaned := (_clean_text str_strip remove_tags join_split remove_urls).
Abbreviation process_item :=
  (_process_raw_item str_lower str_strip remove_tags join_split remove_urls findall_words
     item_title item_content item_description item_subsource item_source_url
     item_sentiment_score item_trend_score item_confidence).

Lemma categorize_content_names (text : pystr) :
  _categorize_content str_lower text = py "general"
  ∨ _categorize_content str_lower text ∈ categories.*1.
Proof using Type.
  clear. unfold _categorize_content, category_scores. generalize categories. intros table.
  destruct (filter _ _) as [|item rest] eqn:Hf; [by left|]. right.
  destruct (first_max_spec rest item) as [Hin _]. rewrite <- Hf in Hin.
  apply list_elem_of_filter in Hin as [_ Hin].
  apply list_elem_of_fmap in Hin as (entry & -> & Hentry). cbn [fst].
  apply list_elem_of_fmap. by exists entry.
Qed.

(** X29: a raw item gives no record exactly when its title and its content
    both clean to the empty text, the content being the item's [content]
    or, when that is empty, its [description].  A record that is made
    carries the cleaned title and content, the source
    [<collector name>-<subsource>], at most ten pairwise different keywords
    and a category that is [general] or one of the table. *)
Theorem process_raw_item_spec (cfg : CollectorConfig) (collector_name : pystr) (now : Z)
    (item : RawItem) :
  let cleaned_title := cleaned cfg (item_title item) in
  let cleaned_content :=
    cleaned cfg (if bool_decide (item_content item = []) then item_description item
                 else item_content item) in
  match process_item cfg collector_name now item with
  | None => cleaned_title = [] ∧ cleaned_content = []
  | Some pain_point =>
      (cleaned_title ≠ [] ∨ cleaned_content ≠ [])
      ∧ title pain_point = cleaned_title
      ∧ content pain_point = cleaned_content
      ∧ source pain_point = collector_name ++ py "-" ++ item_subsource item
      ∧ (length (keywords pain_point) ≤ 10)%nat
      ∧ NoDup (keywords pain_point)
      ∧ (category pain_point = py "general" ∨ category pain_point ∈ categories.*1)
  end.
Proof using Type.
  clear. intros cleaned_title cleaned_content. unfold _process_raw_item.
  assert (Hc : cleaned cfg (match item_content item with
                            | [] => item_description item
                            | c => c
                            end) = cleaned_content).
  { subst cleaned_content. by destruct (item_content item). }
  rewrite Hc. fold cleaned_title.
  assert (Hsome : ∀ text,
            (length (_extract_keywords str_lower findall_words text) ≤ 10)%nat
            ∧ NoDup (_extract_keywords str_lower findall_words text)).
  { intros text. unfold _extract_keywords.
    destruct (keyword_loop_spec (findall_words (str_lower text)) [] ∅)
      as (added & -> & _ & Hnd & _ & Hlen);
      [done|apply NoDup_nil_2|apply Forall_nil_2|cbn; lia|done]. }
  destruct cleaned_title as [|ch t] eqn:Ht; [destruct cleaned_content as [|ch c] eqn:Hcc|].
  - done.
  - cbn [title content source keywords category].
    split; [by right|]. do 3 (split; [done|]).
    split; [apply Hsome|]. split; [apply Hsome|]. apply categorize_content_names.
  - cbn [title content source keywords category].
    split; [by left|]. do 3 (split; [done|]).
    split; [apply Hsome|]. split; [apply Hsome|]. apply categorize_content_names.
Qed.

End item_properties.

(** ** Runs of the collector and of the service *)

Section more_runs.
Import BaseCollector.

(** A stand-in for the substitutions of [_clean_text] that finds nothing to
    remove, and a configuration that cuts texts at five characters. *)
Definition keeps_text (s : pystr) : pystr := s.

Definition cuts_at_five : CollectorConfig := mkConfig 5 30 3 6 5 (3 # 10) 1 true.

Lemma clean_text_length_witness :
  (length (_clean_text keeps_text keeps_text keeps_text keeps_text cuts_at_five
             (py "hello world"))
   ≤ Z.to_nat (max_content_length cuts_at_five) + 3)%nat
  ∧ _clean_text keeps_text keeps_text keeps_text keeps_text cuts_at_five [] = [].
Proof.
  apply (clean_text_length keeps_text keeps_text keeps_text keeps_text cuts_at_five
           (py "hello world")).
  - cbn. lia.
  - intros s. unfold keeps_text. lia.
Defined.

(** The cut text: five characters and three dots. *)
Example hello_world_cut :
  _clean_text keeps_text keeps_text keeps_text keeps_text cuts_at_five (py "hello world")
  = py "hello...".
Proof. reflexivity. Qed.

Lemma quality_score_range_witness :
  (0 <= quality_score thin_record <= 1)%Q
  ∧ (confidence thin_record * (1 # 10) <= quality_score thin_record)%Q
  ∧ (quality_score thin_record <= (9 # 10) + confidence thin_record * (1 # 10))%Q.
Proof.
  apply (quality_score_range thin_record).
  split; vm_compute; discriminate.
Defined.

(** A record that passes the default threshold and the pain-content
    heuristic: its score is 0.398. *)
Definition broken_app : PainPointData :=
  {| title := py "slow app problem"; content := py "the app is slow and broken";
     source := py "reddit-main"; source_url := py "https://example.org/1";
     sentiment_score := 0; trend_score := 1 # 2;
     keywords := [py "slow"; py "app"; py "problem"; py "broken"; py "the"];
     category := py "technology"; confidence := 1 # 2; timestamp := 0 |}.

Definition after_broken_app : collector :=
  foldl (λ c q, (_should_include plain_digest lower_case_text q c).2)
    (_should_include plain_digest lower_case_text broken_app new_collector).2 [thin_record].

Lemma accepted_record_is_duplicate_later_witness :
  (_should_include plain_digest lower_case_text broken_app new_collector).1 = true
  ∧ _should_include plain_digest lower_case_text broken_app after_broken_app
    = (false, with_stats add_duplicate_filtered after_broken_app).
Proof.
  split; [vm_compute; reflexivity|].
  apply (accepted_record_is_duplicate_later plain_digest lower_case_text broken_app
           [thin_record] new_collector).
  vm_compute. reflexivity.
Defined.

End more_runs.

Section more_service_runs.
Import DataCollectorService.

Definition three_of_ten : CollectionResult :=
  {| source := py "reddit"; collected_count := 3; total_processed := 10;
     duplicates_filtered := 7; errors := []; execution_time := 0; cache_hits := 2 |}.

Lemma efficiency_score_range_witness :
  (0 <= success_rate three_of_ten <= 100)%Q ∧ (0 <= efficiency_score three_of_ten <= 1)%Q.
Proof.
  apply (efficiency_score_range three_of_ten).
  - cbn. lia.
  - cbn. lia.
Defined.

Definition five_of_ten : CollectionResult :=
  {| source := py "reddit"; collected_count := 5; total_processed := 10;
     duplicates_filtered := 5; errors := []; execution_time := 0; cache_hits := 4 |}.

Lemma efficiency_score_monotone_witness :
  (success_rate three_of_ten <= success_rate five_of_ten)%Q
  ∧ (efficiency_score three_of_ten <= efficiency_score five_of_ten)%Q.
Proof.
  apply (efficiency_score_monotone three_of_ten five_of_ten).
  - cbn. lia.
  - reflexivity.
  - cbn. lia.
  - cbn. lia.
Defined.

(** Three of ten with two cache hits: 0.3 + 0.2. *)
Example three_of_ten_score : (efficiency_score three_of_ten == 1 # 2)%Q.
Proof. vm_compute. reflexivity. Qed.

(** A store that raises on every record. *)
Definition refuses (db : list BaseCollector.PainPointData) (p : BaseCollector.PainPointData)
    : option (list BaseCollector.PainPointData) := None.

Definition after_refusal : @service pystr :=
  (store_loop plain_digest elements refuses [thin_record; broken_app] 0 new_service).2.

Lemma second_pass_stores_nothing_witness :
  (store_loop plain_digest elements refuses [thin_record; broken_app] 0 after_refusal).1 = 0
  ∧ database
      (store_loop plain_digest elements refuses [thin_record; broken_app] 0 after_refusal).2
    = database after_refusal
  ∧ CacheManager.duplicate_blocks
      (CacheManager.stats
         (cache_manager
            (store_loop plain_digest elements refuses [thin_record; broken_app] 0
               after_refusal).2))
    = CacheManager.duplicate_blocks (CacheManager.stats (cache_manager after_refusal))
      + Z.of_nat (length [thin_record; broken_app]).
Proof.
  apply (second_pass_stores_nothing plain_digest elements refuses
           [thin_record; broken_app] 0 0 new_service).
  vm_compute. discriminate.
Defined.

(** Neither record reached the database, and neither is tried again. *)
Example after_refusal_database : database after_refusal = [].
Proof. reflexivity. Qed.

End more_service_runs.
